(** * Amazon_books: the category crawler of [data_collection.py]

    A shallow embedding of [src/data_collection/data_collection.py]:
    the helpers ([generate_id], [random_delay]), the interstitial recovery
    routine ([handle_sorry_page]), the field extractors, the CSV writer block
    and the crawl loop ([scrape_category], [main]); then the loader of the
    configuration with its overrides ([load_scrape_config]), the overlay
    helpers call by call ([click_continue_shopping_if_present],
    [expand_details]), and [load_config] of [utils/logging.py].

    Conventions.
    - Python [str] values are [string]s of bytes, the UTF-8 encoding of the
      text; [str.lower] folds the ASCII letters only.
    - The browser, the network, the clock and the operating system are an
      abstract world [W] with one operation per call the source makes on
      them ([World]); an operation that can raise returns [Throw].
    - The local variables of [scrape_category] and the files it writes are
      fields of an explicit state; the calls made on the driver are recorded
      in a trace.
    - A CSV file is the list of its rows, a row the list of its cells: the
      quoting done by the [csv] module is not modelled. *)

From stdpp Require Import gmap strings list fin_maps.
From Stdlib Require Import Ascii ZArith QArith Lqa.

Local Open Scope Z_scope.

(* ===================================================================== *)
(** ** Python string built-ins used by the source *)
(* ===================================================================== *)

Module Py.

(** [c.lower()] on one byte. *)
Definition lower_ascii (c : ascii) : ascii :=
  let n := nat_of_ascii c in
  if ((65 <=? n) && (n <=? 90))%nat then ascii_of_nat (n + 32) else c.

(** [s.lower()] *)
Fixpoint lower (s : string) : string :=
  match s with
  | EmptyString => EmptyString
  | String c s' => String (lower_ascii c) (lower s')
  end.

(** [needle in hay] *)
Fixpoint contains (needle hay : string) : bool :=
  String.prefix needle hay ||
  match hay with
  | EmptyString => false
  | String _ hay' => contains needle hay'
  end.

(** [s.split(sep)[0]] for a non-empty [sep]: the part of [s] before the
    first occurrence of [sep], the whole of [s] when there is none. *)
Fixpoint split_first (sep s : string) : string :=
  if String.prefix sep s then EmptyString
  else match s with
     | EmptyString => EmptyString
     | String c s' => String c (split_first sep s')
     end.

(** [s.replace(old, new)] for a non-empty [old]: occurrences are replaced
    from the left and do not overlap.  [skip] counts the bytes of a
    matched occurrence that remain to be dropped. *)
Fixpoint replace_go (old new : string) (skip : nat) (s : string) : string :=
  match s with
  | EmptyString => EmptyString
  | String c s' =>
    match skip with
    | S k => replace_go old new k s'
    | O => if String.prefix old s
           then new +:+ replace_go old new (String.length old - 1) s'
           else String c (replace_go old new O s')
    end
  end.

Definition replace (old new s : string) : string := replace_go old new O s.

(** White space as [str.strip] and [str.split] see it ([str.isspace]).  The
    characters of ASCII: the bytes 9 to 13 and 28 to 32. *)
Definition is_space (c : ascii) : bool :=
  let n := nat_of_ascii c in
  ((9 <=? n) && (n <=? 13) || (28 <=? n) && (n <=? 32))%nat.

(** The characters beyond ASCII, by their UTF-8 encodings: U+0085 and U+00A0
    on two bytes; U+1680, U+2000 to U+200A, U+2028, U+2029, U+202F, U+205F
    and U+3000 on three. *)
Definition two_byte_space (c1 c2 : ascii) : bool :=
  let n1 := nat_of_ascii c1 in
  let n2 := nat_of_ascii c2 in
  ((n1 =? 194) && ((n2 =? 133) || (n2 =? 160)))%nat.

Definition three_byte_space (c1 c2 c3 : ascii) : bool :=
  let n1 := nat_of_ascii c1 in
  let n2 := nat_of_ascii c2 in
  let n3 := nat_of_ascii c3 in
  ((n1 =? 225) && (n2 =? 154) && (n3 =? 128)
   || (n1 =? 226) && (n2 =? 128)
      && ((128 <=? n3) && (n3 <=? 138) || (n3 =? 168) || (n3 =? 169) || (n3 =? 175))
   || (n1 =? 226) && (n2 =? 129) && (n3 =? 159)
   || (n1 =? 227) && (n2 =? 128) && (n3 =? 128))%nat.

(** [s] begins with a white-space character. *)
Definition begins_with_space (s : string) : bool :=
  match s with
  | String c1 (String c2 (String c3 _)) =>
      is_space c1 || two_byte_space c1 c2 || three_byte_space c1 c2 c3
  | String c1 (String c2 EmptyString) => is_space c1 || two_byte_space c1 c2
  | String c1 EmptyString => is_space c1
  | EmptyString => false
  end.

(** [s.lstrip()] *)
Fixpoint lstrip (s : string) : string :=
  match s with
  | EmptyString => EmptyString
  | String c1 s1 =>
    if is_space c1 then lstrip s1
    else match s1 with
       | EmptyString => s
       | String c2 s2 =>
         if two_byte_space c1 c2 then lstrip s2
         else match s2 with
            | EmptyString => s
            | String c3 s3 =>
              if three_byte_space c1 c2 c3 then lstrip s3 else s
            end
       end
  end.

(** [s.rstrip()]: [s] up to the place from which only white space
    follows. *)
Fixpoint rstrip (s : string) : string :=
  match s with
  | EmptyString => EmptyString
  | String c s' =>
    match lstrip s with
    | EmptyString => EmptyString
    | _ => String c (rstrip s')
    end
  end.

(** [s.strip()] *)
Definition strip (s : string) : string := rstrip (lstrip s).

(** [s.rstrip(chars)] generalised to a set of bytes: drops the longest
    suffix made of bytes satisfying [p]. *)
Fixpoint rstrip_by (p : ascii -> bool) (s : string) : string :=
  match s with
  | EmptyString => EmptyString
  | String c s' =>
    match rstrip_by p s' with
    | EmptyString => if p c then EmptyString else String c EmptyString
    | r => String c r
    end
  end.

(** [s.rstrip(":")] *)
Definition rstrip_colon (s : string) : string :=
  rstrip_by (fun c => Ascii.eqb c ":"%char) s.

(** The first element of [s.split()], [None] where [s.split()] is empty
    (so that [s.split()[0]] raises [IndexError]). *)
Fixpoint take_word (s : string) : string :=
  match s with
  | EmptyString => EmptyString
  | String c s' =>
    if begins_with_space s then EmptyString else String c (take_word s')
  end.

Definition first_word (s : string) : option string :=
  match lstrip s with
  | EmptyString => None
  | w => Some (take_word w)
  end.

(** A value in a boolean context: [None] and the empty string are false. *)
Definition truthy (o : option string) : bool :=
  match o with
  | Some (String _ _) => true
  | _ => false
  end.

(** [os.path.join(a, b)] on POSIX paths. *)
Definition path_join (a b : string) : string :=
  if String.prefix "/" b then b
  else match a with
     | EmptyString => b
     | _ => if Ascii.eqb (default "/"%char (last (String.list_ascii_of_string a))) "/"%char
            then a +:+ b else a +:+ "/" +:+ b
     end.

End Py.

(* ===================================================================== *)
(** ** [hashlib.md5(...).hexdigest()] *)
(* ===================================================================== *)

Module MD5.

Definition mask32 : Z := 0xFFFFFFFF.
Definition w32 (x : Z) : Z := Z.land x mask32.
Definition add32 (x y : Z) : Z := w32 (x + y).
Definition not32 (x : Z) : Z := Z.lxor x mask32.
Definition rotl32 (x c : Z) : Z :=
  w32 (Z.lor (Z.shiftl x c) (Z.shiftr x (32 - c))).

Definition K : list Z :=
  [ 0xd76aa478; 0xe8c7b756; 0x242070db; 0xc1bdceee;
  0xf57c0faf; 0x4787c62a; 0xa8304613; 0xfd469501;
  0x698098d8; 0x8b44f7af; 0xffff5bb1; 0x895cd7be;
  0x6b901122; 0xfd987193; 0xa679438e; 0x49b40821;
  0xf61e2562; 0xc040b340; 0x265e5a51; 0xe9b6c7aa;
  0xd62f105d; 0x02441453; 0xd8a1e681; 0xe7d3fbc8;
  0x21e1cde6; 0xc33707d6; 0xf4d50d87; 0x455a14ed;
  0xa9e3e905; 0xfcefa3f8; 0x676f02d9; 0x8d2a4c8a;
  0xfffa3942; 0x8771f681; 0x6d9d6122; 0xfde5380c;
  0xa4beea44; 0x4bdecfa9; 0xf6bb4b60; 0xbebfbc70;
  0x289b7ec6; 0xeaa127fa; 0xd4ef3085; 0x04881d05;
  0xd9d4d039; 0xe6db99e5; 0x1fa27cf8; 0xc4ac5665;
  0xf4292244; 0x432aff97; 0xab9423a7; 0xfc93a039;
  0x655b59c3; 0x8f0ccc92; 0xffeff47d; 0x85845dd1;
  0x6fa87e4f; 0xfe2ce6e0; 0xa3014314; 0x4e0811a1;
  0xf7537e82; 0xbd3af235; 0x2ad7d2bb; 0xeb86d391 ].

Definition S : list Z :=
  [ 7; 12; 17; 22; 7; 12; 17; 22; 7; 12; 17; 22; 7; 12; 17; 22;
  5; 9; 14; 20; 5; 9; 14; 20; 5; 9; 14; 20; 5; 9; 14; 20;
  4; 11; 16; 23; 4; 11; 16; 23; 4; 11; 16; 23; 4; 11; 16; 23;
  6; 10; 15; 21; 6; 10; 15; 21; 6; 10; 15; 21; 6; 10; 15; 21 ].

(** The bytes of [x], least significant first. *)
Fixpoint le_bytes (n : nat) (x : Z) : list Z :=
  match n with
  | O => []
  | Datatypes.S n' => Z.land x 0xFF :: le_bytes n' (Z.shiftr x 8)
  end.

Fixpoint of_le_bytes (bs : list Z) : Z :=
  match bs with
  | [] => 0
  | b :: bs' => Z.lor b (Z.shiftl (of_le_bytes bs') 8)
  end.

(** Padding: the byte 0x80, zero bytes up to 56 modulo 64, then the length
    of the message in bits on 64 bits. *)
Definition pad (msg : list Z) : list Z :=
  let len := Z.of_nat (length msg) in
  let zeros := Z.to_nat ((55 - len) mod 64) in
  msg ++ [0x80] ++ repeat 0 zeros ++ le_bytes 8 (Z.land (8 * len) 0xFFFFFFFFFFFFFFFF).

Fixpoint chunks (n : nat) (fuel : nat) (bs : list Z) : list (list Z) :=
  match fuel, bs with
  | O, _ | _, [] => []
  | Datatypes.S fuel', _ => take n bs :: chunks n fuel' (drop n bs)
  end.

Definition words (block : list Z) : list Z :=
  of_le_bytes <$> chunks 4 16 block.

Record regs := Regs { rA : Z; rB : Z; rC : Z; rD : Z }.

Definition round (M : list Z) (r : regs) (i : Z) : regs :=
  let '(Regs A B C D) := r in
  let '(F, g) :=
  if i <? 16 then (Z.lor (Z.land B C) (Z.land (not32 B) D), i)
  else if i <? 32 then (Z.lor (Z.land D B) (Z.land (not32 D) C), (5 * i + 1) mod 16)
  else if i <? 48 then (Z.lxor (Z.lxor B C) D, (3 * i + 5) mod 16)
  else (Z.lxor C (Z.lor B (not32 D)), (7 * i) mod 16) in
  let F' := add32 (add32 (add32 F A) (K !!! Z.to_nat i)) (M !!! Z.to_nat g) in
  Regs D (add32 B (rotl32 F' (S !!! Z.to_nat i))) B C.

Definition block (r : regs) (blk : list Z) : regs :=
  let r' := foldl (round (words blk)) r (seqZ 0 64) in
  Regs (add32 (rA r) (rA r')) (add32 (rB r) (rB r'))
     (add32 (rC r) (rC r')) (add32 (rD r) (rD r')).

Definition init : regs := Regs 0x67452301 0xefcdab89 0x98badcfe 0x10325476.

Definition digest (msg : list Z) : list Z :=
  let p := pad msg in
  let r := foldl block init (chunks 64 (length p) p) in
  le_bytes 4 (rA r) ++ le_bytes 4 (rB r) ++ le_bytes 4 (rC r) ++ le_bytes 4 (rD r).

Definition hex_digit (d : Z) : ascii :=
  ascii_of_nat (Z.to_nat (if d <? 10 then 48 + d else 87 + d)).

Fixpoint hex (bs : list Z) : string :=
  match bs with
  | [] => EmptyString
  | b :: bs' => String (hex_digit (Z.shiftr b 4)) (String (hex_digit (Z.land b 0xF)) (hex bs'))
  end.

(** [s.encode()]: the bytes of the string. *)
Definition encode (s : string) : list Z :=
  (fun c => Z.of_nat (nat_of_ascii c)) <$> String.list_ascii_of_string s.

Definition hexdigest (s : string) : string := hex (digest (encode s)).

End MD5.

(** [generate_id(url)] *)
Definition generate_id (url : string) : string := MD5.hexdigest url.

(* ===================================================================== *)
(** ** Exceptions and results *)
(* ===================================================================== *)

(** The exception classes the modelled calls raise; all of them derive from
    [Exception]. *)
Inductive exn : Type :=
| IndexError | KeyError | ValueError | TypeError | OverflowError | OSError
| WebDriverException | RequestException.

Inductive outcome (A : Type) : Type :=
| Ret (a : A)
| Throw (e : exn).
Arguments Ret {A} a.
Arguments Throw {A} e.

(* ===================================================================== *)
(** ** Python dicts *)
(* ===================================================================== *)

(** A [dict] keeps its keys in insertion order; assigning to a key that is
    present keeps the key where it is. *)
Module Dict.
Section WithValues.
Context {V : Type}.

Fixpoint get (k : string) (d : list (string * V)) : option V :=
  match d with
  | [] => None
  | (k', v) :: d' => if String.eqb k k' then Some v else get k d'
  end.

(** [d[k] = v] *)
Fixpoint set (k : string) (v : V) (d : list (string * V)) : list (string * V) :=
  match d with
  | [] => [(k, v)]
  | (k', v') :: d' =>
  if String.eqb k k' then (k, v) :: d' else (k', v') :: set k v d'
  end.

(** [d.update(d2)] *)
Definition update (d d2 : list (string * V)) : list (string * V) :=
  foldl (fun acc kv => set kv.1 kv.2 acc) d d2.

Definition keys (d : list (string * V)) : list string := d.*1.
Definition values (d : list (string * V)) : list V := d.*2.
End WithValues.
End Dict.

(* ===================================================================== *)
(** ** The parsed page *)
(* ===================================================================== *)

(** What the selectors of the source find in a parsed page.  An element is
    represented by its [get_text(strip=True)]; [None] is an absent element. *)
Record ImgTag : Type := MkImg {
    data_old_hires : option string;
    img_src : option string;
    data_a_dynamic_image : option string;
  }.

Record Soup : Type := MkSoup {
    sel_productTitle : option string;        (* "#productTitle" *)
    sel_price_whole : option string;         (* ".a-price-whole" *)
    sel_price_fraction : option string;      (* ".a-price-fraction" *)
    sel_price_symbol : option string;        (* ".a-price-symbol" *)
    sel_icon_alt : option string;            (* "span.a-icon-alt" *)
    sel_byline : option string;              (* "#bylineInfo, a#bylineInfo" *)
    sel_color : option string;               (* "span.selection, #inline-twister-..." *)
    (* ".product-facts-detail" rows: the label and the value span of each *)
    sel_facts : list (option string * option string);
    (* the "About this item" list: the texts of its span.a-list-item *)
    sel_about_ul : option (list string);
    sel_image : option ImgTag;               (* "#landingImage, #imgTag" *)
    (* "a.a-link-normal.s-no-outline": the href attribute of each anchor *)
    sel_items : list (option string);
  }.

Definition NA : string := "N/A".
Definition newline : string := String (ascii_of_nat 10) EmptyString.

(* ===================================================================== *)
(** ** Extraction functions *)
(* ===================================================================== *)

Definition extract_title (soup : Soup) : string :=
  match sel_productTitle soup with
  | Some t => t
  | None => NA
  end.

Definition extract_price (soup : Soup) : option string :=
  match sel_price_whole soup, sel_price_symbol soup with
  | Some whole_text, Some symbol_text =>
      let fraction_text := default "" (sel_price_fraction soup) in
      match fraction_text with
      | String _ _ => Some (whole_text +:+ fraction_text +:+ " " +:+ symbol_text)
      | EmptyString => Some (whole_text +:+ " " +:+ symbol_text)
      end
  | _, _ => None
  end.

(** [el.get_text(strip=True).split()[0]] raises [IndexError] on a text
    without a word. *)
Definition extract_rating (soup : Soup) : outcome string :=
  match sel_icon_alt soup with
  | Some t =>
      match Py.first_word t with
      | Some w => Ret w
      | None => Throw IndexError
      end
  | None => Ret NA
  end.

Definition extract_brand (soup : Soup) : string :=
  match sel_byline soup with
  | Some t =>
      Py.strip (Py.replace "Brand:" "" (Py.replace "Store" "" (Py.replace "Visit the" "" t)))
  | None => NA
  end.

Definition extract_color (soup : Soup) : string :=
  match sel_color soup with
  | Some t => t
  | None => NA
  end.

Definition detail_key (label : string) : string :=
  Py.replace "-" "_" (Py.replace " " "_" (Py.lower (Py.rstrip_colon label))).

Definition extract_product_details (soup : Soup) : list (string * string) :=
  foldl (fun details row =>
           match row with
           | (Some label, Some value) => Dict.set (detail_key label) value details
           | _ => details
           end) [] (sel_facts soup).

Fixpoint join (sep : string) (l : list string) : string :=
  match l with
  | [] => ""
  | [x] => x
  | x :: l' => x +:+ sep +:+ join sep l'
  end.

Definition nonempty (s : string) : bool :=
  match s with
  | EmptyString => false
  | String _ _ => true
  end.

Definition extract_about_text (soup : Soup) : string :=
  match sel_about_ul soup with
  | None => ""
  | Some bullets => join newline (filter (fun b => nonempty b = true) bullets)
  end.

(** [a or b] *)
Definition py_or (a b : option string) : option string :=
  if Py.truthy a then a else b.

(** [json_first_key s] is [list(json.loads(s).keys())[0]], [None] where that
    expression raises. *)
Definition extract_image_url (json_first_key : string -> option string)
    (soup : Soup) : option string :=
  match sel_image soup with
  | None => None
  | Some img =>
      let url := py_or (data_old_hires img) (img_src img) in
      if negb (Py.truthy url) && Py.truthy (data_a_dynamic_image img) then
        match json_first_key (default "" (data_a_dynamic_image img)) with
        | Some k => Some k
        | None => url
        end
      else url
  end.

(* ===================================================================== *)
(** ** CSV files *)
(* ===================================================================== *)

(** One row as [csv.DictReader] returns it: the cells under the field names
    ([None] is the [restval] of a short row), and the cells beyond the field
    names, which the reader stores under the key [None]. *)
Record reader_row : Type := MkRow {
    row_fields : list (string * option string);
    row_rest : option (list string);
  }.

Definition read_row (fieldnames row : list string) : reader_row :=
  let d := foldl (fun acc kv => Dict.set kv.1 (Some kv.2) acc) [] (zip fieldnames row) in
  let lf := length fieldnames in
  let lr := length row in
  if (lf <? lr)%nat then MkRow d (Some (drop lf row))
  else MkRow (foldl (fun acc k => Dict.set k None acc) d (drop lr fieldnames)) None.

Definition is_blank (row : list string) : bool :=
  match row with
  | [] => true
  | _ => false
  end.

(** [csv.DictReader(f)]: the first row gives the field names, blank rows
    after it are skipped. *)
Definition DictReader (rows : list (list string)) : list reader_row :=
  match rows with
  | [] => []
  | fieldnames :: rest =>
      read_row fieldnames <$> filter (fun r => is_blank r = false) rest
  end.

(** [{row["id"] for row in reader}]: [KeyError] at the first row without the
    key.  A [None] cell is left out of the set: it is never equal to an
    identifier, which is a string. *)
Fixpoint id_column (rows : list reader_row) : outcome (gset string) :=
  match rows with
  | [] => Ret ∅
  | r :: rows' =>
      match Dict.get "id" (row_fields r) with
      | None => Throw KeyError
      | Some cell =>
          match id_column rows' with
          | Throw e => Throw e
          | Ret s => Ret (match cell with
                          | Some v => {[ v ]} ∪ s
                          | None => s
                          end)
          end
      end
  end.

(** A cell as [csv.writer] writes it: [None] becomes the empty string. *)
Definition cell (v : option string) : string := default "" v.

(** [DictWriter(f, fieldnames=data.keys())]: [writeheader] and [writerow]. *)
Definition header_of (data : list (string * option string)) : list string :=
  Dict.keys data.
Definition row_of (data : list (string * option string)) : list string :=
  cell <$> Dict.values data.

(** Lines 401-406 on the content of the file: [None] is a file that does
    not exist. *)
Definition csv_append (file : option (list (list string)))
    (data : list (string * option string)) : list (list string) :=
  match file with
  | None => [header_of data; row_of data]
  | Some rows => rows ++ [row_of data]
  end.


(* ===================================================================== *)
(** ** Configuration and the outside world *)
(* ===================================================================== *)

(** The values the module reads from [config/scrape_config.json];
    [IMAGES_DIR] and [TEXT_DIR] are the resolved directories. *)
Record Config : Type := MkConfig {
    BASE_DIR : string;
    IMAGES_DIR : string;
    TEXT_DIR : string;
    MAX_PER_CATEGORY : Z;
    DELAY_RANGE : list Q;
    BASE_SEARCH_URL : string;
    CATEGORIES : list (string * string);
  }.

(** The calls the source makes on libraries, the browser, the network and
    the operating system.  An operation takes the world and returns its
    result with the world after the call.
    [click_continue_shopping_if_present] and [expand_details] are functions
    of the source whose whole body is inside [try ... except]: they are
    taken as total operations on the world. *)
Class World (W : Type) : Type := MkWorld {
    (* pure library functions *)
    urljoin : string -> string -> string;
    BeautifulSoup : string -> Soup;
    json_first_key : string -> option string;
    (* selenium *)
    new_driver : W -> outcome unit * W;
    driver_get : string -> W -> outcome unit * W;
    driver_refresh : W -> outcome unit * W;
    driver_page_source : W -> outcome string * W;
    driver_clear_storage : W -> outcome unit * W;
    driver_delete_all_cookies : W -> outcome unit * W;
    driver_scroll : W -> outcome unit * W;
    driver_wait_title : W -> outcome unit * W;
    driver_click_next : W -> outcome unit * W;
    driver_quit : W -> outcome unit * W;
    click_continue_shopping_if_present : W -> bool * W;
    expand_details : W -> W;
    (* requests.get: status code and body *)
    requests_get : string -> W -> outcome (Z * string) * W;
    (* open(path, mode) *)
    open_file : string -> W -> outcome unit * W;
    (* random.random() *)
    random_random : W -> Q * W;
    (* the system call under time.sleep, on a length time.sleep passes on *)
    system_sleep : Q -> W -> outcome unit * W;
  }.

(** The calls recorded in the trace. *)
Inductive event : Type :=
| EvNewDriver
| EvGet (url : string)
| EvRefresh
| EvPageSource
| EvClickContinue
| EvClearStorage
| EvDeleteCookies
| EvScroll
| EvWaitTitle
| EvExpandDetails
| EvClickNext
| EvQuit
| EvRequest (url : string)
| EvOpen (path : string)
| EvSleep (seconds : Q).

(** The files the crawler reads and writes, by path: the category CSV files,
    the about-text files and the image files.  Their names end in
    [_bronze.csv], [.txt] and [.jpg], so one path is never in two maps. *)
Record Files : Type := MkFiles {
    csv_files : gmap string (list (list string));
    text_files : gmap string string;
    image_files : gmap string string;
  }.

Record State (W : Type) : Type := MkState {
    world : W;
    files : Files;
    trace : list event;
    (* local variables of scrape_category *)
    scraped_ids : gset string;
    total_scraped : Z;
    page : Z;
  }.
Arguments MkState {W} _ _ _ _ _ _.
Arguments world {W} _.
Arguments files {W} _.
Arguments trace {W} _.
Arguments scraped_ids {W} _.
Arguments total_scraped {W} _.
Arguments page {W} _.

(* ===================================================================== *)
(** ** The monad of the crawler: state, exceptions and a loop bound *)
(* ===================================================================== *)

(** The third result of a computation, besides a value and an exception:
    the bound put on the iterations of the [while] loop was reached. *)
Inductive result (A : Type) : Type :=
| Done (o : outcome A)
| OutOfFuel.
Arguments Done {A} o.
Arguments OutOfFuel {A}.

Definition M (W A : Type) : Type := State W -> result A * State W.

Section Monad.

Context {W : Type}.

Definition ret {A} (a : A) : M W A := fun st => (Done (Ret a), st).
Definition throw {A} (e : exn) : M W A := fun st => (Done (Throw e), st).
Definition out_of_fuel {A} : M W A := fun st => (OutOfFuel, st).

Definition bind {A B} (m : M W A) (k : A -> M W B) : M W B :=
  fun st =>
  match m st with
  | (Done (Ret a), st') => k a st'
  | (Done (Throw e), st') => (Done (Throw e), st')
  | (OutOfFuel, st') => (OutOfFuel, st')
  end.

(** [try: m except Exception: handler] *)
Definition try_except {A} (m : M W A) (handler : exn -> M W A) : M W A :=
  fun st =>
  match m st with
  | (Done (Throw e), st') => handler e st'
  | r => r
  end.

Definition lift {A} (o : outcome A) : M W A := fun st => (Done o, st).

Definition gets {A} (f : State W -> A) : M W A :=
  fun st => (Done (Ret (f st)), st).
Definition modify (f : State W -> State W) : M W unit :=
  fun st => (Done (Ret tt), f st).

Definition set_world (w : W) (st : State W) : State W :=
  MkState w (files st) (trace st) (scraped_ids st) (total_scraped st) (page st).
Definition set_files (fs : Files) (st : State W) : State W :=
  MkState (world st) fs (trace st) (scraped_ids st) (total_scraped st) (page st).
Definition log (ev : event) (st : State W) : State W :=
  MkState (world st) (files st) (trace st ++ [ev]) (scraped_ids st)
        (total_scraped st) (page st).
Definition set_scraped_ids (s : gset string) (st : State W) : State W :=
  MkState (world st) (files st) (trace st) s (total_scraped st) (page st).
Definition set_total_scraped (n : Z) (st : State W) : State W :=
  MkState (world st) (files st) (trace st) (scraped_ids st) n (page st).
Definition set_page (n : Z) (st : State W) : State W :=
  MkState (world st) (files st) (trace st) (scraped_ids st) (total_scraped st) n.

(** A call on the world that can raise, and one that cannot. *)
Definition call {A} (ev : event) (op : W -> outcome A * W) : M W A :=
  fun st => let '(r, w) := op (world st) in (Done r, set_world w (log ev st)).
Definition call_total {A} (ev : event) (op : W -> A * W) : M W A :=
  fun st => let '(a, w) := op (world st) in (Done (Ret a), set_world w (log ev st)).

End Monad.

Declare Scope crawl_scope.
Delimit Scope crawl_scope with crawl.
Notation "x <- m ;; k" := (bind m (fun x => k))
  (at level 100, m at next level, right associativity) : crawl_scope.
Notation "m ;; k" := (bind m (fun _ => k))
  (at level 100, right associativity) : crawl_scope.

(** The ways the body of a [for] loop ends: it falls through or executes
    [continue], it executes [break], or the function returns. *)
Inductive ctl (R : Type) : Type :=
| Next
| Break
| Return (r : R).
Arguments Next {R}.
Arguments Break {R}.
Arguments Return {R} r.

Section Loops.

Context {W : Type}.
Local Open Scope crawl_scope.

(** [for x in l: body], with [Some r] when the body returned [r]. *)
Fixpoint for_in {A R} (l : list A) (body : A -> M W (ctl R)) : M W (option R) :=
  match l with
  | [] => ret None
  | x :: l' =>
    c <- body x;;
    match c with
    | Next => for_in l' body
    | Break => ret None
    | Return r => ret (Some r)
    end
  end.

(** [while cond: body], where the body says whether it executed [break];
    at most [fuel] iterations. *)
Fixpoint while_ (fuel : nat) (cond : M W bool) (body : M W (ctl unit)) : M W unit :=
  match fuel with
  | O => out_of_fuel
  | S fuel' =>
    c <- cond;;
    if c then
      b <- body;;
      match b with
      | Next => while_ fuel' cond body
      | _ => ret tt
      end
    else ret tt
  end.

End Loops.

(* ===================================================================== *)
(** ** Driver helpers and the recovery routine *)
(* ===================================================================== *)

Section Crawler.

Context {W : Type} `{World W} (cfg : Config).
Local Open Scope crawl_scope.

(** [random.uniform(a, b)] on the draw [u] of [random.random()]. *)
Definition uniform (a b u : Q) : Q := (a + (b - a) * u)%Q.

(** [time.sleep] turns its argument into a number of nanoseconds held in a
    signed integer of 64 bits: the lengths that fit. *)
Definition fits_nanoseconds (secs : Q) : bool :=
  let ns := (secs * 1000000000)%Q in
  (Qle_bool (-9223372036854775808) ns && negb (Qle_bool 9223372036854775808 ns))%Q.

(** [time.sleep(secs)]: [OverflowError] on a length that does not fit, then
    [ValueError] on a negative length; the other lengths go to the system,
    which can refuse them ([OSError]).  This is the sleep of [random_delay],
    whose length comes from the configuration; the sleeps of a fixed length
    of a few seconds elsewhere in the source are left out. *)
Definition time_sleep (secs : Q) : M W unit :=
  if negb (fits_nanoseconds secs) then throw OverflowError
  else if Qle_bool 0 secs then call (EvSleep secs) (system_sleep secs)
  else throw ValueError.

Definition random_random_ : M W Q :=
  fun st => let '(u, w) := random_random (world st) in (Done (Ret u), set_world w st).

(** [random_delay()]: unpacking [DELAY_RANGE] into the two arguments of
    [random.uniform] is a [TypeError] unless it has two elements. *)
Definition random_delay : M W unit :=
  match DELAY_RANGE cfg with
  | [a; b] => u <- random_random_;; time_sleep (uniform a b u)
  | _ => throw TypeError
  end.

Definition scroll_randomly : M W unit := call EvScroll driver_scroll.

(** The test of line 171, on the lower-cased page source. *)
Definition is_sorry_page (src : string) : bool :=
  Py.contains "error/500_503.png" src
  || Py.contains "sorry! something went wrong" src
  || Py.contains "we're sorry" src.

(** The test of line 217. *)
Definition is_sorry_page_final (final_src : string) : bool :=
  Py.contains "error/500_503.png" final_src
  || Py.contains "sorry! something went wrong" final_src.

Definition page_source_lower : M W string :=
  src <- call EvPageSource driver_page_source;; ret (Py.lower src).

(** Lines 185-195: refresh, and on an exception the home page and the
    product page again. *)
Definition refresh_page (product_url : option string) : M W unit :=
  try_except (call EvRefresh driver_refresh)
  (fun _ =>
     try_except
       (call (EvGet "https://www.amazon.com") (driver_get "https://www.amazon.com");;
        if Py.truthy product_url
        then call (EvGet (default "" product_url)) (driver_get (default "" product_url))
        else ret tt)
       (fun _ => ret tt)).

(** Lines 207-213. *)
Definition clear_session : M W unit :=
  try_except
  (call EvClearStorage driver_clear_storage;;
   call EvDeleteCookies driver_delete_all_cookies)
  (fun _ => ret tt).

(** One iteration of the loop of [handle_sorry_page]. *)
Definition recovery_attempt (product_url : option string) (attempt : nat)
  : M W (ctl bool) :=
  src <- page_source_lower;;
  if negb (is_sorry_page src) then ret (Return true)
  else
  _ <- call_total EvClickContinue click_continue_shopping_if_present;;
  refresh_page product_url;;
  _ <- call_total EvClickContinue click_continue_shopping_if_present;;
  (if (attempt =? 2)%nat then clear_session else ret tt);;
  ret Next.

Definition handle_sorry_page (product_url : option string) (max_retries : nat)
  : M W bool :=
  r <- for_in (seq 1 max_retries) (recovery_attempt product_url);;
  match r with
  | Some b => ret b
  | None =>
    final_src <- page_source_lower;;
    if is_sorry_page_final final_src then ret false else ret true
  end.

(* =================================================================== *)
(** ** Persistence *)
(* =================================================================== *)

Definition write_text (path content : string) (st : State W) : State W :=
  set_files (MkFiles (csv_files (files st))
                   (<[path := content]> (text_files (files st)))
                   (image_files (files st))) st.

Definition write_image (path content : string) (st : State W) : State W :=
  set_files (MkFiles (csv_files (files st))
                   (text_files (files st))
                   (<[path := content]> (image_files (files st)))) st.

Definition write_csv (path : string) (rows : list (list string)) (st : State W)
  : State W :=
  set_files (MkFiles (<[path := rows]> (csv_files (files st)))
                   (text_files (files st))
                   (image_files (files st))) st.

(** [download_image(url, path)] *)
Definition download_image (url : option string) (path : string) : M W bool :=
  if negb (Py.truthy url) then ret false
  else
  try_except
    (r <- call (EvRequest (default "" url)) (requests_get (default "" url));;
     if r.1 =? 200 then
       call (EvOpen path) (open_file path);;
       modify (write_image path r.2);;
       ret true
     else ret false)
    (fun _ => ret false).

(** Lines 387-391. *)
Definition save_about_text (pid about : string) : M W unit :=
  let path := Py.path_join (TEXT_DIR cfg) (pid +:+ ".txt") in
  try_except
  (call (EvOpen path) (open_file path);; modify (write_text path about))
  (fun _ => ret tt).

(** Lines 394-398. *)
Definition save_image (pid : string) (img_url : option string) : M W unit :=
  if Py.truthy img_url then
  _ <- download_image img_url (Py.path_join (IMAGES_DIR cfg) (pid +:+ ".jpg"));;
  ret tt
  else ret tt.

(** Lines 401-406. *)
Definition append_to_csv (csv_file : string) (data : list (string * option string))
  : M W unit :=
  file_exists <- gets (fun st => csv_files (files st) !! csv_file);;
  call (EvOpen csv_file) (open_file csv_file);;
  modify (write_csv csv_file (csv_append file_exists data)).

(** Lines 319-323. *)
Definition load_scraped_ids (csv_file : string) : M W (gset string) :=
  existing <- gets (fun st => csv_files (files st) !! csv_file);;
  match existing with
  | None => ret ∅
  | Some rows =>
    call (EvOpen csv_file) (open_file csv_file);;
    lift (id_column (DictReader rows))
  end.

(* =================================================================== *)
(** ** The crawl of one category *)
(* =================================================================== *)

Definition product_url_of (href : string) : string :=
  urljoin "https://www.amazon.com" (Py.split_first "/ref" href).

(** Lines 374-383: the record of one product. *)
Definition build_data (pid product_url : string) (soup : Soup)
  : outcome (list (string * option string)) :=
  match extract_rating soup with
  | Throw e => Throw e
  | Ret rating =>
    Ret (Dict.update
           [ ("id", Some pid);
             ("url", Some product_url);
             ("title", Some (extract_title soup));
             ("price", extract_price soup);
             ("rating", Some rating);
             ("brand", Some (extract_brand soup));
             ("color", Some (extract_color soup)) ]
           ((fun kv => (kv.1, Some kv.2)) <$> extract_product_details soup))
  end.

(** Lines 370-411: the page has its title; extract and save. *)
Definition extract_and_save (csv_file pid product_url : string) : M W unit :=
  modify (fun st => set_world (expand_details (world st)) (log EvExpandDetails st));;
  src <- call EvPageSource driver_page_source;;
  let soup := BeautifulSoup src in
  data <- lift (build_data pid product_url soup);;
  save_about_text pid (extract_about_text soup);;
  save_image pid (extract_image_url json_first_key soup);;
  append_to_csv csv_file data;;
  modify (fun st => set_scraped_ids ({[ pid ]} ∪ scraped_ids st) st);;
  modify (fun st => set_total_scraped (total_scraped st + 1) st);;
  random_delay.

(** Lines 364-368 and what follows them. *)
Definition wait_and_extract (csv_file pid product_url : string) : M W unit :=
  found <- try_except (call EvWaitTitle driver_wait_title;; ret true)
                    (fun _ => ret false);;
  if found then extract_and_save csv_file pid product_url
  else random_delay.

(** Lines 351-362 and what follows them: visit the product page. *)
Definition visit_product (csv_file pid product_url : string) : M W unit :=
  call (EvGet product_url) (driver_get product_url);;
  _ <- call_total EvClickContinue click_continue_shopping_if_present;;
  ok <- handle_sorry_page (Some product_url) 3;;
  if ok then wait_and_extract csv_file pid product_url
  else random_delay.

(** The body of [for item in items] (lines 341-411); [item] is the [href]
    attribute of the anchor. *)
Definition scrape_item (csv_file : string) (item : option string)
  : M W (ctl unit) :=
  total <- gets total_scraped;;
  if MAX_PER_CATEGORY cfg <=? total then ret Break
  else
  let href := default "" item in
  if negb (Py.truthy item) || negb (Py.contains "/dp/" href) then ret Next
  else
    let product_url := product_url_of href in
    let pid := generate_id product_url in
    ids <- gets scraped_ids;;
    if bool_decide (pid ∈ ids) then ret Next
    else visit_product csv_file pid product_url;; ret Next.

(** The body of the [while] loop (lines 329-421). *)
Definition scrape_page (csv_file : string) : M W (ctl unit) :=
  scroll_randomly;;
  src <- call EvPageSource driver_page_source;;
  let items := sel_items (BeautifulSoup src) in
  match items with
  | [] => ret Break
  | _ =>
    _ <- for_in items (scrape_item csv_file);;
    try_except
      (call EvClickNext driver_click_next;;
       modify (fun st => set_page (page st + 1) st);;
       ret Next)
      (fun _ => ret Break)
  end.

Definition csv_path (category_name : string) : string :=
  Py.path_join (BASE_DIR cfg) (category_name +:+ "_bronze.csv").

(** [scrape_category(driver, category_name, node_id)], with at most [fuel]
    iterations of its [while] loop. *)
Definition scrape_category (fuel : nat) (category_name node_id : string)
  : M W unit :=
  let search_url := BASE_SEARCH_URL cfg +:+ node_id in
  call (EvGet search_url) (driver_get search_url);;
  _ <- call_total EvClickContinue click_continue_shopping_if_present;;
  _ <- handle_sorry_page None 2;;
  let csv_file := csv_path category_name in
  modify (set_scraped_ids ∅);;
  ids <- load_scraped_ids csv_file;;
  modify (set_scraped_ids ids);;
  modify (set_total_scraped 0);;
  modify (set_page 1);;
  while_ fuel
  (total <- gets total_scraped;; ret (total <? MAX_PER_CATEGORY cfg))
  (scrape_page csv_file).

(** Lines 434-436: the loop over the categories. *)
Definition scrape_categories (fuel : nat) (categories : list (string * string))
  : M W (option unit) :=
  for_in categories (fun c => scrape_category fuel c.1 c.2;; ret Next).

(** [main()]: the driver is obtained outside the [try]; the [finally]
    block quits it. *)
Definition main (fuel : nat) : M W unit :=
  call EvNewDriver new_driver;;
  try_except
  (_ <- scrape_categories fuel (CATEGORIES cfg);; ret tt)
  (fun _ => ret tt);;
  call EvQuit driver_quit.

End Crawler.

(* ===================================================================== *)
(** ** A scripted site, to run the crawler on *)
(* ===================================================================== *)

(** A world made of finite tables: what each URL serves on successive loads
    (the first source on [get], the following ones on each [refresh]), what
    each page source parses to, which listing follows which, which image
    requests are answered, and which paths cannot be opened. *)
Module Sim.

Record Site : Type := MkSite {
  serves : list (string * list string);
  parses : list (string * Soup);
  next_listing : list (string * string);
  unreachable : list string;
  responses : list (string * (Z * string));
  unwritable : list string;
  draws : Q;
  }.

Record Browser : Type := MkBrowser {
  shown : string;
  pending : list string;
  }.

Definition blank : Soup :=
  MkSoup None None None None None None None [] None None [].

Definition mem (x : string) (l : list string) : bool :=
  existsb (String.eqb x) l.

Definition get (site : Site) (url : string) (b : Browser) : outcome unit * Browser :=
  if mem url (unreachable site) then (Throw WebDriverException, b)
  else match default [] (Dict.get url (serves site)) with
     | [] => (Ret tt, MkBrowser "" [])
     | src :: rest => (Ret tt, MkBrowser src rest)
     end.

Definition refresh (b : Browser) : outcome unit * Browser :=
  match pending b with
  | [] => (Ret tt, b)
  | src :: rest => (Ret tt, MkBrowser src rest)
  end.

Definition soup_of (site : Site) (src : string) : Soup :=
  default blank (Dict.get src (parses site)).

Definition wait_title (site : Site) (b : Browser) : outcome unit * Browser :=
  match sel_productTitle (soup_of site (shown b)) with
  | Some _ => (Ret tt, b)
  | None => (Throw WebDriverException, b)
  end.

Definition click_next (site : Site) (b : Browser) : outcome unit * Browser :=
  match Dict.get (shown b) (next_listing site) with
  | Some src => (Ret tt, MkBrowser src [])
  | None => (Throw WebDriverException, b)
  end.

Definition request (site : Site) (url : string) (b : Browser)
  : outcome (Z * string) * Browser :=
  match Dict.get url (responses site) with
  | Some r => (Ret r, b)
  | None => (Throw RequestException, b)
  end.

Definition open (site : Site) (path : string) (b : Browser) : outcome unit * Browser :=
  if mem path (unwritable site) then (Throw OSError, b) else (Ret tt, b).

(** [urljoin] of the scripted world: the reference is an absolute path
    without dot segments, which is appended to the base. *)
Definition world (site : Site) : World Browser :=
  {| urljoin := fun base ref => base +:+ ref;
   BeautifulSoup := soup_of site;
   json_first_key := fun _ => None;
   new_driver := fun b => (Ret tt, b);
   driver_get := get site;
   driver_refresh := refresh;
   driver_page_source := fun b => (Ret (shown b), b);
   driver_clear_storage := fun b => (Ret tt, b);
   driver_delete_all_cookies := fun b => (Ret tt, b);
   driver_scroll := fun b => (Ret tt, b);
   driver_wait_title := wait_title site;
   driver_click_next := click_next site;
   driver_quit := fun b => (Ret tt, b);
   click_continue_shopping_if_present := fun b => (false, b);
   expand_details := fun b => b;
   requests_get := request site;
   open_file := open site;
   random_random := fun b => (draws site, b);
   system_sleep := fun _ b => (Ret tt, b) |}.


Definition no_files : Files := MkFiles ∅ ∅ ∅.

Definition start (fs : Files) : State Browser :=
  MkState (MkBrowser "" []) fs [] ∅ 0 1.

Definition config (max : Z) (delay : list Q) (categories : list (string * string))
  : Config :=
  MkConfig "bronze" "bronze/images" "bronze/about_item" max delay
         "https://www.amazon.com/s?rh=n%3A" categories.

End Sim.

(* ===================================================================== *)
(** ** Properties of computations *)
(* ===================================================================== *)

Section Properties.

Context {W : Type}.

(** [m] takes every state to a state related to it by [R], whatever its
    result. *)
Definition respects {A} (R : relation (State W)) (m : M W A) : Prop :=
  ∀ st, R st (m st).2.

(** [m] does not reach the loop bound. *)
Definition finishes {A} (m : M W A) : Prop :=
  ∀ st, (m st).1 ≠ OutOfFuel.

(** Relations that look neither at the world nor at the trace. *)
Class Blind (R : relation (State W)) : Prop := {
  blind_world : ∀ st w, R st (set_world w st);
  blind_log : ∀ st ev, R st (log ev st);
  }.

(** Nothing was written and the local variables of the crawl are as they
    were. *)
Definition same_store (st st' : State W) : Prop :=
  files st' = files st
  ∧ scraped_ids st' = scraped_ids st
  ∧ total_scraped st' = total_scraped st.

(** As [same_store], for the CSV files only. *)
Definition same_index (st st' : State W) : Prop :=
  csv_files (files st') = csv_files (files st)
  ∧ scraped_ids st' = scraped_ids st
  ∧ total_scraped st' = total_scraped st.

(** The file [csv] of [st'] is that of [st] with the row of [data]
    appended (after the header if the file did not exist). *)
Definition row_appended (csv : string) (data : list (string * option string))
  (st st' : State W) : Prop :=
  csv_files (files st')
  = <[csv := csv_append (csv_files (files st) !! csv) data]> (csv_files (files st)).

End Properties.

Section Specifications.

Context {W : Type} `{World W} (cfg : Config).

(** What [extract_and_save] does to the index: either it raises and
    leaves the CSV files, the set of identifiers and the counter as they
    were, or it appends the row of the record it built, adds the
    identifier and counts the item. *)
Definition saved_or_raised (csv pid url : string) (st : State W)
  (r : result unit * State W) : Prop :=
  (∃ e, r.1 = Done (Throw e) ∧ same_index st r.2)
  ∨ (∃ src data st1,
     build_data pid url (BeautifulSoup src) = Ret data
     ∧ same_index st st1 ∧ row_appended csv data st1 r.2
     ∧ scraped_ids r.2 = {[ pid ]} ∪ scraped_ids st
     ∧ total_scraped r.2 = total_scraped st + 1
     ∧ r.1 ≠ OutOfFuel).

(** The file after the records [ds] were appended one by one. *)
Definition appended (file0 : option (list (list string)))
  (ds : list (list (string * option string))) : option (list (list string)) :=
  foldl (fun f d => Some (csv_append f d)) file0 ds.

(** Between [st] and [st'] the crawl saved the items of a history [hist],
    a list of identifiers with their records: their rows were appended to
    [csv] in that order, their identifiers, which are distinct and were
    not in the set, were added to it, and each was counted. *)
Definition crawled (csv : string) (st st' : State W) : Prop :=
  ∃ hist : list (string * list (string * option string)),
  csv_files (files st') !! csv = appended (csv_files (files st) !! csv) hist.*2
  ∧ scraped_ids st' = list_to_set hist.*1 ∪ scraped_ids st
  ∧ total_scraped st' = total_scraped st + Z.of_nat (length hist)
  ∧ NoDup hist.*1
  ∧ (∀ pid, pid ∈ hist.*1 → pid ∉ scraped_ids st)
  ∧ Forall (fun h => ∃ url src,
               build_data h.1 url (BeautifulSoup src) = Ret h.2) hist.

(** The identifiers [scrape_category] starts from (lines 319-323). *)
Definition seed (file0 : option (list (list string))) : outcome (gset string) :=
  match file0 with
  | None => Ret ∅
  | Some rows => id_column (DictReader rows)
  end.

End Specifications.

(** Counters on the trace: the calls that clear the storage of the browser,
    the refreshes, and the refreshes made since the storage was last
    cleared (all of them if it never was). *)
Definition clear_step (n : nat) (ev : event) : nat :=
  match ev with
  | EvClearStorage => S n
  | _ => n
  end.

Definition refresh_step (n : nat) (ev : event) : nat :=
  match ev with
  | EvRefresh => S n
  | _ => n
  end.

Definition since_clear_step (n : nat) (ev : event) : nat :=
  match ev with
  | EvClearStorage => O
  | EvRefresh => S n
  | _ => n
  end.

Definition clears (tr : list event) : nat := foldl clear_step O tr.
Definition refreshes (tr : list event) : nat := foldl refresh_step O tr.
Definition refreshes_since_clear (tr : list event) : nat := foldl since_clear_step O tr.

Section MoreProperties.

Context {W : Type}.

(** Nothing was written. *)
Definition same_files (st st' : State W) : Prop := files st' = files st.


End MoreProperties.

(* ===================================================================== *)
(** ** Scripted sites used in the examples *)
(* ===================================================================== *)

Module Demo.

Definition listing_url : string := "https://www.amazon.com/s?rh=n%3A42".
Definition url_a : string := "https://www.amazon.com/a/dp/B01".
Definition url_b : string := "https://www.amazon.com/b/dp/B02".
Definition pid_a : string := "80167f1737df909421594ba5d625bbb2".
Definition csv_jeans : string := "bronze/jeans_bronze.csv".

(** A product page with a title and a rating and nothing else. *)
Definition product (title : string) : Soup :=
  MkSoup (Some title) None None None (Some "4.5 out of 5 stars") None None
       [] None None [].

(** A listing with the given anchors. *)
Definition listing (hrefs : list string) : Soup :=
  MkSoup None None None None None None None [] None None (Some <$> hrefs).

Definition cfg (max : Z) : Config :=
  Sim.config max [1%Q; 2%Q] [("jeans", "42")].

(** One listing with the products A and B, both healthy. *)
Definition site_two : Sim.Site :=
  Sim.MkSite
  [(listing_url, ["L"]); (url_a, ["A"]); (url_b, ["B"])]
  [("L", listing ["/a/dp/B01/ref=sr_1_1"; "/b/dp/B02/ref=sr_1_2"]);
   ("A", product "Jeans A"); ("B", product "Jeans B")]
  [] [] [] [] 0%Q.

(** Product A has a product-facts row labelled "ID". *)
Definition product_with_id_fact : Soup :=
  MkSoup (Some "Jeans A") None None None (Some "4.5 out of 5 stars") None None
       [(Some "ID:", Some "SKU-1")] None None [].

Definition site_id_fact : Sim.Site :=
  Sim.MkSite
  [(listing_url, ["L"]); (url_a, ["A"])]
  [("L", listing ["/a/dp/B01/ref=sr_1_1"]); ("A", product_with_id_fact)]
  [] [] [] [] 0%Q.



(** The page of product A says "We're sorry" on every load, around a
    product title. *)
Definition sorry_src : string := "<span id=productTitle>Jeans A</span> We're sorry".

Definition site_sorry : Sim.Site :=
  Sim.MkSite
  [(listing_url, ["L"]); (url_a, [sorry_src; sorry_src; sorry_src; sorry_src])]
  [("L", listing ["/a/dp/B01/ref=sr_1_1"]); (sorry_src, product "Jeans A")]
  [] [] [] [] 0%Q.

(** The page of product A shows the error image on every load. *)
Definition dog_src : string := "<img src=/error/500_503.png>".

Definition site_blocked : Sim.Site :=
  Sim.MkSite
  [(listing_url, ["L"]); (url_a, [dog_src]); (url_b, ["B"])]
  [("L", listing ["/a/dp/B01/ref=sr_1_1"; "/b/dp/B02/ref=sr_1_2"]);
   ("B", product "Jeans B")]
  [] [] [] [] 0%Q.

(** Product A has an empty rating element; product B is healthy. *)
Definition product_blank_rating : Soup :=
  MkSoup (Some "Jeans A") None None None (Some "") None None [] None None [].

Definition site_blank_rating : Sim.Site :=
  Sim.MkSite
  [(listing_url, ["L"]); (url_a, ["A"]); (url_b, ["B"])]
  [("L", listing ["/a/dp/B01/ref=sr_1_1"; "/b/dp/B02/ref=sr_1_2"]);
   ("A", product_blank_rating); ("B", product "Jeans B")]
  [] [] [] [] 0%Q.






(** Two products whose links begin with "/ref"; the home page of the site
    has no product title. *)
Definition href_refill : string := "/refill-pack/dp/B01/ref=sr_1_1".
Definition href_reflective : string := "/reflective-vest/dp/B02/ref=sr_1_2".

Definition site_ref_in_path : Sim.Site :=
  Sim.MkSite
  [(listing_url, ["L"]); ("https://www.amazon.com", ["H"]);
   ("https://www.amazon.com/refill-pack/dp/B01", ["A"]);
   ("https://www.amazon.com/reflective-vest/dp/B02", ["B"])]
  [("L", listing [href_refill; href_reflective]);
   ("A", product "Refill pack"); ("B", product "Reflective vest")]
  [] [] [] [] 0%Q.

(** A product with two product facts, the first of them labelled "ID". *)
Definition product_two_facts : Soup :=
  MkSoup (Some "Jeans A") None None None (Some "4.5 out of 5 stars") None None
       [(Some "ID:", Some "SKU-1"); (Some "Fit type:", Some "Slim")] None None [].


(** The state of a browser showing the page [src]. *)
Definition showing (src : string) (pending : list string) (fs : Files)
  : State Sim.Browser :=
  MkState (Sim.MkBrowser src pending) fs [] ∅ 0 1.

End Demo.

(** The URLs given to [driver.get], in the order of the calls. *)
Definition loaded_urls (tr : list event) : list string :=
  omap (fun ev => match ev with
                  | EvGet url => Some url
                  | _ => None
                  end) tr.

Definition home_url : string := "https://www.amazon.com".

(** The three counters of a trace together, and what one full recovery
    cycle, the cycle number [attempt], does to them: it refreshes once, and
    the second cycle clears the storage after its refresh. *)
Definition monitor (tr : list event) : nat * nat * nat :=
  (clears tr, refreshes tr, refreshes_since_clear tr).

Definition attempt_effect (m : nat * nat * nat) (attempt : nat) : nat * nat * nat :=
  let '(c, r, s) := m in
  if (attempt =? 2)%nat then (S c, S r, O) else (c, S r, S s).

Definition attempts_effect (first count : nat) (m : nat * nat * nat)
  : nat * nat * nat :=
  foldl attempt_effect m (seq first count).

Section Artifacts.

Context {W : Type} (cfg : Config).

(** Between [st] and [st'] no text file was written but the one named after
    [pid] in the text directory, no image but the one named after [pid] in
    the image directory, and no identifier was added to the set but
    [pid]. *)
Definition keyed_by (pid : string) (st st' : State W) : Prop :=
  (text_files (files st') = text_files (files st)
   ∨ ∃ about,
       text_files (files st')
       = <[Py.path_join (TEXT_DIR cfg) (pid +:+ ".txt") := about]>
           (text_files (files st)))
  ∧ (image_files (files st') = image_files (files st)
     ∨ ∃ content,
         image_files (files st')
         = <[Py.path_join (IMAGES_DIR cfg) (pid +:+ ".jpg") := content]>
             (image_files (files st)))
  ∧ (scraped_ids st' = scraped_ids st
     ∨ scraped_ids st' = {[ pid ]} ∪ scraped_ids st).

End Artifacts.

(** The cells of the id column of a file whose header starts with "id": the
    first cell of each row after the header. *)
Definition id_cells (rows : list (list string)) : list string :=
  match rows with
  | [] => []
  | _ :: body => (fun row => default "" (head row)) <$> body
  end.


(* ===================================================================== *)
(** ** What the further properties are stated with *)
(* ===================================================================== *)

(** The characters of a lower-case hexadecimal numeral. *)
Definition hex_chars : list ascii :=
  String.list_ascii_of_string "0123456789abcdef".

Section Bounds.

Context {W : Type} (cfg : Config).

(** The counter of saved items ends at the cap at most, or where it was if
    that was beyond the cap. *)
Definition capped (st st' : State W) : Prop :=
  total_scraped st' ≤ Z.max (MAX_PER_CATEGORY cfg) (total_scraped st).

(** Between [st] and [st'] no CSV file but [csv] was touched, and no text
    file and no image was removed. *)
Definition nothing_lost (csv : string) (st st' : State W) : Prop :=
  (∀ p, p ≠ csv → csv_files (files st') !! p = csv_files (files st) !! p)
  ∧ (∀ p, is_Some (text_files (files st) !! p) →
          is_Some (text_files (files st') !! p))
  ∧ (∀ p, is_Some (image_files (files st) !! p) →
          is_Some (image_files (files st') !! p)).

End Bounds.

(** The rows of the product facts that have both a label and a value, as
    the key made of the label and the value. *)
Definition fact_rows (soup : Soup) : list (string * string) :=
  omap (fun row =>
          match row with
          | (Some label, Some value) => Some (detail_key label, value)
          | _ => None
          end) (sel_facts soup).

(** The value of the last of the pairs [kvs] whose key is [k]. *)
Definition last_value (k : string) (kvs : list (string * string)) : option string :=
  snd <$> last (filter (fun kv => kv.1 = k) kvs).

Definition is_upper (c : ascii) : bool :=
  let n := nat_of_ascii c in ((65 <=? n) && (n <=? 90))%nat.

(** A character that a key of the product facts can hold: not a space, not
    a hyphen, not an upper-case letter. *)
Definition key_char (c : ascii) : bool :=
  negb (Ascii.eqb c " "%char) && negb (Ascii.eqb c "-"%char) && negb (is_upper c).

Fixpoint map_chars (f : ascii -> ascii) (s : string) : string :=
  match s with
  | EmptyString => EmptyString
  | String c s' => String (f c) (map_chars f s')
  end.

(** What [detail_key] does to one character. *)
Definition key_of_char (c : ascii) : ascii :=
  let c1 := Py.lower_ascii c in
  let c2 := if Ascii.eqb c1 " "%char then "_"%char else c1 in
  if Ascii.eqb c2 "-"%char then "_"%char else c2.

(** The character of a line break. *)
Definition newline_char : ascii := ascii_of_nat 10.

(** [c in s] for one character. *)
Fixpoint has_char (c : ascii) (s : string) : bool :=
  match s with
  | EmptyString => false
  | String x s' => Ascii.eqb x c || has_char c s'
  end.

(** The lines of a text, as a reader of the file gets them back:
    [s.split(sep)] for a separator of one character.  This is not a function
    of the crawler; it is here to say what [extract_about_text] writes. *)
Fixpoint split_on (sep : ascii) (s : string) : list string :=
  match s with
  | EmptyString => [EmptyString]
  | String c s' =>
      if Ascii.eqb c sep then EmptyString :: split_on sep s'
      else match split_on sep s' with
           | w :: ws => String c w :: ws
           | [] => [String c EmptyString]
           end
  end.

Section Returning.

Context {W : Type}.

(** [m] returns a value from every state: it neither raises nor reaches the
    loop bound. *)
Definition returns {A} (m : M W A) : Prop :=
  ∀ st, ∃ a, (m st).1 = Done (Ret a).

End Returning.

Section FellThrough.

Context {W : Type}.


End FellThrough.

(* ===================================================================== *)
(** ** The configuration files *)
(* ===================================================================== *)

Module ConfigFile.

(** A value as [json.load] returns it.  An object is a [dict], with its keys
    in the order of the file; a number that is not an [int] is kept as it
    is written. *)
#[warnings="-register-all"] Inductive json : Type :=
| JNull
| JBool (b : bool)
| JInt (n : Z)
| JFloat (literal : string)
| JString (s : string)
| JArray (items : list json)
| JObject (fields : list (string * json)).

(** What [load_scrape_config] raises: the two exceptions it makes, with
    their messages, and the exceptions of [open] and [json.load], which it
    lets through. *)
Inductive error : Type :=
| FileNotFoundError (message : string)
| ValueError (message : string)
| Raised (e : exn).

Definition required_keys : list string :=
  [ "BASE_DIR"; "IMAGES_DIR"; "TEXT_DIR"; "HEADLESS"; "MAX_PER_CATEGORY";
    "DELAY_RANGE"; "BASE_SEARCH_URL"; "CATEGORIES" ].

(** [k not in cfg] *)
Definition absent (fields : list (string * json)) (k : string) : bool :=
  match Dict.get k fields with
  | None => true
  | Some _ => false
  end.

(** [load_scrape_config(path)], given what the operating system and the
    parser answer: whether the path exists, and what opening the file and
    [json.load] give. *)
Definition load_scrape_config (path : string) (path_exists : bool)
    (loaded : outcome json) : error + json :=
  if negb path_exists then
    inl (FileNotFoundError ("Scrape configuration file not found: " +:+ path))
  else
    match loaded with
    | Throw e => inl (Raised e)
    | Ret (JObject fields) =>
        match filter (fun k => absent fields k = true) required_keys with
        | [] => inr (JObject fields)
        | missing =>
            inl (ValueError ("Scrape configuration is missing required keys: "
                             +:+ join ", " missing))
        end
    | Ret _ =>
        inl (ValueError ("Scrape configuration must be a JSON object (dict) in "
                         +:+ path))
    end.

(** Lines 61-73: the values that the environment overrides.  [getenv] is
    [os.getenv], and [py_int s] is [int(s)], [None] where it raises. *)
Definition env_overrides (getenv : string -> option string)
    (py_int : string -> option Z) (cfg : list (string * json))
  : list (string * json) :=
  let cfg1 :=
    match getenv "HEADLESS" with
    | Some v =>
        Dict.set "HEADLESS"
          (JBool (bool_decide (Py.lower v ∈ ["1"; "true"; "yes"]))) cfg
    | None => cfg
    end in
  let cfg2 :=
    match getenv "MAX_PER_CATEGORY" with
    | Some v =>
        match py_int v with
        | Some n => Dict.set "MAX_PER_CATEGORY" (JInt n) cfg1
        | None => cfg1
        end
    | None => cfg1
    end in
  match getenv "BASE_SEARCH_URL" with
  | Some v => Dict.set "BASE_SEARCH_URL" (JString v) cfg2
  | None => cfg2
  end.

(** The defaults of [load_config] in [utils/logging.py]. *)
Definition logging_defaults : list (string * json) :=
  [ ("log_dir", JString "logs"); ("level", JString "INFO");
    ("console", JBool true); ("filename_prefix", JString "scrape") ].

(** [load_config(path)] of [utils/logging.py]: [loaded] is what opening the
    file and [json.load] give. *)
Definition load_config (path : option string) (loaded : outcome json)
  : list (string * json) :=
  if negb (Py.truthy path) then logging_defaults
  else
    match loaded with
    | Ret (JObject fields) => Dict.update logging_defaults fields
    | _ => logging_defaults
    end.

End ConfigFile.

(* ===================================================================== *)
(** ** The overlay helpers, call by call *)
(* ===================================================================== *)

(** [click_continue_shopping_if_present] and [expand_details] over the calls
    they make on the driver and on the elements it finds.  The state is the
    browser with the list of the elements on which a click returned.  The
    pauses after a click ([time.sleep] of a positive length) and the log
    lines are left out: they do not raise. *)
Module Overlay.

Section WithDriver.

Context {W E : Type}.

Class Driver : Type := MkDriver {
    (* driver.find_elements(By.XPATH, xpath) *)
    find_elements : string -> W -> outcome (list E) * W;
    (* driver.find_element(By.XPATH, xpath) *)
    find_element : string -> W -> outcome E * W;
    (* element.is_displayed() *)
    is_displayed : E -> W -> outcome bool * W;
    (* element.get_attribute("class"): a string or None *)
    get_class : E -> W -> outcome (option string) * W;
    (* element.click() *)
    element_click : E -> W -> outcome unit * W;
    (* driver.execute_script('arguments[0].click();', element) *)
    script_click : E -> W -> outcome unit * W;
  }.

Context `{Driver}.

Record Page : Type := MkPage {
    browser : W;
    clicked : list E;
  }.

Definition Op (A : Type) : Type := Page -> outcome A * Page.

Definition op_ret {A} (a : A) : Op A := fun st => (Ret a, st).
Definition op_throw {A} (e : exn) : Op A := fun st => (Throw e, st).

Definition op_bind {A B} (m : Op A) (k : A -> Op B) : Op B :=
  fun st =>
    match m st with
    | (Ret a, st') => k a st'
    | (Throw e, st') => (Throw e, st')
    end.

(** [try: m except Exception: handler] *)
Definition op_try {A} (m : Op A) (handler : Op A) : Op A :=
  fun st =>
    match m st with
    | (Throw _, st') => handler st'
    | r => r
    end.

Definition op_call {A} (op : W -> outcome A * W) : Op A :=
  fun st =>
    let '(r, w) := op (browser st) in (r, MkPage w (clicked st)).

Definition record_click (e : E) : Op unit :=
  fun st => (Ret tt, MkPage (browser st) (clicked st ++ [e])).

(** Lines 131-134: click the element, and through a script when that
    raises. *)
Definition press (e : E) : Op unit :=
  op_bind (op_try (op_call (element_click e)) (op_call (script_click e)))
          (fun _ => record_click e).

(** The loops of lines 128-137 and 145-154: [true] when the function
    returns [True] from inside the loop, [false] when the loop ends. *)
Fixpoint click_first_displayed (els : list E) : Op bool :=
  match els with
  | [] => op_ret false
  | e :: els' =>
      op_bind (op_call (is_displayed e))
        (fun displayed =>
           if displayed then op_bind (press e) (fun _ => op_ret true)
           else click_first_displayed els')
  end.

(** Lines 126-139 and 143-156: one [try] block. *)
Definition try_xpath (xpath : string) : Op bool :=
  op_try (op_bind (op_call (find_elements xpath)) click_first_displayed)
         (op_ret false).

Definition exact_xpath : string :=
  "/html/body/div/div[1]/div[3]/div/div/form/div/div/span/span/button".

Definition tolerant_xp : string :=
  "//button[contains(@class,'a-button-text') and (contains(translate(normalize-space(.),'ABCDEFGHIJKLMNOPQRSTUVWXYZ','abcdefghijklmnopqrstuvwxyz'),'continue shopping') or contains(translate(@alt,'ABCDEFGHIJKLMNOPQRSTUVWXYZ','abcdefghijklmnopqrstuvwxyz'),'continue shopping'))]".

(** An element that [find_elements] returned for [xpath] and that
    [is_displayed] reported as displayed, in some states of the browser. *)
Definition found_displayed (xpath : string) (e : E) : Prop :=
  ∃ w0 els w1 w w',
    find_elements xpath w0 = (Ret els, w1)
    ∧ e ∈ els
    ∧ is_displayed e w = (Ret true, w').

(** [click_continue_shopping_if_present(driver)] *)
Definition click_continue_shopping_if_present : Op bool :=
  op_try
    (op_bind (try_xpath exact_xpath)
       (fun done_ => if done_ then op_ret true else try_xpath tolerant_xp))
    (op_ret false).

Definition details_xpath : string :=
  "//a[contains(@class,'a-expander-header')]//h3[contains(text(),'Product details')]//parent::a".

(** [expand_details(driver)]; the test [in] on an attribute that is [None]
    is a [TypeError]. *)
Definition expand_details : Op unit :=
  op_try
    (op_bind (op_call (find_element details_xpath))
       (fun btn =>
          op_bind (op_call (get_class btn))
            (fun class =>
               match class with
               | None => op_throw TypeError
               | Some c =>
                   if Py.contains "a-expander-collapsed" c
                   then op_bind (op_call (script_click btn))
                          (fun _ => record_click btn)
                   else op_ret tt
               end)))
    (op_ret tt).

End WithDriver.

End Overlay.

(** The columns every record starts with (lines 374-382). *)
Definition base_columns : list string :=
  ["id"; "url"; "title"; "price"; "rating"; "brand"; "color"].

(** None of the phrases that [extract_brand] removes occurs in [t]. *)
Definition phrase_free (t : string) : Prop :=
  Py.contains "Visit the" t = false
  ∧ Py.contains "Store" t = false
  ∧ Py.contains "Brand:" t = false.

Section Pages.

Context {W : Type}.

(** The page counter is where it was. *)
Definition same_page (st st' : State W) : Prop := page st' = page st.

End Pages.

(** A listing without a product link whose "Next" leads to itself. *)
Definition site_endless : Sim.Site :=
  Sim.MkSite
    [(Demo.listing_url, ["L"])]
    [("L", Demo.listing ["/gp/help/customer"])]
    [("L", "L")] [] [] [] 0%Q.

(** The files of a run that left the file of another category, and a file
    of the category "jeans" with one row. *)
Definition files_two_categories : Files :=
  MkFiles
    {[ "bronze/shirts_bronze.csv" := [["id"; "url"]; ["1"; "https://www.amazon.com/s/dp/B09"]];
       "bronze/jeans_bronze.csv" := [["id"; "url"]; ["2"; "https://www.amazon.com/j/dp/B08"]] ]}
    ∅ ∅.

(** A file of the category "jeans" that another program wrote: it has no
    column of identifiers. *)
Definition files_foreign : Files :=
  MkFiles {[ "bronze/jeans_bronze.csv" := [["sku"; "title"]; ["1"; "Jeans"]] ]} ∅ ∅.

Section WholeRun.

Context {W : Type} (cfg : Config).

(** The CSV files of the configured categories. *)
Definition category_files : list string :=
  (fun c => csv_path cfg c.1) <$> CATEGORIES cfg.

(** As [nothing_lost], for the CSV files [paths]. *)
Definition nothing_lost_but (paths : list string) (st st' : State W) : Prop :=
  (∀ p, p ∉ paths → csv_files (files st') !! p = csv_files (files st) !! p)
  ∧ (∀ p, is_Some (text_files (files st) !! p) →
          is_Some (text_files (files st') !! p))
  ∧ (∀ p, is_Some (image_files (files st) !! p) →
          is_Some (image_files (files st') !! p)).

End WholeRun.

(** The home page, which the recovery routine loads when a refresh
    raises (line 190). *)
Section Fetches.

Context {W : Type}.

(** A call of [driver.get] is on a URL that satisfies [allowed]. *)
Definition fetch_ok (allowed : string -> Prop) (ev : event) : Prop :=
  match ev with
  | EvGet url => allowed url
  | _ => True
  end.

(** From a state whose set holds the identifiers [known], the crawl went
    to a state whose set holds them, and every URL it loaded on the way
    satisfies [allowed]. *)
Definition fetches (known : gset string) (allowed : string -> Prop)
    (st st' : State W) : Prop :=
  known ⊆ scraped_ids st →
  known ⊆ scraped_ids st'
  ∧ ∃ evs, trace st' = trace st ++ evs ∧ Forall (fetch_ok allowed) evs.

(** What the crawl of a category may load before its loop: the search page
    and the home page. *)
Definition before_loop (search url : string) : Prop :=
  url = search ∨ url = home_url.

(** What the loop may load: the home page, and the pages of products whose
    identifiers were not in the file. *)
Definition in_loop (ids0 : gset string) (url : string) : Prop :=
  url = home_url ∨ generate_id url ∉ ids0.

(** Two relations at once. *)
Definition both (R1 R2 : relation (State W)) : relation (State W) :=
  fun st st' => R1 st st' ∧ R2 st st'.

End Fetches.

(** The file of the category "jeans" after product A was saved. *)
Definition files_known_a : Files :=
  MkFiles {[ "bronze/jeans_bronze.csv" := [["id"; "url"]; [Demo.pid_a; Demo.url_a]] ]} ∅ ∅.

(* ===================================================================== *)
(** * Theorems *)
(* ===================================================================== *)

(** ** [generate_id] against known digests *)

Example md5_empty : generate_id "" = "d41d8cd98f00b204e9800998ecf8427e".
Proof. vm_compute. reflexivity. Qed.

Example md5_abc : generate_id "abc" = "900150983cd24fb0d6963f7d28e17f72".
Proof. vm_compute. reflexivity. Qed.

Example md5_two_blocks :
  generate_id "xxxxxxxxxxxxxxxxxxxxxxxxxxxxxxxxxxxxxxxxxxxxxxxxxxxxxxxxxxxxxxxxxxxxxx"
  = "7d56c0f83fd1e320d60ea2f13dfdeedd".
Proof. vm_compute. reflexivity. Qed.

Example md5_product_url :
  generate_id "https://www.amazon.com/a/dp/B01" = "80167f1737df909421594ba5d625bbb2".
Proof. vm_compute. reflexivity. Qed.


(* ===================================================================== *)
(** ** Rules for the monad *)
(* ===================================================================== *)

Section Rules.

Context {W : Type}.

Lemma bind_ret {A B} (a : A) (k : A → M W B) st : bind (ret a) k st = k a st.
Proof. done. Qed.

Lemma bind_gets {A B} (f : State W → A) (k : A → M W B) st :
  bind (gets f) k st = k (f st) st.
Proof. done. Qed.

Lemma bind_modify {B} f (k : unit → M W B) st :
  bind (modify f) k st = k tt (f st).
Proof. done. Qed.

Lemma bind_lift_ret {A B} (a : A) (k : A → M W B) st :
  bind (lift (Ret a)) k st = k a st.
Proof. done. Qed.

Lemma bind_lift_throw {A B} e (k : A → M W B) st :
  bind (lift (Throw e)) k st = (Done (Throw e), st).
Proof. done. Qed.

(** [m ;; k] by cases on the result of [m]. *)
Lemma bind_elim {A B} (m : M W A) (k : A → M W B)
  (Q : result B * State W → Prop) st :
  (∀ a st1, m st = (Done (Ret a), st1) → Q (k a st1)) →
  (∀ e st1, m st = (Done (Throw e), st1) → Q (Done (Throw e), st1)) →
  (∀ st1, m st = (OutOfFuel, st1) → Q (OutOfFuel, st1)) →
  Q (bind m k st).
Proof.
  intros Hk Hthrow Hfuel. unfold bind.
  destruct (m st) as [[[a|e]|] st1]; auto.
Qed.

(** The state after [m ;; ret x] is the state after [m]. *)
Lemma bind_const_state {A B} (m : M W A) (b : B) st :
  (bind m (fun _ => ret b) st).2 = (m st).2.
Proof. unfold bind. by destruct (m st) as [[[a|e]|] st1]. Qed.

(** The rule for [m ;; k] under a postcondition [Q], when [m] respects a
    relation [R] that the initial state [st0] bears to the current one. *)
Lemma bind_post {A B} (R : relation (State W)) `{!PreOrder R}
  (m : M W A) (k : A → M W B) (Q : result B * State W → Prop) st0 st :
  respects R m → finishes m → R st0 st →
  (∀ e st1, R st0 st1 → Q (Done (Throw e), st1)) →
  (∀ a st1, R st0 st1 → Q (k a st1)) →
  Q (bind m k st).
Proof.
  intros Hm Hf H0 Hthrow Hk. specialize (Hm st). specialize (Hf st).
  apply (bind_elim m k Q st);
    [intros a st1 E | intros e st1 E | intros st1 E];
    rewrite E in Hm, Hf; simpl in *.
  - apply Hk. by etrans.
  - apply Hthrow. by etrans.
  - done.
Qed.

(** *** Computations that respect a preorder *)

Section Respects.

Context (R : relation (State W)) `{!PreOrder R}.

Lemma respects_ret {A} (a : A) : respects R (ret a).
Proof. intros st. reflexivity. Qed.

Lemma respects_throw {A} e : respects R (@throw W A e).
Proof. intros st. reflexivity. Qed.

Lemma respects_lift {A} (o : outcome A) : respects R (lift o).
Proof. intros st. reflexivity. Qed.

Lemma respects_gets {A} (f : State W → A) : respects R (gets f).
Proof. intros st. reflexivity. Qed.

Lemma respects_out_of_fuel {A} : respects R (@out_of_fuel W A).
Proof. intros st. reflexivity. Qed.

Lemma respects_modify f : (∀ st, R st (f st)) → respects R (modify f).
Proof. intros Hf st. apply Hf. Qed.

Lemma respects_bind {A B} (m : M W A) (k : A → M W B) :
  respects R m → (∀ a, respects R (k a)) → respects R (bind m k).
Proof.
  intros Hm Hk st. unfold bind. specialize (Hm st).
  destruct (m st) as [[[a|e]|] st']; simpl in *; try done.
  etrans; [exact Hm | apply Hk].
Qed.

Lemma respects_try_except {A} (m : M W A) h :
  respects R m → (∀ e, respects R (h e)) → respects R (try_except m h).
Proof.
  intros Hm Hh st. unfold try_except. specialize (Hm st).
  destruct (m st) as [[[a|e]|] st']; simpl in *; try done.
  etrans; [exact Hm | apply Hh].
Qed.

Lemma respects_for_in {A B} (l : list A) (body : A → M W (ctl B)) :
  (∀ x, respects R (body x)) → respects R (for_in l body).
Proof.
  intros Hb. induction l as [|x l IH]; simpl.
  - apply respects_ret.
  - apply respects_bind; [apply Hb|]. intros [| |r]; auto using respects_ret.
Qed.

Lemma respects_while fuel (cond : M W bool) body :
  respects R cond → respects R body → respects R (while_ fuel cond body).
Proof.
  intros Hc Hb. induction fuel as [|fuel IH]; simpl.
  - apply respects_out_of_fuel.
  - apply respects_bind; [done|]. intros [|]; [|apply respects_ret].
    apply respects_bind; [done|]. intros [| |r]; auto using respects_ret.
Qed.

Context `{!Blind R}.

Lemma respects_call {A} ev (op : W → outcome A * W) : respects R (call ev op).
Proof.
  intros st. unfold call. destruct (op (world st)) as [r w]. simpl.
  etrans; [apply blind_log | apply blind_world].
Qed.

Lemma respects_call_total {A} ev (op : W → A * W) :
  respects R (call_total ev op).
Proof.
  intros st. unfold call_total. destruct (op (world st)) as [r w]. simpl.
  etrans; [apply blind_log | apply blind_world].
Qed.

End Respects.

Lemma respects_weaken {A} (R R' : relation (State W)) (m : M W A) :
  (∀ st st', R st st' → R' st st') → respects R m → respects R' m.
Proof. intros HRR Hm st. apply HRR, Hm. Qed.

(** *** Computations that do not reach the loop bound *)

Lemma finishes_ret {A} (a : A) : finishes (@ret W A a).
Proof. done. Qed.

Lemma finishes_throw {A} e : finishes (@throw W A e).
Proof. done. Qed.

Lemma finishes_lift {A} (o : outcome A) : finishes (@lift W A o).
Proof. done. Qed.

Lemma finishes_gets {A} (f : State W → A) : finishes (gets f).
Proof. done. Qed.

Lemma finishes_modify f : finishes (@modify W f).
Proof. done. Qed.

Lemma finishes_call {A} ev (op : W → outcome A * W) : finishes (call ev op).
Proof. intros st. unfold call. by destruct (op (world st)). Qed.

Lemma finishes_call_total {A} ev (op : W → A * W) : finishes (call_total ev op).
Proof. intros st. unfold call_total. by destruct (op (world st)). Qed.

Lemma finishes_bind {A B} (m : M W A) (k : A → M W B) :
  finishes m → (∀ a, finishes (k a)) → finishes (bind m k).
Proof.
  intros Hm Hk st. unfold bind. specialize (Hm st).
  destruct (m st) as [[[a|e]|] st']; simpl in *; try done. apply Hk.
Qed.

Lemma finishes_try_except {A} (m : M W A) h :
  finishes m → (∀ e, finishes (h e)) → finishes (try_except m h).
Proof.
  intros Hm Hh st. unfold try_except. specialize (Hm st).
  destruct (m st) as [[[a|e]|] st']; simpl in *; try done. apply Hh.
Qed.

Lemma finishes_for_in {A B} (l : list A) (body : A → M W (ctl B)) :
  (∀ x, finishes (body x)) → finishes (for_in l body).
Proof.
  intros Hb. induction l as [|x l IH]; simpl; [done|].
  apply finishes_bind; [apply Hb|]. intros [| |r]; done.
Qed.

(** *** The relations on the store *)

#[export] Instance same_store_preorder : PreOrder (@same_store W).
Proof.
  split; [done|]. intros x y z (?&?&?) (?&?&?).
  unfold same_store. split_and!; congruence.
Qed.

#[export] Instance same_store_blind : Blind (@same_store W).
Proof. split; done. Qed.

#[export] Instance same_index_preorder : PreOrder (@same_index W).
Proof.
  split; [done|]. intros x y z (?&?&?) (?&?&?).
  unfold same_index. split_and!; congruence.
Qed.

#[export] Instance same_index_blind : Blind (@same_index W).
Proof. split; done. Qed.

Lemma same_store_index (st st' : State W) : same_store st st' → same_index st st'.
Proof. intros (Hf&?&?). unfold same_index. by rewrite Hf. Qed.

End Rules.

Create HintDb respects discriminated.
#[export] Hint Resolve respects_ret respects_throw respects_lift respects_gets
  respects_out_of_fuel respects_call respects_call_total : respects.

Create HintDb finishes discriminated.
#[export] Hint Resolve finishes_ret finishes_throw finishes_lift finishes_gets
  finishes_modify finishes_call finishes_call_total : finishes.

(** One step of a proof that a computation respects a relation, by the shape
    of the computation. *)
Ltac respects_step :=
  lazymatch goal with
  | |- PreOrder _ => apply _
  | |- Blind _ => apply _
  | |- respects _ (bind _ _) => apply respects_bind; [apply _ | | intros ?]
  | |- respects _ (try_except _ _) => apply respects_try_except; [apply _ | | intros ?]
  | |- respects _ (for_in _ _) => apply respects_for_in; [apply _ | intros ?]
  | |- respects _ (while_ _ _ _) => apply respects_while; [apply _ | | ]
  | |- respects _ (modify _) => apply respects_modify; intros ?
  | |- respects _ (if ?b then _ else _) => destruct b
  | |- respects _ (match ?x with _ => _ end) => destruct x
  | |- _ => solve [eauto with respects typeclass_instances]
  end.

(** The same for [finishes]. *)
Ltac finishes_step :=
  lazymatch goal with
  | |- finishes (bind _ _) => apply finishes_bind; [|intros ?]
  | |- finishes (try_except _ _) => apply finishes_try_except; [|intros ?]
  | |- finishes (for_in _ _) => apply finishes_for_in; intros ?
  | |- finishes (if ?b then _ else _) => destruct b
  | |- finishes (match ?x with _ => _ end) => destruct x
  | |- _ => solve [eauto with finishes]
  end.

(* ===================================================================== *)
(** ** The helpers of the crawler neither write nor loop *)
(* ===================================================================== *)

Section Helpers.

Context {W : Type} `{World W} (cfg : Config).

Section AnyRelation.

Context (R : relation (State W)) `{!PreOrder R} `{!Blind R}.

Lemma respects_random_random : respects R random_random_.
Proof.
  intros st. unfold random_random_. destruct (random_random (world st)).
  simpl. apply blind_world.
Qed.

Lemma respects_time_sleep secs : respects R (time_sleep secs).
Proof.
  unfold time_sleep.
  destruct (negb (fits_nanoseconds secs)); [by apply respects_throw|].
  destruct (Qle_bool 0 secs).
  - by apply respects_call.
  - by apply respects_throw.
Qed.

Lemma respects_random_delay : respects R (random_delay cfg).
Proof.
  unfold random_delay.
  repeat first [ apply respects_random_random | apply respects_time_sleep
         | respects_step ].
Qed.

Lemma respects_handle_sorry_page url n : respects R (handle_sorry_page url n).
Proof.
  unfold handle_sorry_page, recovery_attempt, refresh_page, clear_session,
    page_source_lower.
  repeat respects_step.
Qed.

End AnyRelation.

Lemma respects_save_about_text pid about :
  respects same_index (save_about_text cfg pid about).
Proof. unfold save_about_text. repeat respects_step. done. Qed.

Lemma respects_save_image pid url :
  respects same_index (save_image cfg pid url).
Proof. unfold save_image, download_image. repeat respects_step. done. Qed.

Lemma finishes_random_delay : finishes (random_delay cfg).
Proof.
  unfold random_delay, time_sleep. repeat finishes_step.
  intros st. unfold random_random_. by destruct (random_random (world st)).
Qed.

Lemma finishes_handle_sorry_page url n : finishes (handle_sorry_page url n).
Proof.
  unfold handle_sorry_page, recovery_attempt, refresh_page, clear_session,
    page_source_lower.
  repeat finishes_step.
Qed.

Lemma finishes_save_about_text pid about : finishes (save_about_text cfg pid about).
Proof. unfold save_about_text. repeat finishes_step. Qed.

Lemma finishes_save_image pid url : finishes (save_image cfg pid url).
Proof. unfold save_image, download_image. repeat finishes_step. Qed.

Lemma finishes_extract_and_save csv pid url :
  finishes (extract_and_save cfg csv pid url).
Proof.
  unfold extract_and_save, append_to_csv.
  repeat first [ apply finishes_random_delay | apply finishes_save_about_text
             | apply finishes_save_image | finishes_step ].
Qed.

Lemma finishes_visit_product csv pid url : finishes (visit_product cfg csv pid url).
Proof.
  unfold visit_product, wait_and_extract.
  repeat first [ apply finishes_random_delay | apply finishes_handle_sorry_page
             | apply finishes_extract_and_save | finishes_step ].
Qed.

Lemma finishes_scrape_item csv item : finishes (scrape_item cfg csv item).
Proof.
  unfold scrape_item.
  repeat first [ apply finishes_visit_product | finishes_step ].
Qed.

(** *** The writer block and the item pipeline *)

Lemma append_to_csv_cases csv data st :
  match append_to_csv csv data st with
  | (Done (Ret _), st') =>
    row_appended csv data st st'
    ∧ text_files (files st') = text_files (files st)
    ∧ image_files (files st') = image_files (files st)
    ∧ scraped_ids st' = scraped_ids st
    ∧ total_scraped st' = total_scraped st
  | (Done (Throw _), st') => same_store st st'
  | (OutOfFuel, _) => False
  end.
Proof.
  unfold append_to_csv, bind, gets, call, modify. simpl.
  destruct (open_file csv (world st)) as [[[]|e] w]; simpl; done.
Qed.

Lemma extract_and_save_cases csv pid url st :
  saved_or_raised csv pid url st (extract_and_save cfg csv pid url st).
Proof.
  unfold extract_and_save. rewrite bind_modify.
  set (Q := saved_or_raised csv pid url st).
  assert (Hthrow : ∀ e st1, same_index st st1 → Q (Done (Throw e), st1))
    by (intros e st1 ?; left; eauto).
  apply (bind_post same_index _ _ Q st);
    [eauto with respects typeclass_instances | eauto with finishes
    | done | done |].
  intros src st1 H1.
  destruct (build_data pid url (BeautifulSoup src)) as [data|e] eqn:Hdata;
    [rewrite bind_lift_ret | rewrite bind_lift_throw; auto].
  apply (bind_post same_index _ _ Q st);
    auto using respects_save_about_text, finishes_save_about_text.
  intros _ st2 H2.
  apply (bind_post same_index _ _ Q st);
    auto using respects_save_image, finishes_save_image.
  intros _ st3 H3.
  pose proof (append_to_csv_cases csv data st3) as Happ.
  apply (bind_elim _ _ Q);
    [intros [] st4 E | intros e st4 E | intros st4 E];
    rewrite E in Happ; [| |done].
  - destruct Happ as (Hrow & _ & _ & Hids & Htot).
    rewrite !bind_modify.
    match goal with |- Q (random_delay cfg ?s) => set (st5 := s) end.
    pose proof (respects_random_delay same_store st5) as (Hf & Hi & Ht).
    pose proof (finishes_random_delay st5) as Hfin.
    right. exists src, data, st3. split_and!; try done.
    + unfold row_appended. rewrite Hf. exact Hrow.
    + rewrite Hi. simpl. rewrite Hids. by destruct H3 as (_&->&_).
    + rewrite Ht. simpl. rewrite Htot. by destruct H3 as (_&_&->).
  - apply Hthrow. etrans; [exact H3|]. by apply same_store_index.
Qed.

End Helpers.

(* ===================================================================== *)
(** ** The history of a crawl *)
(* ===================================================================== *)

Section History.

Context {W : Type} `{World W} (cfg : Config).

Lemma appended_app file0 ds1 ds2 :
  appended file0 (ds1 ++ ds2) = appended (appended file0 ds1) ds2.
Proof. unfold appended. by rewrite foldl_app. Qed.

Lemma same_index_crawled csv (st st' : State W) :
  same_index st st' → crawled csv st st'.
Proof.
  intros (Hf & Hi & Ht). exists []. simpl.
  rewrite Hf, Hi, Ht. split_and!; try done.
  - set_solver.
  - lia.
  - constructor.
  - set_solver.
Qed.

#[export] Instance crawled_preorder csv : PreOrder (crawled (W:=W) csv).
Proof.
  split.
  - intros st. by apply same_index_crawled.
  - intros st1 st2 st3 (h1 & Hf1 & Hi1 & Ht1 & Hn1 & Hd1 & Hb1)
      (h2 & Hf2 & Hi2 & Ht2 & Hn2 & Hd2 & Hb2).
    exists (h1 ++ h2). rewrite !fmap_app. split_and!.
    + by rewrite appended_app, <- Hf1.
    + rewrite Hi2, Hi1, list_to_set_app_L. set_solver.
    + rewrite Ht2, Ht1, length_app. lia.
    + apply NoDup_app. split_and!; [done | | done].
      intros pid Hin1 Hin2. apply (Hd2 pid Hin2).
      rewrite Hi1. set_solver.
    + intros pid [Hin|Hin]%elem_of_app; [by apply Hd1|].
      intros Hin0. apply (Hd2 pid Hin). rewrite Hi1. set_solver.
    + by apply Forall_app.
Qed.

#[export] Instance crawled_blind csv : Blind (crawled (W:=W) csv).
Proof. split; intros; by apply same_index_crawled. Qed.

(** One saved item is a history of length one. *)
Lemma saved_crawled csv pid url st r :
  pid ∉ scraped_ids st →
  saved_or_raised csv pid url st r → crawled csv st r.2.
Proof.
  intros Hfresh [(e & _ & Hsame)|(src & data & st1 & Hdata & Hsame & Hrow & Hi & Ht & _)].
  - by apply same_index_crawled.
  - exists [(pid, data)]. simpl. split_and!.
    + rewrite Hrow, lookup_insert_eq. by destruct Hsame as (-> & _).
    + rewrite Hi. set_solver.
    + rewrite Ht. lia.
    + apply NoDup_singleton.
    + by intros ? ->%list_elem_of_singleton.
    + repeat constructor. by exists url, src.
Qed.

Lemma visit_product_crawled csv pid url st :
  pid ∉ scraped_ids st →
  crawled csv st (visit_product cfg csv pid url st).2.
Proof.
  intros Hfresh. unfold visit_product.
  set (Q := fun r : result unit * State W => crawled csv st r.2).
  assert (Hsame : ∀ r, same_index st r.2 → Q r)
    by (intros; by apply same_index_crawled).
  assert (Hthrow : ∀ e st1, same_index st st1 → Q (Done (Throw e), st1))
    by (intros; by apply Hsame).
  apply (bind_post same_index _ _ Q st);
    [eauto with respects typeclass_instances | eauto with finishes
    | done | auto |].
  intros _ st1 H1.
  apply (bind_post same_index _ _ Q st);
    [eauto with respects typeclass_instances | eauto with finishes
    | done | auto |].
  intros _ st2 H2.
  apply (bind_post same_index _ _ Q st);
    [apply respects_handle_sorry_page; apply _
    | apply finishes_handle_sorry_page | done | auto |].
  intros ok st3 H3. destruct ok.
  - unfold wait_and_extract.
    apply (bind_post same_index _ _ Q st);
      [repeat respects_step | repeat finishes_step | done | auto |].
    intros found st4 H4. destruct found.
    + unfold Q. etrans; [apply same_index_crawled, H4|].
      apply (saved_crawled csv pid url).
      * destruct H4 as (_ & -> & _). done.
      * apply extract_and_save_cases.
    + apply Hsame. etrans; [exact H4|].
      apply same_store_index, respects_random_delay; apply _.
  - apply Hsame. etrans; [exact H3|].
    apply same_store_index, respects_random_delay; apply _.
Qed.

Lemma respects_scrape_item csv item :
  respects (crawled csv) (scrape_item cfg csv item).
Proof.
  intros st. unfold scrape_item. rewrite bind_gets.
  destruct (MAX_PER_CATEGORY cfg <=? total_scraped st); [reflexivity|].
  destruct (negb (Py.truthy item) || negb (Py.contains "/dp/" (default "" item)));
    [reflexivity|].
  rewrite bind_gets. case_bool_decide as Hin; [reflexivity|].
  rewrite bind_const_state. by apply visit_product_crawled.
Qed.

Lemma respects_scrape_page csv :
  respects (crawled csv) (scrape_page cfg csv).
Proof.
  unfold scrape_page, scroll_randomly.
  repeat first [ apply respects_scrape_item | respects_step ].
  all: by apply same_index_crawled.
Qed.

Lemma respects_crawl_loop fuel csv :
  respects (crawled csv)
  (while_ fuel
     (bind (gets total_scraped) (fun total => ret (total <? MAX_PER_CATEGORY cfg)))
     (scrape_page cfg csv)).
Proof.
  apply respects_while; [apply _ | | apply respects_scrape_page].
  repeat respects_step.
Qed.

End History.

(* ===================================================================== *)
(** ** The crawl of a category *)
(* ===================================================================== *)

Section Category.

Context {W : Type} `{World W} (cfg : Config).

#[export] Instance same_files_preorder : PreOrder (@same_files W).
Proof. split; [done|]. intros x y z Hxy Hyz. unfold same_files in *. congruence. Qed.

#[export] Instance same_files_blind : Blind (@same_files W).
Proof. split; done. Qed.

(** The identifiers loaded are those of the [id] column of the file, and
    loading writes nothing. *)
Lemma load_scraped_ids_cases csv st :
  same_files st (load_scraped_ids csv st).2
  ∧ (load_scraped_ids csv st).1 ≠ OutOfFuel
  ∧ ∀ ids, (load_scraped_ids csv st).1 = Done (Ret ids) →
         seed (csv_files (files st) !! csv) = Ret ids.
Proof.
  unfold load_scraped_ids. rewrite bind_gets.
  destruct (csv_files (files st) !! csv) as [rows|] eqn:Hfile; simpl.
  - unfold bind, call, lift.
    destruct (open_file csv (world st)) as [[[]|e] w]; simpl.
    + split_and!; [done..|]. intros ids. congruence.
    + split_and!; [done..|]. intros ids. congruence.
  - split_and!; [done..|]. intros ids. unfold ret. simpl. congruence.
Qed.


End Category.

(* ===================================================================== *)
(** ** C2: the identifier and the row *)
(* ===================================================================== *)

Section IndexAndRow.

Context {W : Type} `{World W} (cfg : Config).



End IndexAndRow.



(* ===================================================================== *)
(** ** C7: when the recovery routine clears the session *)
(* ===================================================================== *)

(** Case analysis on the next call made on the world. *)
Ltac world_case :=
  match goal with
  | |- context [driver_page_source ?w] =>
      destruct (driver_page_source w) as [[?|?] ?]
  | |- context [driver_refresh ?w] =>
      destruct (driver_refresh w) as [[[]|?] ?]
  | |- context [driver_get ?u ?w] =>
      destruct (driver_get u w) as [[[]|?] ?]
  | |- context [driver_clear_storage ?w] =>
      destruct (driver_clear_storage w) as [[[]|?] ?]
  | |- context [driver_delete_all_cookies ?w] =>
      destruct (driver_delete_all_cookies w) as [[[]|?] ?]
  | |- context [click_continue_shopping_if_present ?w] =>
      destruct (click_continue_shopping_if_present w) as [? ?]
  | |- context [is_sorry_page ?s] => destruct (is_sorry_page s)
  | |- context [is_sorry_page_final ?s] => destruct (is_sorry_page_final s)
  | |- context [Py.truthy ?s] => destruct (Py.truthy s)
  end.

Section Escalation.

Local Open Scope nat_scope.

Context {W : Type} `{World W}.

Lemma clears_snoc tr ev : clears (tr ++ [ev]) = clear_step (clears tr) ev.
Proof. unfold clears. by rewrite foldl_app. Qed.

Lemma refreshes_snoc tr ev : refreshes (tr ++ [ev]) = refresh_step (refreshes tr) ev.
Proof. unfold refreshes. by rewrite foldl_app. Qed.

Lemma refreshes_since_clear_snoc tr ev :
  refreshes_since_clear (tr ++ [ev])
  = since_clear_step (refreshes_since_clear tr) ev.
Proof. unfold refreshes_since_clear. by rewrite foldl_app. Qed.

(** One iteration of the loop: it returns or raises having only read the
    page, or it goes through a full cycle. *)
Lemma recovery_attempt_monitor url attempt (st : State W) :
  let r := recovery_attempt url attempt st in
  match r.1 with
  | Done (Ret Next) =>
    monitor (trace r.2) = attempt_effect (monitor (trace st)) attempt
  | Done (Ret Break) | OutOfFuel => False
  | Done (Ret (Return b)) => b = true ∧ monitor (trace r.2) = monitor (trace st)
  | Done (Throw _) => monitor (trace r.2) = monitor (trace st)
  end.
Proof.
  unfold attempt_effect, recovery_attempt, page_source_lower, refresh_page,
    clear_session, try_except, bind, call, call_total, ret.
  destruct (attempt =? 2)%nat; simpl;
    repeat (world_case; simpl);
    unfold monitor;
    rewrite ?clears_snoc, ?refreshes_snoc, ?refreshes_since_clear_snoc; done.
Qed.

(** The loop: some cycles were gone through in full, all of them unless
    the loop was left early, which it is only by [return True]. *)
Lemma attempts_monitor url first count (st : State W) :
  let r := for_in (seq first count) (recovery_attempt url) st in
  r.1 ≠ OutOfFuel
  ∧ (∀ b, r.1 = Done (Ret (Some b)) → b = true)
  ∧ ∃ cycles, cycles ≤ count
    ∧ monitor (trace r.2) = attempts_effect first cycles (monitor (trace st))
    ∧ (r.1 = Done (Ret None) → cycles = count).
Proof.
  revert first st. induction count as [|count IH]; intros first st.
  - simpl. split_and!; [done | done |]. by exists 0.
  - change (seq first (S count)) with (first :: seq (S first) count).
    cbn [for_in]. unfold bind.
    pose proof (recovery_attempt_monitor url first st) as Hatt. simpl in Hatt.
    destruct (recovery_attempt url first st) as [[[[| |b]|e]|] st1];
      simpl in *; try done.
    + destruct (IH (S first) st1) as (Hfin & Htrue & cycles & Hle & Hmon & Hall).
      split_and!; [done | done |]. exists (S cycles). split_and!.
      * lia.
      * rewrite Hmon, Hatt. done.
      * intros Hnone. by rewrite Hall.
    + destruct Hatt as [-> Hmon]. split_and!; [done | naive_solver |].
      exists 0. split_and!; [lia | done | done].
    + split_and!; [done | done |]. exists 0. split_and!; [lia | done | done].
Qed.

Lemma handle_sorry_page_monitor url max_retries (st : State W) :
  let r := handle_sorry_page url max_retries st in
  ∃ cycles, cycles ≤ max_retries
  ∧ monitor (trace r.2) = attempts_effect 1 cycles (monitor (trace st))
  ∧ (r.1 = Done (Ret false) → cycles = max_retries).
Proof.
  simpl. unfold handle_sorry_page, bind.
  destruct (attempts_monitor url 1 max_retries st)
    as (Hfin & Htrue & cycles & Hle & Hmon & Hall).
  destruct (for_in (seq 1 max_retries) (recovery_attempt url) st)
    as [[[[b|]|e]|] st1]; simpl in *; try done.
  - exists cycles. split_and!; [done | done |].
    rewrite (Htrue b eq_refl). done.
  - exists cycles. rewrite (Hall eq_refl) in *. split_and!; [done | | done].
    rewrite <- Hmon.
    unfold page_source_lower, bind, call, ret.
    destruct (driver_page_source (world st1)) as [[src|e] w]; simpl;
      [destruct (is_sorry_page_final (Py.lower src)); simpl|];
      unfold monitor;
      by rewrite ?clears_snoc, ?refreshes_snoc, ?refreshes_since_clear_snoc.
  - by exists cycles.
Qed.

Lemma attempts_effect_from_3 first count c r s :
  3 ≤ first →
  attempts_effect first count (c, r, s) = (c, r + count, s + count).
Proof.
  revert first r s. induction count as [|count IH]; intros first r s Hfirst.
  - unfold attempts_effect. simpl. repeat (f_equal; try lia).
  - change (attempts_effect first (S count) (c, r, s))
      with (attempts_effect (S first) count (attempt_effect (c, r, s) first)).
    unfold attempt_effect.
    destruct (first =? 2)%nat eqn:E; [apply Nat.eqb_eq in E; lia|].
    rewrite IH by lia. repeat (f_equal; try lia).
Qed.

Lemma attempts_effect_from_1 cycles c r s :
  attempts_effect 1 cycles (c, r, s)
  = match cycles with
  | 0 => (c, r, s)
  | 1 => (c, S r, S s)
  | S (S more) => (S c, r + 2 + more, more)
  end.
Proof.
  destruct cycles as [|[|more]]; [done | done |].
  change (attempts_effect 1 (S (S more)) (c, r, s))
    with (attempts_effect 3 more (S c, S (S r), 0)).
  rewrite attempts_effect_from_3 by lia. repeat (f_equal; try lia).
Qed.

End Escalation.

Local Open Scope nat_scope.

(** C7 (amended): the recovery routine clears the storage and the cookies of
    the browser at most once in a call, at the end of its second recovery
    cycle whatever the configured number of cycles: never when that number
    is below two, and when it does, two refreshes came before the clearing.
    The refreshes that follow the clearing are at most the configured number
    less two; when the routine reports failure there are exactly that many:
    one for an item page (three cycles), none for a listing page (two). *)
Theorem C7_session_cleared_after_second_cycle {W : Type} `{World W}
    (url : option string) (max_retries : nat) (st : State W) :
  let r := handle_sorry_page url max_retries st in
  clears (trace r.2) ≤ clears (trace st) + 1
  ∧ (max_retries < 2 → clears (trace r.2) = clears (trace st))
  ∧ (clears (trace r.2) = clears (trace st) + 1 →
       2 ≤ max_retries
       ∧ refreshes (trace r.2)
         = refreshes (trace st) + 2 + refreshes_since_clear (trace r.2)
       ∧ refreshes_since_clear (trace r.2) ≤ max_retries - 2)
  ∧ (r.1 = Done (Ret false) → 2 ≤ max_retries →
       clears (trace r.2) = clears (trace st) + 1
       ∧ refreshes_since_clear (trace r.2) = max_retries - 2).
Proof.
  simpl.
  destruct (handle_sorry_page_monitor url max_retries st)
    as (cycles & Hle & Hmon & Hall). simpl in *.
  unfold monitor in Hmon. rewrite attempts_effect_from_1 in Hmon.
  destruct cycles as [|[|more]]; simplify_eq; split_and!; intros; try lia.
  all: try (specialize (Hall ltac:(done)); lia).
Qed.

(** C7, as stated, fails where the configured number of cycles is two, as
    it is for the listing page: the page shows the error image on every
    load, the routine clears the storage at the end of the second cycle and
    reports failure without any refresh after the clearing. *)
Lemma C7_counterexample :
  let r := @handle_sorry_page _ (Sim.world Demo.site_blocked) None 2
             (Demo.showing Demo.dog_src [] Sim.no_files) in
  r.1 = Done (Ret false)
  ∧ trace r.2
    = [ EvPageSource; EvClickContinue; EvRefresh; EvClickContinue;
        EvPageSource; EvClickContinue; EvRefresh; EvClickContinue;
        EvClearStorage; EvDeleteCookies; EvPageSource ]
  ∧ clears (trace r.2) = 1%nat
  ∧ refreshes_since_clear (trace r.2) = 0%nat.
Proof. vm_compute. split_and!; reflexivity. Qed.

(** The amended statement on an item page that shows the error image on
    every load: three cycles, one refresh after the clearing. *)
Lemma C7_witness :
  let r := @handle_sorry_page _ (Sim.world Demo.site_blocked) (Some Demo.url_a) 3
             (Demo.showing Demo.dog_src [] Sim.no_files) in
  r.1 = Done (Ret false)
  ∧ clears (trace r.2) = 1%nat
  ∧ refreshes_since_clear (trace r.2) = 1%nat.
Proof.
  pose proof (@C7_session_cleared_after_second_cycle _
                (Sim.world Demo.site_blocked) (Some Demo.url_a) 3
                (Demo.showing Demo.dog_src [] Sim.no_files)) as (_ & _ & _ & Hfail).
  split; [vm_compute; reflexivity|].
  apply Hfail; [vm_compute; reflexivity | lia].
Defined.

Local Open Scope Z_scope.

(* ===================================================================== *)
(** ** C9: the pacing delay *)
(* ===================================================================== *)

Section Pacing.

Context {W : Type} `{World W} (cfg : Config).

Lemma uniform_within (a b u : Q) :
  (a <= b)%Q → (0 <= u)%Q → (u < 1)%Q →
  (a <= uniform a b u)%Q ∧ (uniform a b u <= b)%Q.
Proof.
  intros Hab Hu0 Hu1. unfold uniform.
  split; nra.
Qed.

(** A sequence of delays that is not a pair cannot be unpacked. *)
Lemma random_delay_arity st :
  length (DELAY_RANGE cfg) ≠ 2%nat →
  random_delay cfg st = (Done (Throw TypeError), st).
Proof.
  unfold random_delay. destruct (DELAY_RANGE cfg) as [|a [|b [|c l]]]; done.
Qed.

End Pacing.

(** C9 (amended): [random_delay] draws [u] from [random.random()] and hands
    [d = min + (max - min) * u] to [time.sleep]; [d] lies between the two
    ends of the configured interval when [min <= max] and [0 <= u < 1].  It
    has no guard of its own.  A negative [d] raises [ValueError] and a [d]
    of 2^63 nanoseconds or more, or below -2^63, raises [OverflowError],
    without a sleep.  Every other [d], zero included, is passed to the
    system, and [random_delay] returns exactly when that call does; so for
    an interval with [0 <= min <= max] below the bound it returns whenever
    the system takes the length.  (The ends and the duration are rationals
    and the arithmetic is exact here; that the draw is uniform is a property
    of [random.random], which is not modelled.) *)
Theorem C9_random_delay_sleeps_drawn_duration {W : Type} `{World W}
    (cfg : Config) (a b u : Q) (w : W) (st : State W) :
  DELAY_RANGE cfg = [a; b] →
  random_random (world st) = (u, w) →
  let d := uniform a b u in
  let r := random_delay cfg st in
  let slept := system_sleep d w in
  ((d < 0)%Q → (-9223372036854775808 <= d * 1000000000)%Q →
   r = (Done (Throw ValueError), set_world w st))
  ∧ ((9223372036854775808 <= d * 1000000000)%Q
     ∨ (d * 1000000000 < -9223372036854775808)%Q →
     r = (Done (Throw OverflowError), set_world w st))
  ∧ ((0 <= d)%Q → (d * 1000000000 < 9223372036854775808)%Q →
     r = (Done slept.1, set_world slept.2 (log (EvSleep d) (set_world w st))))
  ∧ (r.1 = Done (Ret tt)
     ↔ (0 <= d)%Q ∧ (d * 1000000000 < 9223372036854775808)%Q
       ∧ slept.1 = Ret tt)
  ∧ ((a <= b)%Q → (0 <= u)%Q → (u < 1)%Q → (a <= d)%Q ∧ (d <= b)%Q)
  ∧ ((0 <= a)%Q → (a <= b)%Q → (b * 1000000000 < 9223372036854775808)%Q →
     (0 <= u)%Q → (u < 1)%Q → r.1 = Done slept.1).
Proof.
  intros Hrange Hdraw d r slept.
  assert (Hrun : r = time_sleep d (set_world w st)).
  { unfold r, random_delay, bind, random_random_. by rewrite Hrange, Hdraw. }
  assert (Hnegative : (d < 0)%Q → (-9223372036854775808 <= d * 1000000000)%Q →
                      r = (Done (Throw ValueError), set_world w st)).
  { intros Hneg Hlow. rewrite Hrun. unfold time_sleep, fits_nanoseconds.
    apply Qle_bool_iff in Hlow. rewrite Hlow.
    destruct (Qle_bool 9223372036854775808 (d * 1000000000)) eqn:Hhigh;
      [apply Qle_bool_iff in Hhigh; lra|].
    destruct (Qle_bool 0 d) eqn:Hzero; [apply Qle_bool_iff in Hzero; lra|].
    done. }
  assert (Hoverflow : (9223372036854775808 <= d * 1000000000)%Q
                      ∨ (d * 1000000000 < -9223372036854775808)%Q →
                      r = (Done (Throw OverflowError), set_world w st)).
  { intros Hout. rewrite Hrun. unfold time_sleep, fits_nanoseconds.
    destruct (Qle_bool (-9223372036854775808) (d * 1000000000)) eqn:Hlow;
      [apply Qle_bool_iff in Hlow|done].
    destruct (Qle_bool 9223372036854775808 (d * 1000000000)) eqn:Hhigh; [done|].
    apply not_true_iff_false in Hhigh. rewrite Qle_bool_iff in Hhigh.
    destruct Hout; [done | lra]. }
  assert (Hpassed : (0 <= d)%Q → (d * 1000000000 < 9223372036854775808)%Q →
                    r = (Done slept.1,
                         set_world slept.2 (log (EvSleep d) (set_world w st)))).
  { intros Hzero Hhigh. rewrite Hrun. unfold time_sleep, fits_nanoseconds.
    assert (Hlow : (-9223372036854775808 <= d * 1000000000)%Q) by lra.
    apply Qle_bool_iff in Hlow, Hzero. rewrite Hlow, Hzero.
    destruct (Qle_bool 9223372036854775808 (d * 1000000000)) eqn:Hle;
      [apply Qle_bool_iff in Hle; lra|].
    simpl. unfold call. simpl. fold slept. by destruct slept. }
  split_and!; [done..| |apply uniform_within|].
  - split.
    + intros Hret.
      destruct (Qlt_le_dec d 0) as [Hneg|Hzero].
      * destruct (Qlt_le_dec (d * 1000000000) (-9223372036854775808)) as [?|?].
        -- rewrite Hoverflow in Hret by auto. done.
        -- rewrite Hnegative in Hret by done. done.
      * destruct (Qlt_le_dec (d * 1000000000) 9223372036854775808) as [?|?].
        -- rewrite Hpassed in Hret by done. simpl in Hret.
           split_and!; [done..|]. congruence.
        -- rewrite Hoverflow in Hret by auto. done.
    + intros (Hzero & Hhigh & Hslept). rewrite Hpassed by done. simpl.
      by rewrite Hslept.
  - intros Ha Hab Hb Hu0 Hu1.
    destruct (uniform_within a b u Hab Hu0 Hu1) as [Hlo Hhi]. fold d in Hlo, Hhi.
    rewrite Hpassed; [done | lra | lra].
Qed.

Lemma C9_witness :
  let st := Sim.start Sim.no_files in
  let r := @random_delay _ (Sim.world Demo.site_two) (Demo.cfg 10) st in
  r = (Done (Ret tt), log (EvSleep (uniform 1 2 0)) (set_world (world st) st))
  ∧ (1 <= uniform 1 2 0)%Q ∧ (uniform 1 2 0 <= 2)%Q.
Proof.
  intros st r.
  destruct (@C9_random_delay_sleeps_drawn_duration _ (Sim.world Demo.site_two)
              (Demo.cfg 10) 1 2 0 (world st) st eq_refl eq_refl)
    as (_ & _ & Hpassed & _ & Hwithin & _).
  split; [|apply Hwithin; lra].
  unfold r. rewrite Hpassed; [reflexivity | unfold uniform; lra..].
Defined.

(** C9, as stated, fails: with the interval from -2 to -1 the pace raises
    [ValueError] instead of doing nothing, and with the interval from 1e10 to
    1e10 seconds it raises [OverflowError]. *)
Lemma C9_counterexample :
  (@random_delay _ (Sim.world Demo.site_two)
     (Sim.config 10 [(-2)%Q; (-1)%Q] []) (Sim.start Sim.no_files)).1
  = Done (Throw ValueError)
  ∧ (@random_delay _ (Sim.world Demo.site_two)
       (Sim.config 10 [10000000000%Q; 10000000000%Q] [])
       (Sim.start Sim.no_files)).1
    = Done (Throw OverflowError).
Proof. vm_compute. split; reflexivity. Qed.

(* ===================================================================== *)
(** ** C10: the field extractors *)
(* ===================================================================== *)

(** With the element absent, each of the four extractors returns the
    placeholder, and the price extractor returns [None]. *)
Lemma extractors_on_absent_elements (soup : Soup) :
  (sel_productTitle soup = None → extract_title soup = "N/A")
  ∧ (sel_icon_alt soup = None → extract_rating soup = Ret "N/A")
  ∧ (sel_byline soup = None → extract_brand soup = "N/A")
  ∧ (sel_color soup = None → extract_color soup = "N/A").
Proof.
  unfold extract_title, extract_rating, extract_brand, extract_color.
  split_and!; by intros ->.
Qed.

(** The rating extractor raises exactly on a rating element whose text has
    no word. *)
Lemma extract_rating_raises (soup : Soup) e :
  extract_rating soup = Throw e ↔
  e = IndexError ∧ ∃ t, sel_icon_alt soup = Some t ∧ Py.first_word t = None.
Proof.
  unfold extract_rating. destruct (sel_icon_alt soup) as [t|].
  - destruct (Py.first_word t) as [w|] eqn:Hw; split; try done.
    + intros (_ & t' & [= <-] & Hnone). congruence.
    + intros [= <-]. eauto.
    + intros (-> & _). done.
  - split; [done|]. by intros (_ & t & ? & _).
Qed.

(** C10 (the code at the failing input): on a page whose rating element is
    present with an empty text, [extract_rating] raises [IndexError], and so
    does the construction of the record. *)
Theorem C10_extract_rating_raises_on_empty_text :
  sel_icon_alt Demo.product_blank_rating = Some ""
  ∧ extract_rating Demo.product_blank_rating = Throw IndexError
  ∧ build_data Demo.pid_a Demo.url_a Demo.product_blank_rating = Throw IndexError.
Proof. vm_compute. split_and!; reflexivity. Qed.

(* ===================================================================== *)
(** ** C3: a page that stays blocked *)
(* ===================================================================== *)

Section Unrecovered.

Context {W : Type} `{World W} (cfg : Config).

(** When the recovery routine reports failure, the item is skipped: nothing
    is written, no identifier is added and the item is not counted. *)
Lemma recovery_failure_skips csv pid url (st : State W) :
  (handle_sorry_page (Some url) 3 st).1 = Done (Ret false) →
  same_store st
  (bind (handle_sorry_page (Some url) 3)
        (fun ok : bool => if ok then wait_and_extract cfg csv pid url
                          else random_delay cfg) st).2.
Proof.
  intros Hfalse. unfold bind.
  pose proof (respects_handle_sorry_page same_store (Some url) 3 st) as Hsame.
  destruct (handle_sorry_page (Some url) 3 st) as [[[ok|e]|] st1];
    simpl in *; simplify_eq.
  etrans; [exact Hsame|]. apply respects_random_delay; apply _.
Qed.

End Unrecovered.

(** C3 (the code at the failing input): the page of product A says
    "We're sorry" on every load, which the test of the loop counts as an
    error page; after the three recovery cycles the final test, which does
    not look for that text, lets it through: the routine returns [True],
    and the crawler saves a row, a text file and the identifier for it. *)
Theorem C3_sorry_text_passes_final_check :
  let w := Sim.world Demo.site_sorry in
  let r := @handle_sorry_page _ w (Some Demo.url_a) 3
             (Demo.showing Demo.sorry_src
                [Demo.sorry_src; Demo.sorry_src; Demo.sorry_src] Sim.no_files) in
  let st' := (@scrape_category _ w (Demo.cfg 10) 5 "jeans" "42"
                (Sim.start Sim.no_files)).2 in
  is_sorry_page (Py.lower Demo.sorry_src) = true
  ∧ is_sorry_page_final (Py.lower Demo.sorry_src) = false
  ∧ r.1 = Done (Ret true)
  ∧ Sim.shown (world r.2) = Demo.sorry_src
  ∧ refreshes (trace r.2) = 3%nat
  ∧ csv_files (files st') !! Demo.csv_jeans
    = Some [ ["id"; "url"; "title"; "price"; "rating"; "brand"; "color"];
             [Demo.pid_a; Demo.url_a; "Jeans A"; ""; "4.5"; "N/A"; "N/A"] ]
  ∧ elements (scraped_ids st') = [Demo.pid_a].
Proof. vm_compute. split_and!; reflexivity. Qed.

(* ===================================================================== *)
(** ** C1: a second run over the same pages *)
(* ===================================================================== *)

(** C1 (the code at the failing input): product A has a product-facts row
    labelled "ID", whose value replaces the identifier in the record
    ([data.update]).  The first run writes the row under that value and
    keeps the hash of the URL in its set; the second run loads the value
    from the file, does not find the hash in it, visits the product again
    and appends the same row a second time. *)
Theorem C1_second_run_appends_the_row_again :
  let run := fun fs =>
    (@scrape_category _ (Sim.world Demo.site_id_fact) (Demo.cfg 10) 5
       "jeans" "42" (Sim.start fs)).2 in
  let first := run Sim.no_files in
  let second := run (files first) in
  let header := ["id"; "url"; "title"; "price"; "rating"; "brand"; "color"] in
  let row := ["SKU-1"; Demo.url_a; "Jeans A"; ""; "4.5"; "N/A"; "N/A"] in
  generate_id Demo.url_a = Demo.pid_a
  ∧ csv_files (files first) !! Demo.csv_jeans = Some [header; row]
  ∧ elements (scraped_ids first) = [Demo.pid_a]
  ∧ match seed (csv_files (files first) !! Demo.csv_jeans) with
    | Ret ids => elements ids = ["SKU-1"]
    | Throw _ => False
    end
  ∧ csv_files (files second) !! Demo.csv_jeans = Some [header; row; row].
Proof. vm_compute. split_and!; reflexivity. Qed.

(* ===================================================================== *)
(** ** Computations that return *)
(* ===================================================================== *)

Section ReturningRules.

Context {W : Type}.

Lemma returns_ret {A} (a : A) : returns (@ret W A a).
Proof. intros st. by exists a. Qed.



Lemma returns_call_total {A} ev (op : W → A * W) : returns (call_total ev op).
Proof. intros st. unfold call_total. destruct (op (world st)). by eexists. Qed.

Lemma returns_bind {A B} (m : M W A) (k : A → M W B) :
  returns m → (∀ a, returns (k a)) → returns (bind m k).
Proof.
  intros Hm Hk st. unfold bind. destruct (Hm st) as [a Ha].
  destruct (m st) as [r st1]. simpl in Ha. subst r. apply Hk.
Qed.

(** A [try] whose handler returns, around a computation without a loop. *)
Lemma returns_try_except {A} (m : M W A) h :
  finishes m → (∀ e, returns (h e)) → returns (try_except m h).
Proof.
  intros Hm Hh st. unfold try_except. specialize (Hm st).
  destruct (m st) as [[[a|e]|] st1]; simpl in *; [by eexists | apply Hh | done].
Qed.

Lemma returns_for_in {A B} (l : list A) (body : A → M W (ctl B)) :
  (∀ x, returns (body x)) → returns (for_in l body).
Proof.
  intros Hb. induction l as [|x l IH]; simpl; [apply returns_ret|].
  apply returns_bind; [apply Hb|]. intros [| |r]; auto using returns_ret.
Qed.

End ReturningRules.

Section Recovery.

Context {W : Type} `{World W}.

Lemma refresh_page_returns url : returns (refresh_page url).
Proof.
  unfold refresh_page.
  apply returns_try_except; [eauto with finishes|]. intros _.
  apply returns_try_except; [repeat finishes_step|]. intros _.
  apply returns_ret.
Qed.

Lemma clear_session_returns : returns clear_session.
Proof.
  unfold clear_session.
  apply returns_try_except; [repeat finishes_step|]. intros _.
  apply returns_ret.
Qed.

Lemma page_source_lower_returns :
  (∀ w, ∃ src w', driver_page_source w = (Ret src, w')) →
  returns page_source_lower.
Proof.
  intros Hsrc st. unfold page_source_lower, bind, call, ret.
  destruct (Hsrc (world st)) as (src & w' & ->). by eexists.
Qed.

Lemma handle_sorry_page_returns url n :
  (∀ w, ∃ src w', driver_page_source w = (Ret src, w')) →
  returns (handle_sorry_page url n).
Proof.
  intros Hsrc. unfold handle_sorry_page, recovery_attempt.
  apply returns_bind.
  - apply returns_for_in. intros attempt.
    apply returns_bind; [by apply page_source_lower_returns|]. intros src.
    destruct (negb (is_sorry_page src)); [apply returns_ret|].
    repeat first [ apply refresh_page_returns | apply clear_session_returns
                 | apply returns_call_total | apply returns_ret
                 | apply returns_bind; [|intros ?]
                 | match goal with |- returns (if ?b then _ else _) => destruct b end ].
  - intros [b|]; [apply returns_ret|].
    apply returns_bind; [by apply page_source_lower_returns|]. intros src.
    destruct (is_sorry_page_final src); apply returns_ret.
Qed.

End Recovery.

(* ===================================================================== *)
(** ** C5: where exceptions are caught *)
(* ===================================================================== *)

Section Exceptions.

Context {W : Type} `{World W} (cfg : Config).


(** A title that does not come is caught where it is waited for: the item
    is skipped. *)
Lemma wait_and_extract_skips csv pid url (st : State W) e w :
  driver_wait_title (world st) = (Throw e, w) →
  wait_and_extract cfg csv pid url st
  = random_delay cfg (set_world w (log EvWaitTitle st)).
Proof.
  intros Hwait. unfold wait_and_extract, try_except, bind, call, ret.
  by rewrite Hwait.
Qed.

Lemma wait_and_extract_proceeds csv pid url (st : State W) w :
  driver_wait_title (world st) = (Ret tt, w) →
  wait_and_extract cfg csv pid url st
  = extract_and_save cfg csv pid url (set_world w (log EvWaitTitle st)).
Proof.
  intros Hwait. unfold wait_and_extract, try_except, bind, call, ret.
  by rewrite Hwait.
Qed.



(** An exception in the crawl of a category ends the loop over the
    categories. *)
Lemma scrape_categories_raises fuel name node rest (st : State W) e :
  (scrape_category cfg fuel name node st).1 = Done (Throw e) →
  scrape_categories cfg fuel ((name, node) :: rest) st
  = (Done (Throw e), (scrape_category cfg fuel name node st).2).
Proof.
  intros Hcat. unfold scrape_categories. cbn [for_in]. unfold bind. simpl.
  destruct (scrape_category cfg fuel name node st) as [r st']. simpl in *.
  by subst r.
Qed.


End Exceptions.

Section Uncaught.

Context {W : Type} `{World W} (cfg : Config).













End Uncaught.




(* ===================================================================== *)
(** ** Dicts *)
(* ===================================================================== *)

Section DictFacts.

Context {V : Type}.
Implicit Types d : list (string * V).

Lemma dict_get_set_eq k v d : Dict.get k (Dict.set k v d) = Some v.
Proof.
  induction d as [|[k' v'] d IH]; simpl.
  - by rewrite String.eqb_refl.
  - destruct (String.eqb k k') eqn:E; simpl; rewrite ?String.eqb_refl, ?E; done.
Qed.

Lemma dict_get_set_ne k k' v d :
  k ≠ k' → Dict.get k (Dict.set k' v d) = Dict.get k d.
Proof.
  intros Hne. apply String.eqb_neq in Hne.
  induction d as [|[k2 v2] d IH]; simpl.
  - by rewrite Hne.
  - destruct (String.eqb k' k2) eqn:E; simpl.
    + apply String.eqb_eq in E. subst k2. by rewrite Hne.
    + by rewrite IH.
Qed.

Lemma dict_get_update_absent k d d2 :
  Dict.get k d2 = None → Dict.get k (Dict.update d d2) = Dict.get k d.
Proof.
  unfold Dict.update. revert d.
  induction d2 as [|[k2 v2] d2 IH]; intros d Habsent; simpl in *; [done|].
  destruct (String.eqb k k2) eqn:E; [done|].
  rewrite IH by done. apply dict_get_set_ne. by apply String.eqb_neq.
Qed.


End DictFacts.

Lemma dict_get_fmap_absent {A B} (f : A → B) k (d : list (string * A)) :
  Dict.get k d = None →
  Dict.get k ((fun kv => (kv.1, f kv.2)) <$> d) = None.
Proof.
  induction d as [|[k' v'] d IH]; simpl; [done|].
  by destruct (String.eqb k k').
Qed.

Lemma dict_keys_set {V} k (v : V) (d : list (string * V)) :
  (Dict.set k v d).*1 = if bool_decide (k ∈ d.*1) then d.*1 else d.*1 ++ [k].
Proof.
  induction d as [|[k' v'] d IH]; [done|].
  cbn [Dict.set]. destruct (String.eqb k k') eqn:E.
  - apply String.eqb_eq in E. subst k'. rewrite !fmap_cons. cbn [fst].
    rewrite bool_decide_true; [done | by left].
  - apply String.eqb_neq in E. rewrite !fmap_cons, IH. cbn [fst].
    destruct (bool_decide (k ∈ d.*1)) eqn:Hin.
    + apply bool_decide_eq_true in Hin.
      rewrite bool_decide_true; [done | by right].
    + apply bool_decide_eq_false in Hin.
      rewrite bool_decide_false; [done|].
      by intros [?|?]%elem_of_cons.
Qed.



(* ===================================================================== *)
(** ** C4: the title gate and the missing price *)
(* ===================================================================== *)

(** What holds of the gate and of the price: when the wait for the title
    element fails the item is skipped, nothing is written, no identifier is
    added and the item is not counted; and a page without the whole part or
    without the symbol of the price has [None] for its price, which the
    record keeps when the rating extractor returns and no product fact is
    named "price". *)
Lemma missing_title_is_skipped {W : Type} `{World W} (cfg : Config)
    csv pid url (st : State W) e w :
  driver_wait_title (world st) = (Throw e, w) →
  same_store st (wait_and_extract cfg csv pid url st).2.
Proof.
  intros Hwait. rewrite (wait_and_extract_skips cfg csv pid url st e w Hwait).
  exact (respects_random_delay cfg same_store (set_world w (log EvWaitTitle st))).
Qed.

Lemma missing_price_is_null {W : Type} `{World W} pid url soup rating :
  sel_price_whole soup = None ∨ sel_price_symbol soup = None →
  extract_rating soup = Ret rating →
  Dict.get "price" (extract_product_details soup) = None →
  extract_price soup = None
  ∧ ∃ data, build_data pid url soup = Ret data
            ∧ Dict.get "price" data = Some None.
Proof.
  intros Hnone Hrating Habsent.
  assert (Hprice : extract_price soup = None).
  { unfold extract_price. destruct Hnone as [-> | ->]; [done|].
    by destruct (sel_price_whole soup). }
  split; [done|]. unfold build_data. rewrite Hrating, Hprice.
  eexists. split; [done|].
  rewrite dict_get_update_absent; [done|]. by apply dict_get_fmap_absent.
Qed.

(** C4 (the code at the failing input): the page of product A has its
    title, no price element and a rating element with an empty text.  The
    wait for the title succeeds and the price extractor returns [None], but
    no record with a null price comes out: the rating extractor raises
    [IndexError] while the record is built, the exception leaves
    [wait_and_extract] and the crawl of the category, and nothing is
    written for A nor for B, the next product.  On the same page with a
    rating the record is built and its row has an empty price cell. *)
Theorem C4_title_without_price_raises_on_empty_rating :
  let blank := Sim.world Demo.site_blank_rating in
  let st_a := Demo.showing "A" [] Sim.no_files in
  let r := @wait_and_extract _ blank (Demo.cfg 10) Demo.csv_jeans
             Demo.pid_a Demo.url_a st_a in
  let run := @scrape_category _ blank (Demo.cfg 10) 5 "jeans" "42"
               (Sim.start Sim.no_files) in
  let rated := @wait_and_extract _ (Sim.world Demo.site_two) (Demo.cfg 10)
                 Demo.csv_jeans Demo.pid_a Demo.url_a st_a in
  @BeautifulSoup _ blank "A" = Demo.product_blank_rating
  ∧ sel_productTitle Demo.product_blank_rating = Some "Jeans A"
  ∧ sel_price_whole Demo.product_blank_rating = None
  ∧ sel_price_symbol Demo.product_blank_rating = None
  ∧ sel_icon_alt Demo.product_blank_rating = Some ""
  ∧ extract_price Demo.product_blank_rating = None
  ∧ (@driver_wait_title _ blank (world st_a)).1 = Ret tt
  ∧ r.1 = Done (Throw IndexError)
  ∧ map_to_list (csv_files (files r.2)) = []
  ∧ elements (scraped_ids r.2) = []
  ∧ run.1 = Done (Throw IndexError)
  ∧ map_to_list (csv_files (files run.2)) = []
  ∧ loaded_urls (trace run.2) = [Demo.listing_url; Demo.url_a]
  ∧ rated.1 = Done (Ret tt)
  ∧ csv_files (files rated.2) !! Demo.csv_jeans
    = Some [ ["id"; "url"; "title"; "price"; "rating"; "brand"; "color"];
             [Demo.pid_a; Demo.url_a; "Jeans A"; ""; "4.5"; "N/A"; "N/A"] ].
Proof. vm_compute. split_and!; reflexivity. Qed.

(* ===================================================================== *)
(** ** C6: the header, the rows and the reader *)
(* ===================================================================== *)










Lemma dict_get_not_key {V} k (d : list (string * V)) :
  k ∉ Dict.keys d → Dict.get k d = None.
Proof.
  unfold Dict.keys. induction d as [|[k' v'] d IH]; [done|].
  rewrite fmap_cons, not_elem_of_cons. simpl. intros [Hne Hd].
  apply String.eqb_neq in Hne. rewrite Hne. by apply IH.
Qed.





(* ===================================================================== *)
(** ** C8: the identifier of an item *)
(* ===================================================================== *)

Lemma prefix_cons a s1 b s2 :
  String.prefix (String a s1) (String b s2)
  = if ascii_dec a b then String.prefix s1 s2 else false.
Proof. done. Qed.

Lemma append_cons c s t : String c s +:+ t = String c (s +:+ t).
Proof. done. Qed.

Lemma prefix_ref_app q t :
  String.prefix "/ref" (q +:+ "/ref" +:+ t) = true →
  q = "" ∨ String.prefix "/ref" q = true.
Proof.
  destruct q as [|c1 [|c2 [|c3 [|c4 q]]]]; auto;
    rewrite ?append_cons, ?prefix_cons;
    repeat (destruct (ascii_dec _ _); try done); auto.
  intros _. right. by destruct q.
Qed.

Lemma split_first_unfold sep c s :
  Py.split_first sep (String c s)
  = if String.prefix sep (String c s) then "" else String c (Py.split_first sep s).
Proof. done. Qed.

Lemma contains_unfold needle c s :
  Py.contains needle (String c s)
  = String.prefix needle (String c s) || Py.contains needle s.
Proof. done. Qed.

Lemma split_first_strips p t :
  Py.contains "/ref" p = false →
  Py.split_first "/ref" (p +:+ "/ref" +:+ t) = p.
Proof.
  induction p as [|c p IH]; intros Hfree; [by destruct t|].
  rewrite contains_unfold in Hfree. apply orb_false_iff in Hfree as [Hhere Hlater].
  rewrite append_cons.
  rewrite split_first_unfold.
  destruct (String.prefix "/ref" (String c (p +:+ "/ref" +:+ t))) eqn:Hpre.
  - apply (prefix_ref_app (String c p) t) in Hpre as [?|Hpre]; [done|congruence].
  - by rewrite IH.
Qed.

Lemma split_first_is_prefix sep s :
  ∃ suffix, s = Py.split_first sep s +:+ suffix
            ∧ (suffix = "" ∨ String.prefix sep suffix = true).
Proof.
  induction s as [|c s (suffix & Heq & Hsuf)].
  - exists "". simpl. destruct sep; simpl; auto.
  - rewrite split_first_unfold.
    destruct (String.prefix sep (String c s)) eqn:Hpre.
    + exists (String c s). auto.
    + exists suffix. split; [by rewrite append_cons, <- Heq | done].
Qed.

Section Keys.

Context {W : Type} `{World W} (cfg : Config).

#[export] Instance keyed_by_preorder pid : PreOrder (keyed_by (W:=W) cfg pid).
Proof.
  split.
  - intros st. unfold keyed_by. auto.
  - intros st1 st2 st3 (Ht1 & Hi1 & Hs1) (Ht2 & Hi2 & Hs2). split_and!.
    + destruct Ht2 as [->|[a2 ->]]; [done|]. right.
      destruct Ht1 as [->|[a1 ->]]; [by exists a2|].
      exists a2. by rewrite insert_insert_eq.
    + destruct Hi2 as [->|[a2 ->]]; [done|]. right.
      destruct Hi1 as [->|[a1 ->]]; [by exists a2|].
      exists a2. by rewrite insert_insert_eq.
    + destruct Hs2 as [->| ->]; [done|]. right.
      destruct Hs1 as [->| ->]; [done|]. set_solver.
Qed.

#[export] Instance keyed_by_blind pid : Blind (keyed_by (W:=W) cfg pid).
Proof. split; intros; unfold keyed_by; simpl; auto. Qed.

Lemma same_store_keyed_by pid (st st' : State W) :
  same_store st st' → keyed_by cfg pid st st'.
Proof. intros (Hf & Hi & _). unfold keyed_by. rewrite Hf, Hi. auto. Qed.

Lemma respects_extract_and_save_keyed csv pid url :
  respects (keyed_by cfg pid) (extract_and_save cfg csv pid url).
Proof.
  unfold extract_and_save, save_about_text, save_image, download_image,
    append_to_csv.
  repeat first [ apply respects_random_delay; apply _ | respects_step ].
  all: unfold keyed_by; simpl; split_and!; eauto.
Qed.

Lemma respects_visit_product_keyed csv pid url :
  respects (keyed_by cfg pid) (visit_product cfg csv pid url).
Proof.
  unfold visit_product, wait_and_extract.
  repeat first [ apply respects_random_delay; apply _
               | apply respects_handle_sorry_page; apply _
               | apply respects_extract_and_save_keyed
               | respects_step ].
Qed.

(** A candidate whose identifier is in the set is left where it is: the
    browser does not move and nothing changes. *)
Lemma scrape_item_known csv href (st : State W) :
  generate_id (product_url_of href) ∈ scraped_ids st →
  (scrape_item cfg csv (Some href) st).2 = st.
Proof.
  intros Hin. unfold scrape_item. rewrite bind_gets.
  destruct (MAX_PER_CATEGORY cfg <=? total_scraped st); [done|].
  destruct (negb (Py.truthy (Some href)) || negb (Py.contains "/dp/" _)); [done|].
  rewrite bind_gets. simpl. by rewrite bool_decide_true.
Qed.

Lemma scrape_item_keyed csv href (st : State W) :
  keyed_by cfg (generate_id (product_url_of href)) st
    (scrape_item cfg csv (Some href) st).2.
Proof.
  unfold scrape_item. rewrite bind_gets.
  destruct (MAX_PER_CATEGORY cfg <=? total_scraped st); [reflexivity|].
  destruct (negb (Py.truthy (Some href)) || negb (Py.contains "/dp/" _));
    [reflexivity|].
  rewrite bind_gets. simpl. case_bool_decide; [reflexivity|].
  rewrite bind_const_state. apply respects_visit_product_keyed.
Qed.

End Keys.

(** C8 (the code at the failing input): two links whose path begins with
    "/ref", the links of two different products.  [href.split("/ref")[0]]
    cuts each of them at its first "/ref", which is at the start, and not
    at the tracking suffix: the canonical URL of both is the home page of
    the site and both products get the same identifier, the digest of that
    URL.  The crawler loads the home page in their place, twice, finds no
    title there, and saves neither product; and once that identifier is in
    the set, a link to the second product is skipped as one already
    saved. *)
Theorem C8_ref_inside_the_path_cuts_the_url :
  let w := Sim.world Demo.site_ref_in_path in
  let run := @scrape_category _ w (Demo.cfg 10) 5 "jeans" "42"
               (Sim.start Sim.no_files) in
  let known := MkState (Sim.MkBrowser "L" []) Sim.no_files []
                 {[ generate_id home_url ]} 0 1 in
  Py.split_first "/ref" Demo.href_refill = ""
  ∧ Py.split_first "/ref" Demo.href_reflective = ""
  ∧ @product_url_of _ w Demo.href_refill = home_url
  ∧ @product_url_of _ w Demo.href_reflective = home_url
  ∧ generate_id (@product_url_of _ w Demo.href_refill)
    = "86f59539dd529bf08baac69ebfca0e7b"
  ∧ generate_id (@product_url_of _ w Demo.href_reflective)
    = "86f59539dd529bf08baac69ebfca0e7b"
  ∧ sel_items (@BeautifulSoup _ w "L")
    = [Some Demo.href_refill; Some Demo.href_reflective]
  ∧ run.1 = Done (Ret tt)
  ∧ loaded_urls (trace run.2) = [Demo.listing_url; home_url; home_url]
  ∧ map_to_list (csv_files (files run.2)) = []
  ∧ elements (scraped_ids run.2) = []
  ∧ trace (@scrape_item _ w (Demo.cfg 10) Demo.csv_jeans
             (Some Demo.href_reflective) known).2 = [].
Proof. vm_compute. split_and!; reflexivity. Qed.

(* ===================================================================== *)
(** ** The identifiers of a file stay distinct *)
(* ===================================================================== *)

(** This part supports C1: when no page has a product fact named "id", a
    crawl takes a file with distinct identifiers to a file with distinct
    identifiers, so that any number of runs leaves them distinct. *)


(** In a row read under a header that starts with "id" and does not have it
    twice, the id is the first cell. *)
Lemma read_row_id rest c cells :
  "id" ∉ rest →
  Dict.get "id" (row_fields (read_row ("id" :: rest) (c :: cells)))
  = Some (Some c).
Proof.
  intros Hrest. unfold read_row.
  assert (Hzip : ∀ (kvs : list (string * string)) acc,
            "id" ∉ kvs.*1 →
            Dict.get "id"
              (foldl (fun acc kv => Dict.set kv.1 (Some kv.2) acc) acc kvs)
            = Dict.get "id" acc).
  { induction kvs as [|[k v] kvs IH]; intros acc Hnot; [done|].
    simpl in *. apply not_elem_of_cons in Hnot as [Hne Hnot].
    rewrite IH by done. by apply dict_get_set_ne. }
  assert (Hnone : ∀ (ks : list string) (acc : list (string * option string)),
            "id" ∉ ks →
            Dict.get "id" (foldl (fun acc k => Dict.set k None acc) acc ks)
            = Dict.get "id" acc).
  { induction ks as [|k ks IH]; intros acc Hnot; [done|].
    simpl in *. apply not_elem_of_cons in Hnot as [Hne Hnot].
    rewrite IH by done. by apply dict_get_set_ne. }
  assert (Hfst : "id" ∉ (zip rest cells).*1).
  { intros ([k v] & Hk & Hin)%list_elem_of_fmap. simpl in Hk. subst k.
    by apply elem_of_zip_l in Hin. }
  destruct (length ("id" :: rest) <? length (c :: cells))%nat; simpl.
  - by rewrite Hzip.
  - rewrite Hnone, Hzip; [done | done |].
    intros Hin. apply Hrest. by eapply subseteq_drop.
Qed.

(** The identifiers [scrape_category] starts from are those of the id
    column of such a file. *)
Lemma seed_id_cells rest body :
  "id" ∉ rest → Forall (fun row => row ≠ []) body →
  seed (Some (("id" :: rest) :: body))
  = Ret (list_to_set (id_cells (("id" :: rest) :: body))).
Proof.
  intros Hrest Hbody. unfold seed, DictReader, id_cells.
  induction Hbody as [|row body Hrow Hbody IH]; [done|].
  destruct row as [|c cells]; [done|].
  rewrite filter_cons_True by done.
  rewrite !fmap_cons. cbn [id_column].
  rewrite read_row_id by done. rewrite IH. done.
Qed.





(* ===================================================================== *)
(** ** The form of an identifier *)
(* ===================================================================== *)

Lemma le_bytes_length n x : length (MD5.le_bytes n x) = n.
Proof. revert x. induction n as [|n IH]; intros x; simpl; [done|]. by rewrite IH. Qed.

Lemma le_bytes_range n x :
  Forall (fun b => 0 ≤ b < 256) (MD5.le_bytes n x).
Proof.
  revert x. induction n as [|n IH]; intros x; simpl; constructor; [|apply IH].
  change 255 with (Z.ones 8). rewrite Z.land_ones by lia.
  apply Z.mod_pos_bound. lia.
Qed.

Lemma hex_digit_char d : 0 ≤ d < 16 → MD5.hex_digit d ∈ hex_chars.
Proof.
  intros Hd.
  assert (Hcases : d ∈ seqZ 0 16) by (apply elem_of_seqZ; lia).
  vm_compute in Hcases.
  repeat (apply elem_of_cons in Hcases as [->|Hcases];
          [vm_compute; set_solver|]).
  by apply elem_of_nil in Hcases.
Qed.

Lemma hex_of_bytes bs :
  Forall (fun b => 0 ≤ b < 256) bs →
  String.length (MD5.hex bs) = (2 * length bs)%nat
  ∧ Forall (fun c => c ∈ hex_chars) (String.list_ascii_of_string (MD5.hex bs)).
Proof.
  induction 1 as [|b bs Hb _ [IHlen IHchars]]; [by split|].
  simpl. split; [rewrite IHlen; lia|].
  constructor; [|constructor; [|done]]; apply hex_digit_char.
  - rewrite Z.shiftr_div_pow2 by lia. change (2 ^ 4) with 16.
    split; [apply Z.div_pos; lia | apply Z.div_lt_upper_bound; lia].
  - change 15 with (Z.ones 4). rewrite Z.land_ones by lia.
    apply Z.mod_pos_bound. lia.
Qed.

(** X1: an identifier is always 32 characters long, and each of them is a
    digit or a letter from a to f, whatever the URL. *)
Theorem X1_generate_id_is_32_hex_digits (url : string) :
  String.length (generate_id url) = 32%nat
  ∧ Forall (fun c => c ∈ hex_chars)
      (String.list_ascii_of_string (generate_id url)).
Proof.
  unfold generate_id, MD5.hexdigest, MD5.digest.
  generalize (foldl MD5.block MD5.init
                (MD5.chunks 64 (length (MD5.pad (MD5.encode url)))
                   (MD5.pad (MD5.encode url)))).
  intros r.
  destruct (hex_of_bytes
              (MD5.le_bytes 4 (MD5.rA r) ++ MD5.le_bytes 4 (MD5.rB r)
               ++ MD5.le_bytes 4 (MD5.rC r) ++ MD5.le_bytes 4 (MD5.rD r)))
    as [Hlen Hchars].
  { repeat (apply Forall_app; split); apply le_bytes_range. }
  split; [|exact Hchars].
  rewrite Hlen, !length_app, !le_bytes_length. done.
Qed.

(* ===================================================================== *)
(** ** The cap of a category, and the files a crawl leaves alone *)
(* ===================================================================== *)

Section Cap.

Context {W : Type} `{World W} (cfg : Config).

#[export] Instance capped_preorder : PreOrder (capped (W:=W) cfg).
Proof.
  split; unfold capped.
  - intros st. lia.
  - intros x y z Hxy Hyz. lia.
Qed.

#[export] Instance capped_blind : Blind (capped (W:=W) cfg).
Proof. split; intros; unfold capped; simpl; lia. Qed.

#[export] Instance nothing_lost_preorder csv : PreOrder (nothing_lost (W:=W) csv).
Proof.
  split.
  - intros st. by split_and!.
  - intros x y z (Hc1 & Ht1 & Hi1) (Hc2 & Ht2 & Hi2). split_and!.
    + intros p Hp. by rewrite Hc2, Hc1.
    + auto.
    + auto.
Qed.

#[export] Instance nothing_lost_blind csv : Blind (nothing_lost (W:=W) csv).
Proof. split; intros; by split_and!. Qed.

(** A visit counts one item at most. *)
Lemma visit_product_counts csv pid url st :
  total_scraped (visit_product cfg csv pid url st).2 ≤ total_scraped st + 1.
Proof.
  unfold visit_product.
  set (Q := fun r : result unit * State W =>
              total_scraped r.2 ≤ total_scraped st + 1).
  assert (Hsame : ∀ r, same_index st r.2 → Q r).
  { intros r (_ & _ & Ht). unfold Q. lia. }
  assert (Hthrow : ∀ e st1, same_index st st1 → Q (Done (Throw e), st1))
    by (intros; by apply Hsame).
  apply (bind_post same_index _ _ Q st);
    [eauto with respects typeclass_instances | eauto with finishes
    | done | auto |].
  intros _ st1 H1.
  apply (bind_post same_index _ _ Q st);
    [eauto with respects typeclass_instances | eauto with finishes
    | done | auto |].
  intros _ st2 H2.
  apply (bind_post same_index _ _ Q st);
    [apply respects_handle_sorry_page; apply _
    | apply finishes_handle_sorry_page | done | auto |].
  intros ok st3 H3. destruct ok.
  - unfold wait_and_extract.
    apply (bind_post same_index _ _ Q st);
      [repeat respects_step | repeat finishes_step | done | auto |].
    intros found st4 H4. destruct found.
    + destruct H4 as (_ & _ & Ht4).
      destruct (extract_and_save_cases cfg csv pid url st4)
        as [(e & _ & _ & _ & Ht)|(src & data & st5 & _ & _ & _ & _ & Ht & _)];
        unfold Q; lia.
    + apply Hsame. etrans; [exact H4|].
      apply same_store_index, respects_random_delay; apply _.
  - apply Hsame. etrans; [exact H3|].
    apply same_store_index, respects_random_delay; apply _.
Qed.

Lemma respects_capped_scrape_item csv item :
  respects (capped cfg) (scrape_item cfg csv item).
Proof.
  intros st. unfold scrape_item. rewrite bind_gets.
  destruct (MAX_PER_CATEGORY cfg <=? total_scraped st) eqn:Hcap; [reflexivity|].
  apply Z.leb_gt in Hcap.
  destruct (negb (Py.truthy item) || negb (Py.contains "/dp/" (default "" item)));
    [reflexivity|].
  rewrite bind_gets. case_bool_decide as Hin; [reflexivity|].
  rewrite bind_const_state. unfold capped.
  pose proof (visit_product_counts csv (generate_id (product_url_of (default "" item)))
                (product_url_of (default "" item)) st).
  lia.
Qed.

Lemma respects_capped_crawl_loop fuel csv :
  respects (capped cfg)
  (while_ fuel
     (bind (gets total_scraped) (fun total => ret (total <? MAX_PER_CATEGORY cfg)))
     (scrape_page cfg csv)).
Proof.
  apply respects_while; [apply _ | repeat respects_step |].
  unfold scrape_page, scroll_randomly.
  repeat first [ apply respects_capped_scrape_item | respects_step ].
  all: unfold capped; simpl; lia.
Qed.

(** The crawl of a category either stops before its loop, having written
    nothing, or runs its loop from a state with the files as they were, the
    identifiers of the file and the counter at zero. *)
Lemma scrape_category_loop fuel name node st :
  let csv := csv_path cfg name in
  ((∃ e, (scrape_category cfg fuel name node st).1 = Done (Throw e))
   ∧ files (scrape_category cfg fuel name node st).2 = files st)
  ∨ ∃ ids0 st0,
      seed (csv_files (files st) !! csv) = Ret ids0
      ∧ files st0 = files st
      ∧ scraped_ids st0 = ids0
      ∧ total_scraped st0 = 0
      ∧ page st0 = 1
      ∧ scrape_category cfg fuel name node st
        = while_ fuel
            (bind (gets total_scraped)
                  (fun total => ret (total <? MAX_PER_CATEGORY cfg)))
            (scrape_page cfg csv) st0.
Proof.
  simpl. set (csv := csv_path cfg name).
  set (loop := while_ fuel
            (bind (gets total_scraped)
                  (fun total => ret (total <? MAX_PER_CATEGORY cfg)))
            (scrape_page cfg csv)).
  set (Q := fun r : result unit * State W =>
    ((∃ e, r.1 = Done (Throw e)) ∧ files r.2 = files st)
    ∨ ∃ ids0 st0, seed (csv_files (files st) !! csv) = Ret ids0
            ∧ files st0 = files st ∧ scraped_ids st0 = ids0
            ∧ total_scraped st0 = 0 ∧ page st0 = 1 ∧ r = loop st0).
  change (Q (scrape_category cfg fuel name node st)). unfold scrape_category.
  assert (Hthrow : ∀ e st1, same_files st st1 → Q (Done (Throw e), st1))
    by (intros e st1 ?; left; split; [by exists e | done]).
  apply (bind_post same_files _ _ Q st);
    [eauto with respects typeclass_instances | eauto with finishes
    | done | done |].
  intros _ st1 H1.
  apply (bind_post same_files _ _ Q st);
    [eauto with respects typeclass_instances | eauto with finishes
    | done | done |].
  intros _ st2 H2.
  apply (bind_post same_files _ _ Q st);
    [apply respects_handle_sorry_page; apply _
    | apply finishes_handle_sorry_page | done | done |].
  intros _ st3 H3. rewrite bind_modify.
  set (st4 := set_scraped_ids ∅ st3).
  destruct (load_scraped_ids_cases (csv_path cfg name) st4) as (Hload & Hfin & Hseed).
  apply (bind_elim _ _ Q);
    [intros ids st5 E | intros e st5 E | intros st5 E];
    rewrite E in Hload, Hfin, Hseed; simpl in *; [| |done].
  - rewrite !bind_modify. right.
    exists ids, (set_page 1 (set_total_scraped 0 (set_scraped_ids ids st5))).
    split_and!; try done.
    + rewrite <- (Hseed ids eq_refl). unfold st4. simpl. by rewrite H3.
    + simpl. rewrite Hload. unfold st4. simpl. by rewrite H3.
  - apply Hthrow. unfold same_files. rewrite Hload. unfold st4. simpl. done.
Qed.

End Cap.

(** X2: one run of [scrape_category] appends at most [MAX_PER_CATEGORY]
    rows to the file of the category, and none when the cap is zero or
    negative, whatever the site serves and whatever fails on the way. *)
Theorem X2_at_most_cap_rows_per_run {W : Type} `{World W}
    (cfg : Config) (fuel : nat) (name node : string) (st : State W) :
  let csv := csv_path cfg name in
  ∃ ds,
    csv_files (files (scrape_category cfg fuel name node st).2) !! csv
    = appended (csv_files (files st) !! csv) ds
    ∧ Z.of_nat (length ds) ≤ Z.max 0 (MAX_PER_CATEGORY cfg).
Proof.
  simpl.
  destruct (scrape_category_loop cfg fuel name node st)
    as [[_ Hsame] | (ids0 & st0 & _ & Hfiles & _ & Hzero & _ & Hrun)].
  - exists []. rewrite Hsame. split; [done | simpl; lia].
  - rewrite Hrun.
    destruct (respects_crawl_loop cfg fuel (csv_path cfg name) st0)
      as (hist & Hfile & _ & Htotal & _).
    pose proof (respects_capped_crawl_loop cfg fuel (csv_path cfg name) st0) as Hcap.
    unfold capped in Hcap.
    exists hist.*2. rewrite Hfile, Hfiles. split; [done|].
    rewrite length_fmap. lia.
Qed.

Section Frame.

Context {W : Type} `{World W} (cfg : Config).

Lemma respects_nothing_lost_scrape_category csv fuel name node :
  csv = csv_path cfg name →
  respects (nothing_lost csv) (scrape_category cfg fuel name node).
Proof.
  intros ->.
  unfold scrape_category, scrape_page, scrape_item, visit_product,
    wait_and_extract, extract_and_save, append_to_csv, save_image,
    save_about_text, download_image, load_scraped_ids, scroll_randomly.
  repeat first [ apply respects_handle_sorry_page | apply respects_random_delay
               | respects_step ].
  all: try (split_and!; simpl; by auto).
  all: split_and!; simpl; try done.
  all: intros p Hp;
    first [ by rewrite lookup_insert_ne
          | apply lookup_insert_is_Some'; by right ].
Qed.

End Frame.

(** X3: a run of [scrape_category] touches no CSV file but the one of its
    category, and removes no text file and no image, whatever the site
    serves and whatever fails on the way. *)
Theorem X3_other_files_are_kept {W : Type} `{World W}
    (cfg : Config) (fuel : nat) (name node : string) (st : State W) :
  let st' := (scrape_category cfg fuel name node st).2 in
  (∀ p, p ≠ csv_path cfg name →
        csv_files (files st') !! p = csv_files (files st) !! p)
  ∧ (∀ p, is_Some (text_files (files st) !! p) →
          is_Some (text_files (files st') !! p))
  ∧ (∀ p, is_Some (image_files (files st) !! p) →
          is_Some (image_files (files st') !! p)).
Proof.
  exact (respects_nothing_lost_scrape_category cfg (csv_path cfg name)
           fuel name node eq_refl st).
Qed.

Lemma X3_witness :
  csv_files
    (files (@scrape_category _ (Sim.world Demo.site_two) (Demo.cfg 10) 5
              "jeans" "42" (Sim.start files_two_categories)).2)
    !! "bronze/shirts_bronze.csv"
  = csv_files (files (Sim.start files_two_categories)) !! "bronze/shirts_bronze.csv".
Proof.
  apply (@X3_other_files_are_kept _ (Sim.world Demo.site_two) (Demo.cfg 10) 5
           "jeans" "42" (Sim.start files_two_categories)).
  vm_compute. discriminate.
Defined.

(* ===================================================================== *)
(** ** The file of a category *)
(* ===================================================================== *)

Lemma append_length (a b : string) :
  String.length (a +:+ b) = (String.length a + String.length b)%nat.
Proof. induction a as [|c a IH]; simpl; [done|]. by rewrite IH. Qed.

Lemma append_assoc (a b c : string) : (a +:+ b) +:+ c = a +:+ (b +:+ c).
Proof. induction a as [|x a IH]; [done|]. rewrite !append_cons. by f_equal. Qed.

(** The same suffix after two strings that are equal: the strings are
    equal. *)
Lemma append_inj_r (a b s : string) : a +:+ s = b +:+ s → a = b.
Proof.
  revert b. induction a as [|x a IH]; intros [|y b] Heq.
  - done.
  - apply (f_equal String.length) in Heq.
    rewrite !append_length in Heq. cbn [String.length] in Heq. lia.
  - apply (f_equal String.length) in Heq.
    rewrite !append_length in Heq. cbn [String.length] in Heq. lia.
  - rewrite !append_cons in Heq. injection Heq as -> Heq. f_equal. by apply IH.
Qed.

Lemma prefix_slash_append (n s : string) :
  String.prefix "/" n = false → String.prefix "/" s = false →
  String.prefix "/" (n +:+ s) = false.
Proof.
  destruct n as [|c n]; [by intros _ Hs|].
  rewrite append_cons, !prefix_cons.
  destruct (ascii_dec "/" c); [by destruct n | done].
Qed.

(** The path of a relative name is the name between a beginning that
    depends on the directory only and the ending of the file name. *)
Lemma path_join_relative (a b : string) :
  String.prefix "/" b = false →
  ∃ pre, ∀ b', String.prefix "/" b' = false → Py.path_join a b' = pre +:+ b'.
Proof.
  intros _. unfold Py.path_join. destruct a as [|c a].
  - exists "". intros b' ->. done.
  - destruct (Ascii.eqb _ _).
    + exists (String c a). by intros b' ->.
    + exists (String c a +:+ "/"). intros b' ->. by rewrite append_assoc.
Qed.

(** X4: two categories whose names are different and do not start with a
    slash have different CSV files; a name that starts with a slash is an
    absolute path, and its file is outside [BASE_DIR] unless the name says
    otherwise. *)
Theorem X4_categories_have_their_own_files (cfg : Config) :
  (∀ name1 name2,
     String.prefix "/" name1 = false → String.prefix "/" name2 = false →
     csv_path cfg name1 = csv_path cfg name2 → name1 = name2)
  ∧ (∀ name,
       String.prefix "/" name = true →
       csv_path cfg name = name +:+ "_bronze.csv").
Proof.
  split.
  - intros name1 name2 H1 H2. unfold csv_path.
    destruct (path_join_relative (BASE_DIR cfg) (name1 +:+ "_bronze.csv"))
      as [pre Hpre]; [by apply prefix_slash_append|].
    rewrite !Hpre by (by apply prefix_slash_append).
    intros Heq. apply String.app_inj in Heq. by apply append_inj_r in Heq.
  - intros name Hname. unfold csv_path, Py.path_join.
    destruct name as [|c name]; [done|].
    rewrite append_cons, prefix_cons. rewrite prefix_cons in Hname.
    destruct (ascii_dec "/" c); [|done].
    by destruct (name +:+ "_bronze.csv").
Qed.

Lemma X4_witness :
  csv_path (Demo.cfg 10) "jeans" ≠ csv_path (Demo.cfg 10) "shirts"
  ∧ csv_path (Demo.cfg 10) "/srv/jeans" = "/srv/jeans_bronze.csv".
Proof.
  destruct (X4_categories_have_their_own_files (Demo.cfg 10)) as [Hinj Habs].
  split.
  - intros Heq. apply Hinj in Heq; [discriminate | reflexivity | reflexivity].
  - apply Habs. reflexivity.
Defined.

(* ===================================================================== *)
(** ** Resuming over a file without identifiers *)
(* ===================================================================== *)

(** The keys of a row read under the field names [hdr] are names of
    [hdr]. *)
Lemma read_row_absent k hdr row :
  k ∉ hdr → Dict.get k (row_fields (read_row hdr row)) = None.
Proof.
  intros Hk. unfold read_row.
  assert (Hzip : ∀ (kvs : list (string * string)) acc,
            k ∉ kvs.*1 →
            Dict.get k
              (foldl (fun acc kv => Dict.set kv.1 (Some kv.2) acc) acc kvs)
            = Dict.get k acc).
  { induction kvs as [|[k' v] kvs IH]; intros acc Hnot; [done|].
    simpl in *. apply not_elem_of_cons in Hnot as [Hne Hnot].
    rewrite IH by done. by apply dict_get_set_ne. }
  assert (Hnone : ∀ (ks : list string) (acc : list (string * option string)),
            k ∉ ks →
            Dict.get k (foldl (fun acc k => Dict.set k None acc) acc ks)
            = Dict.get k acc).
  { induction ks as [|k' ks IH]; intros acc Hnot; [done|].
    simpl in *. apply not_elem_of_cons in Hnot as [Hne Hnot].
    rewrite IH by done. by apply dict_get_set_ne. }
  assert (Hfst : k ∉ (zip hdr row).*1).
  { intros ([k' v] & Hk' & Hin)%list_elem_of_fmap. simpl in Hk'. subst k'.
    by apply elem_of_zip_l in Hin. }
  destruct (length hdr <? length row)%nat; simpl.
  - by rewrite Hzip.
  - rewrite Hnone, Hzip; [done | done |].
    intros Hin. apply Hk. by eapply subseteq_drop.
Qed.

(** And every name of [hdr] is a key of the row, whatever the number of
    its cells. *)
Lemma read_row_present k hdr row :
  k ∈ hdr → is_Some (Dict.get k (row_fields (read_row hdr row))).
Proof.
  intros Hk. unfold read_row.
  assert (Hset : ∀ k' (v : option string) d,
            is_Some (Dict.get k d) → is_Some (Dict.get k (Dict.set k' v d))).
  { intros k' v d Hd. destruct (decide (k = k')) as [<-|Hne].
    - by rewrite dict_get_set_eq.
    - by rewrite dict_get_set_ne. }
  assert (Hzip : ∀ (kvs : list (string * string)) acc,
            k ∈ kvs.*1 ∨ is_Some (Dict.get k acc) →
            is_Some (Dict.get k
              (foldl (fun acc kv => Dict.set kv.1 (Some kv.2) acc) acc kvs))).
  { induction kvs as [|[k' v] kvs IH]; intros acc Hin; simpl in *.
    { destruct Hin as [Hin|]; [by apply elem_of_nil in Hin | done]. }
    apply IH. destruct Hin as [[->|Hin]%elem_of_cons|Hacc]; auto.
    right. by rewrite dict_get_set_eq. }
  assert (Hnone : ∀ (ks : list string) (acc : list (string * option string)),
            k ∈ ks ∨ is_Some (Dict.get k acc) →
            is_Some (Dict.get k (foldl (fun acc k => Dict.set k None acc) acc ks))).
  { induction ks as [|k' ks IH]; intros acc Hin; simpl in *.
    { destruct Hin as [Hin|]; [by apply elem_of_nil in Hin | done]. }
    apply IH. destruct Hin as [[->|Hin]%elem_of_cons|Hacc]; auto.
    right. by rewrite dict_get_set_eq. }
  assert (Hsplit : k ∈ (zip hdr row).*1 ∨ k ∈ drop (length row) hdr).
  { clear -Hk. revert row. induction hdr as [|h hdr IH]; intros row.
    { by apply elem_of_nil in Hk. }
    destruct row as [|c row]; [by right|].
    apply elem_of_cons in Hk as [->|Hk]; [left; simpl; by left|].
    destruct (IH Hk row) as [Hin|Hin]; [left; simpl; by right | by right]. }
  destruct (length hdr <? length row)%nat eqn:Hlen; simpl.
  - apply Hzip. left. destruct Hsplit as [|Hin]; [done|].
    apply Nat.ltb_lt in Hlen. rewrite drop_ge in Hin by lia.
    by apply elem_of_nil in Hin.
  - apply Hnone. destruct Hsplit as [Hin|Hin]; [right | by left].
    apply Hzip. by left.
Qed.

Lemma id_column_present (rows : list reader_row) :
  Forall (fun r => is_Some (Dict.get "id" (row_fields r))) rows →
  ∃ ids, id_column rows = Ret ids.
Proof.
  induction 1 as [|r rows [cell Hcell] _ [ids IH]]; simpl; [by eexists|].
  rewrite Hcell, IH. by eexists.
Qed.

(** X5: resuming needs the column of identifiers.  Over a file whose header
    has no "id" and which has a row that is not blank, the identifiers
    cannot be loaded ([KeyError]); over a file whose header has it they
    always can, whatever the lengths of the rows.  When they cannot be
    loaded, [scrape_category] raises and writes nothing. *)
Theorem X5_resuming_needs_the_id_column {W : Type} `{World W} (cfg : Config) :
  (∀ hdr body,
     "id" ∉ hdr → Exists (fun row => row ≠ []) body →
     seed (Some (hdr :: body)) = Throw KeyError)
  ∧ (∀ hdr body, "id" ∈ hdr → ∃ ids, seed (Some (hdr :: body)) = Ret ids)
  ∧ (∀ fuel name node (st : State W) e,
       seed (csv_files (files st) !! csv_path cfg name) = Throw e →
       (∃ e', (scrape_category cfg fuel name node st).1 = Done (Throw e'))
       ∧ files (scrape_category cfg fuel name node st).2 = files st).
Proof.
  split_and!.
  - intros hdr body Hid Hrow. unfold seed, DictReader.
    induction Hrow as [row body Hrow|row body Hrow IH].
    + destruct row as [|c row]; [done|].
      rewrite filter_cons_True by done. rewrite fmap_cons. cbn [id_column].
      by rewrite read_row_absent.
    + destruct row as [|c row].
      * by rewrite filter_cons_False by (simpl; congruence).
      * rewrite filter_cons_True by done. rewrite fmap_cons. cbn [id_column].
        by rewrite read_row_absent.
  - intros hdr body Hid. unfold seed, DictReader.
    apply id_column_present, Forall_fmap, Forall_forall.
    intros row _. by apply read_row_present.
  - intros fuel name node st e Hseed.
    destruct (scrape_category_loop cfg fuel name node st)
      as [Hraised | (ids0 & st0 & Hids & _)]; [done|].
    simpl in Hids. congruence.
Qed.

Lemma X5_witness :
  seed (Some [["sku"; "title"]; ["1"; "Jeans"]]) = Throw KeyError
  ∧ (∃ ids, seed (Some [["title"; "id"]; ["Jeans"]; ["Shirt"; "7"; "extra"]]) = Ret ids)
  ∧ files (@scrape_category _ (Sim.world Demo.site_two) (Demo.cfg 10) 5
             "jeans" "42" (Sim.start files_foreign)).2
    = files (Sim.start files_foreign).
Proof.
  destruct (@X5_resuming_needs_the_id_column _ (Sim.world Demo.site_two) (Demo.cfg 10))
    as (Hnone & Hsome & Hraise).
  split_and!.
  - apply Hnone; [set_solver | apply Exists_cons_hd; discriminate].
  - apply Hsome. set_solver.
  - apply (Hraise 5%nat "jeans" "42" (Sim.start files_foreign) KeyError).
    vm_compute. reflexivity.
Defined.

(* ===================================================================== *)
(** ** The product facts *)
(* ===================================================================== *)

Section DictFolds.

Context {V : Type}.

(** What a key holds after a sequence of assignments: the value of the last
    assignment to it, and what it held before when there is none. *)
Lemma dict_get_assignments k (kvs : list (string * V)) d :
  Dict.get k (foldl (fun acc kv => Dict.set kv.1 kv.2 acc) d kvs)
  = match last (filter (fun kv => kv.1 = k) kvs) with
    | Some kv => Some kv.2
    | None => Dict.get k d
    end.
Proof.
  revert d. induction kvs as [|[k' v] kvs IH]; intros d; [done|].
  cbn [foldl]. rewrite IH. cbn [fst snd].
  destruct (decide (k' = k)) as [->|Hne].
  - rewrite filter_cons_True by done. rewrite last_cons.
    destruct (last (filter _ kvs)); [done|]. by rewrite dict_get_set_eq.
  - rewrite filter_cons_False by done.
    destruct (last (filter _ kvs)); [done|]. by rewrite dict_get_set_ne.
Qed.

Lemma dict_assignments_nodup (kvs : list (string * V)) d :
  NoDup d.*1 →
  NoDup (foldl (fun acc kv => Dict.set kv.1 kv.2 acc) d kvs).*1.
Proof.
  revert d. induction kvs as [|[k v] kvs IH]; intros d Hd; [done|].
  cbn [foldl]. apply IH. cbn [fst snd]. rewrite dict_keys_set.
  case_bool_decide as Hin; [done|].
  apply NoDup_app. split_and!; [done | | apply NoDup_singleton].
  intros k' Hk' ->%list_elem_of_singleton. done.
Qed.

End DictFolds.

Lemma extract_product_details_fold soup :
  extract_product_details soup
  = foldl (fun acc kv => Dict.set kv.1 kv.2 acc) [] (fact_rows soup).
Proof.
  unfold extract_product_details, fact_rows.
  generalize (@nil (string * string)).
  induction (sel_facts soup) as [|[[label|] [value|]] rows IH]; intros d;
    simpl; by rewrite ?IH.
Qed.

Lemma replace_one_char a b s :
  Py.replace (String a "") (String b "") s
  = map_chars (fun c => if Ascii.eqb c a then b else c) s.
Proof.
  unfold Py.replace. induction s as [|c s IH]; [done|].
  cbn [Py.replace_go map_chars]. rewrite prefix_cons.
  destruct (ascii_dec a c) as [->|Hne].
  - rewrite Ascii.eqb_refl. destruct s; simpl in *; by rewrite ?IH.
  - destruct (Ascii.eqb_spec c a) as [->|_]; [done|]. by rewrite IH.
Qed.

Lemma lower_map_chars s : Py.lower s = map_chars Py.lower_ascii s.
Proof. induction s as [|c s IH]; simpl; by rewrite ?IH. Qed.

Lemma map_chars_compose f g s :
  map_chars f (map_chars g s) = map_chars (fun c => f (g c)) s.
Proof. induction s as [|c s IH]; simpl; by rewrite ?IH. Qed.

Lemma map_chars_list f s :
  String.list_ascii_of_string (map_chars f s)
  = f <$> String.list_ascii_of_string s.
Proof. induction s as [|c s IH]; simpl; by rewrite ?IH. Qed.

Lemma detail_key_chars label :
  detail_key label = map_chars key_of_char (Py.rstrip_colon label).
Proof.
  unfold detail_key.
  by rewrite !replace_one_char, lower_map_chars, !map_chars_compose.
Qed.

Lemma key_of_char_ok c :
  key_char (key_of_char c) = true
  ∧ (key_of_char c = ":"%char → c = ":"%char).
Proof.
  destruct c as [[] [] [] [] [] [] [] []]; vm_compute; split; congruence.
Qed.

Lemma rstrip_by_last p s c :
  last (String.list_ascii_of_string (Py.rstrip_by p s)) = Some c → p c = false.
Proof.
  revert c. induction s as [|x s IH]; intros c; simpl; [done|].
  destruct (Py.rstrip_by p s) as [|y r] eqn:Hr.
  - destruct (p x) eqn:Hx; simpl; [done|]. by intros [= <-].
  - intros Hlast. apply IH. exact Hlast.
Qed.

Lemma dict_get_is_Some {V} k (d : list (string * V)) :
  k ∈ d.*1 → is_Some (Dict.get k d).
Proof.
  induction d as [|[k' v] d IH]; [by intros ?%elem_of_nil|].
  rewrite fmap_cons. cbn [fst Dict.get]. intros [->|Hin]%elem_of_cons.
  - by rewrite String.eqb_refl.
  - destruct (String.eqb k k'); [done | by apply IH].
Qed.

(** X6: the keys that the product facts add to a record.  No key is there
    twice; a key holds the value of the last row that gives it; and no key
    has a space, a hyphen or an upper-case letter in it, or a colon at its
    end, so labels that differ in these only share one column. *)
Theorem X6_product_facts_have_normalised_keys (soup : Soup) :
  NoDup (Dict.keys (extract_product_details soup))
  ∧ (∀ k, Dict.get k (extract_product_details soup)
          = last_value k (fact_rows soup))
  ∧ (∀ k, k ∈ Dict.keys (extract_product_details soup) →
          Forall (fun c => key_char c = true) (String.list_ascii_of_string k)
          ∧ last (String.list_ascii_of_string k) ≠ Some ":"%char).
Proof.
  assert (Hget : ∀ k, Dict.get k (extract_product_details soup)
                      = last_value k (fact_rows soup)).
  { intros k. rewrite extract_product_details_fold, dict_get_assignments.
    unfold last_value. by destruct (last _). }
  split_and!; [|exact Hget|].
  - rewrite extract_product_details_fold. unfold Dict.keys.
    apply dict_assignments_nodup. constructor.
  - intros k Hk. apply dict_get_is_Some in Hk as [v Hv].
    rewrite Hget in Hv. unfold last_value in Hv.
    destruct (last _) as [[k' v']|] eqn:Hlast; [|done].
    apply last_Some_elem_of, list_elem_of_filter in Hlast as [Hkey Hin].
    simpl in Hkey. subst k'. unfold fact_rows in Hin.
    apply list_elem_of_omap in Hin as ([[label|] [value|]] & _ & Hrow);
      try done.
    injection Hrow as <- _. rewrite detail_key_chars, map_chars_list. split.
    + apply Forall_fmap, Forall_forall. intros c _. apply key_of_char_ok.
    + rewrite fmap_last.
      destruct (last (String.list_ascii_of_string (Py.rstrip_colon label)))
        as [c|] eqn:Hc; [|done].
      simpl. intros [= Hcolon]. apply key_of_char_ok in Hcolon. subst c.
      apply rstrip_by_last in Hc. done.
Qed.

Lemma X6_witness :
  let soup :=
    MkSoup None None None None None None None
      [(Some "Item Weight:", Some "1 kg"); (Some "Fit-Type", Some "Slim");
       (None, Some "lost"); (Some "item weight", Some "2 kg")]
      None None [] in
  extract_product_details soup = [("item_weight", "2 kg"); ("fit_type", "Slim")]
  ∧ Forall (fun c => key_char c = true) (String.list_ascii_of_string "item_weight")
  ∧ last (String.list_ascii_of_string "item_weight") ≠ Some ":"%char.
Proof.
  intros soup. split; [reflexivity|].
  destruct (X6_product_facts_have_normalised_keys soup) as (_ & _ & Hkeys).
  apply (Hkeys "item_weight"). vm_compute. constructor.
Defined.

(* ===================================================================== *)
(** ** The about text *)
(* ===================================================================== *)

Lemma split_on_line sep x :
  has_char sep x = false → split_on sep x = [x].
Proof.
  induction x as [|c x IH]; [done|]. cbn [has_char split_on].
  intros [Hc Hx]%orb_false_iff. rewrite Hc, IH; done.
Qed.

Lemma split_on_append sep x t :
  has_char sep x = false →
  split_on sep (x +:+ String sep t) = x :: split_on sep t.
Proof.
  induction x as [|c x IH]; intros Hx.
  - change ("" +:+ String sep t) with (String sep t).
    cbn [split_on]. by rewrite Ascii.eqb_refl.
  - cbn [has_char] in Hx. apply orb_false_iff in Hx as [Hc Hx].
    rewrite append_cons. cbn [split_on]. rewrite Hc, IH; done.
Qed.

(** Splitting at the separator what was joined with it gives the pieces
    back, when there is a piece and no piece holds the separator. *)
Lemma split_on_join sep l :
  l ≠ [] → Forall (fun x => has_char sep x = false) l →
  split_on sep (join (String sep "") l) = l.
Proof.
  intros Hne Hl. induction Hl as [|x l Hx Hl IH]; [done|].
  destruct l as [|y l].
  - by apply split_on_line.
  - change (join (String sep "") (x :: y :: l))
      with (x +:+ String sep "" +:+ join (String sep "") (y :: l)).
    change (String sep "" +:+ join (String sep "") (y :: l))
      with (String sep (join (String sep "") (y :: l))).
    rewrite split_on_append by done. f_equal. by apply IH.
Qed.

Lemma join_empty sep l :
  Forall (fun x => nonempty x = true) l → join sep l = "" → l = [].
Proof.
  destruct 1 as [|x l Hx _]; [done|].
  destruct x as [|c x]; [done|]. by destruct l.
Qed.

Lemma filter_nonempty_all bullets :
  Forall (fun b => nonempty b = true) (filter (fun b => nonempty b = true) bullets).
Proof. apply Forall_forall. by intros b [Hb _]%list_elem_of_filter. Qed.

Lemma filter_nonempty_nil bullets :
  filter (fun b => nonempty b = true) bullets = [] ↔ Forall (fun b => b = "") bullets.
Proof.
  induction bullets as [|[|c b] bullets IH].
  - done.
  - rewrite filter_cons_False by done. rewrite IH. split.
    + by constructor.
    + by intros [_ ?]%Forall_cons.
  - rewrite filter_cons_True by done. split; [done|].
    by intros [? _]%Forall_cons.
Qed.

(** X7: the about text.  It is empty exactly when the page has no list or
    no bullet of the list has text; and when no bullet holds a line break,
    its lines are the bullets that have text, in their order: a bullet
    without text leaves no blank line. *)
Theorem X7_about_text_lines_are_the_bullets (soup : Soup) :
  (extract_about_text soup = ""
   ↔ sel_about_ul soup = None
     ∨ ∃ bullets, sel_about_ul soup = Some bullets
                  ∧ Forall (fun b => b = "") bullets)
  ∧ (∀ bullets,
       sel_about_ul soup = Some bullets →
       Forall (fun b => has_char newline_char b = false) bullets →
       Exists (fun b => b ≠ "") bullets →
       split_on newline_char (extract_about_text soup)
       = filter (fun b => nonempty b = true) bullets).
Proof.
  unfold extract_about_text. split.
  - destruct (sel_about_ul soup) as [bullets|]; [|by split; auto].
    split.
    + intros Hempty. right. exists bullets. split; [done|].
      apply filter_nonempty_nil.
      apply (join_empty newline); [apply filter_nonempty_all | done].
    + intros [|(bs & [= <-] & Hbs)]; [done|].
      apply filter_nonempty_nil in Hbs. by rewrite Hbs.
  - intros bullets -> Hlines Hsome.
    apply (split_on_join newline_char).
    + intros Hnil. apply filter_nonempty_nil in Hnil.
      apply Exists_exists in Hsome as (b & Hb & Hne).
      by apply (proj1 (Forall_forall _ _) Hnil) in Hb.
    + apply Forall_forall. intros b [_ Hb]%list_elem_of_filter.
      by apply (proj1 (Forall_forall _ _) Hlines).
Qed.

Lemma X7_witness :
  let soup :=
    MkSoup None None None None None None None []
      (Some ["Slim fit"; ""; "Machine wash"]) None [] in
  split_on newline_char (extract_about_text soup) = ["Slim fit"; "Machine wash"].
Proof.
  intros soup.
  destruct (X7_about_text_lines_are_the_bullets soup) as [_ Hlines].
  apply (Hlines ["Slim fit"; ""; "Machine wash"]).
  - reflexivity.
  - repeat constructor.
  - apply Exists_cons_hd. discriminate.
Defined.

(* ===================================================================== *)
(** ** The download of an image *)
(* ===================================================================== *)



(* ===================================================================== *)
(** ** What the recovery routine can raise *)
(* ===================================================================== *)


(** X9: what can go wrong in [handle_sorry_page].  When the page source can
    be read, it returns [True] or [False] whatever the refreshes, the visits
    of the home page and the clearing of the session do: their exceptions
    are dropped.  And on a page without a marker it returns [True] after
    reading the source once, having done nothing else. *)
Theorem X9_recovery_raises_only_on_page_source {W : Type} `{World W}
    (url : option string) (max_retries : nat) (st : State W) :
  ((∀ w, ∃ src w', driver_page_source w = (Ret src, w')) →
   ∃ ok, (handle_sorry_page url max_retries st).1 = Done (Ret ok))
  ∧ (∀ src w,
       driver_page_source (world st) = (Ret src, w) →
       is_sorry_page (Py.lower src) = false →
       max_retries ≠ 0%nat →
       handle_sorry_page url max_retries st
       = (Done (Ret true), set_world w (log EvPageSource st))).
Proof.
  split.
  - intros Hsrc. by apply handle_sorry_page_returns.
  - intros src w Hsrc Hok Hn. destruct max_retries as [|n]; [done|].
    unfold handle_sorry_page. cbn [seq for_in].
    unfold recovery_attempt, page_source_lower, bind, call, ret.
    rewrite Hsrc. simpl. rewrite Hok. done.
Qed.

Lemma X9_witness :
  let w := Sim.world Demo.site_blocked in
  (∃ ok, (@handle_sorry_page _ w (Some Demo.url_a) 3
            (Demo.showing Demo.dog_src [] Sim.no_files)).1 = Done (Ret ok))
  ∧ (@handle_sorry_page _ w (Some Demo.url_b) 3
       (Demo.showing "B" [] Sim.no_files)).1 = Done (Ret true).
Proof.
  intros w. split.
  - apply (@X9_recovery_raises_only_on_page_source _ w (Some Demo.url_a) 3).
    intros b. by exists (Sim.shown b), b.
  - destruct (@X9_recovery_raises_only_on_page_source _ w (Some Demo.url_b) 3
                (Demo.showing "B" [] Sim.no_files)) as [_ Hhealthy].
    rewrite (Hhealthy "B" (Sim.MkBrowser "B" [])); [reflexivity..|discriminate].
Defined.

(* ===================================================================== *)
(** ** The configuration files *)
(* ===================================================================== *)

(** X10: [load_scrape_config] returns what the parser gave, as it is,
    exactly when the file exists and holds an object with the eight
    required keys; it does not look at their values.  When a required key
    is missing it raises [ValueError], and the message names the required
    keys that are missing, those only, in the order of the list. *)
Theorem X10_config_needs_the_eight_keys
    (path : string) (path_exists : bool) (loaded : outcome ConfigFile.json) :
  (∀ cfg,
     ConfigFile.load_scrape_config path path_exists loaded = inr cfg
     ↔ path_exists = true ∧ loaded = Ret cfg
       ∧ ∃ fields, cfg = ConfigFile.JObject fields
                   ∧ Forall (fun k => is_Some (Dict.get k fields))
                       ConfigFile.required_keys)
  ∧ (∀ fields k,
       path_exists = true → loaded = Ret (ConfigFile.JObject fields) →
       k ∈ ConfigFile.required_keys → Dict.get k fields = None →
       ∃ missing,
         ConfigFile.load_scrape_config path path_exists loaded
         = inl (ConfigFile.ValueError
                  ("Scrape configuration is missing required keys: "
                   +:+ join ", " missing))
         ∧ missing = filter (fun k => Dict.get k fields = None)
                       ConfigFile.required_keys
         ∧ k ∈ missing).
Proof.
  assert (Hfilter : ∀ fields,
            filter (fun k => ConfigFile.absent fields k = true)
              ConfigFile.required_keys
            = filter (fun k => Dict.get k fields = None)
                ConfigFile.required_keys).
  { intros fields. apply list_filter_iff. intros k. unfold ConfigFile.absent.
    by destruct (Dict.get k fields). }
  split.
  - intros cfg. unfold ConfigFile.load_scrape_config.
    destruct path_exists; simpl; [|by split; [|intros (? & _)]].
    destruct loaded as [[| | | | | |fields]|e];
      try (split; [done | by intros (_ & [= <-] & fs & ? & _)]).
    rewrite Hfilter.
      destruct (filter _ ConfigFile.required_keys) as [|k missing] eqn:Hmissing.
      * split.
        -- intros [= <-]. split_and!; [done..|]. exists fields. split; [done|].
           apply Forall_forall. intros k Hk.
           destruct (Dict.get k fields) eqn:Hget; [done|].
           assert (Hin : k ∈ filter (fun k => Dict.get k fields = None)
                           ConfigFile.required_keys)
             by (by apply list_elem_of_filter).
           rewrite Hmissing in Hin. by apply elem_of_nil in Hin.
        -- by intros (_ & [= <-] & _).
      * split; [done|]. intros (_ & [= <-] & fs & [= <-] & Hall).
        assert (Hin : k ∈ filter (fun k => Dict.get k fields = None)
                        ConfigFile.required_keys)
          by (rewrite Hmissing; by left).
        apply list_elem_of_filter in Hin as [Hnone Hin].
        apply (proj1 (Forall_forall _ _) Hall) in Hin.
        rewrite Hnone in Hin. by destruct Hin.
  - intros fields k -> -> Hk Hnone. unfold ConfigFile.load_scrape_config.
    simpl. rewrite Hfilter.
    assert (Hin : k ∈ filter (fun k => Dict.get k fields = None)
                    ConfigFile.required_keys)
      by (by apply list_elem_of_filter).
    destruct (filter _ ConfigFile.required_keys) as [|k' missing] eqn:Hmissing;
      [by apply elem_of_nil in Hin|].
    exists (k' :: missing). by split_and!.
Qed.

(** At a file without two of the keys. *)
Lemma X10_witness :
  let fields :=
    [ ("BASE_DIR", ConfigFile.JString "bronze");
      ("IMAGES_DIR", ConfigFile.JString "images");
      ("TEXT_DIR", ConfigFile.JString "about_item");
      ("MAX_PER_CATEGORY", ConfigFile.JInt 100);
      ("DELAY_RANGE", ConfigFile.JArray [ConfigFile.JInt 2; ConfigFile.JInt 5]);
      ("BASE_SEARCH_URL", ConfigFile.JString "https://www.amazon.com/s?rh=n%3A") ] in
  ConfigFile.load_scrape_config "config/scrape_config.json" true
    (Ret (ConfigFile.JObject fields))
  = inl (ConfigFile.ValueError
           "Scrape configuration is missing required keys: HEADLESS, CATEGORIES").
Proof.
  intros fields.
  destruct (X10_config_needs_the_eight_keys "config/scrape_config.json" true
              (Ret (ConfigFile.JObject fields))) as [_ Hmissing].
  destruct (Hmissing fields "CATEGORIES" eq_refl eq_refl) as (missing & -> & -> & _).
  - vm_compute. set_solver.
  - reflexivity.
  - reflexivity.
Defined.

(** X21: the overrides from the environment.  They take no key away and
    touch no key but "HEADLESS", "MAX_PER_CATEGORY" and "BASE_SEARCH_URL".
    When HEADLESS is set, the flag is true exactly when the value, in lower
    case, is "1", "true" or "yes"; any other value, the empty one too,
    makes it false whatever the file says.  A MAX_PER_CATEGORY that [int]
    rejects leaves the cap of the file. *)
Theorem X21_environment_overrides
    (getenv : string → option string) (py_int : string → option Z)
    (cfg : list (string * ConfigFile.json)) :
  let cfg' := ConfigFile.env_overrides getenv py_int cfg in
  (∀ k, is_Some (Dict.get k cfg) → is_Some (Dict.get k cfg'))
  ∧ (∀ k, k ≠ "HEADLESS" → k ≠ "MAX_PER_CATEGORY" → k ≠ "BASE_SEARCH_URL" →
          Dict.get k cfg' = Dict.get k cfg)
  ∧ (∀ v, getenv "HEADLESS" = Some v →
          Dict.get "HEADLESS" cfg'
          = Some (ConfigFile.JBool
                    (bool_decide (Py.lower v ∈ ["1"; "true"; "yes"]))))
  ∧ (∀ v, getenv "MAX_PER_CATEGORY" = Some v → py_int v = None →
          Dict.get "MAX_PER_CATEGORY" cfg' = Dict.get "MAX_PER_CATEGORY" cfg).
Proof.
  cbv zeta. unfold ConfigFile.env_overrides.
  assert (Hkeep : ∀ k k' (v : ConfigFile.json) d,
            is_Some (Dict.get k d) → is_Some (Dict.get k (Dict.set k' v d))).
  { intros k k' v d Hd. destruct (decide (k = k')) as [<-|Hne].
    - by rewrite dict_get_set_eq.
    - by rewrite dict_get_set_ne. }
  split_and!.
  - intros k Hk.
    destruct (getenv "BASE_SEARCH_URL"); [apply Hkeep|];
      (destruct (getenv "MAX_PER_CATEGORY") as [v|];
       [destruct (py_int v); [apply Hkeep|]|]);
      (destruct (getenv "HEADLESS"); [by apply Hkeep | done]).
  - intros k H1 H2 H3.
    destruct (getenv "BASE_SEARCH_URL"); [rewrite dict_get_set_ne by done|];
      (destruct (getenv "MAX_PER_CATEGORY") as [v|];
       [destruct (py_int v); [rewrite dict_get_set_ne by done|]|]);
      (destruct (getenv "HEADLESS"); [by rewrite dict_get_set_ne | done]).
  - intros v ->.
    destruct (getenv "BASE_SEARCH_URL"); [rewrite dict_get_set_ne by done|];
      (destruct (getenv "MAX_PER_CATEGORY") as [m|];
       [destruct (py_int m); [rewrite dict_get_set_ne by done|]|]);
      by rewrite dict_get_set_eq.
  - intros v -> ->.
    destruct (getenv "BASE_SEARCH_URL"); [rewrite dict_get_set_ne by done|];
      (destruct (getenv "HEADLESS"); [by rewrite dict_get_set_ne | done]).
Qed.

Lemma X21_witness :
  let getenv := fun name =>
    if String.eqb name "HEADLESS" then Some "On"
    else if String.eqb name "MAX_PER_CATEGORY" then Some "ten"
    else None in
  let cfg := [ ("HEADLESS", ConfigFile.JBool true);
               ("MAX_PER_CATEGORY", ConfigFile.JInt 100) ] in
  let cfg' := ConfigFile.env_overrides getenv (fun _ => None) cfg in
  Dict.get "HEADLESS" cfg' = Some (ConfigFile.JBool false)
  ∧ Dict.get "MAX_PER_CATEGORY" cfg' = Some (ConfigFile.JInt 100).
Proof.
  intros getenv cfg cfg'.
  destruct (X21_environment_overrides getenv (fun _ => None) cfg)
    as (_ & _ & Hheadless & Hmax).
  split.
  - unfold cfg'. rewrite (Hheadless "On"); reflexivity.
  - unfold cfg'. rewrite (Hmax "ten"); reflexivity.
Defined.

(** X13: the configuration of the logger always has the four keys of the
    defaults, each once.  With a path and a file that holds an object, a
    key holds what the file gives it, and its default when the file does
    not give it; without a path, or when the file cannot be read or does
    not hold an object, the configuration is the defaults. *)
Theorem X13_logging_config_keeps_its_defaults
    (path : option string) (loaded : outcome ConfigFile.json) :
  let cfg := ConfigFile.load_config path loaded in
  Forall (fun k => is_Some (Dict.get k cfg))
    ["log_dir"; "level"; "console"; "filename_prefix"]
  ∧ NoDup (Dict.keys cfg)
  ∧ (∀ fields k,
       Py.truthy path = true → loaded = Ret (ConfigFile.JObject fields) →
       Dict.get k cfg
       = match last (filter (fun kv => kv.1 = k) fields) with
         | Some kv => Some kv.2
         | None => Dict.get k ConfigFile.logging_defaults
         end)
  ∧ (Py.truthy path = false ∨ (∀ fields, loaded ≠ Ret (ConfigFile.JObject fields)) →
     cfg = ConfigFile.logging_defaults).
Proof.
  cbv zeta. unfold ConfigFile.load_config.
  assert (Hdefaults : Forall (fun k => is_Some (Dict.get k ConfigFile.logging_defaults))
                        ["log_dir"; "level"; "console"; "filename_prefix"])
    by (repeat constructor; by eexists).
  assert (Hnodup : NoDup (Dict.keys ConfigFile.logging_defaults)).
  { unfold Dict.keys. simpl. repeat (constructor; [set_solver|]). constructor. }
  destruct (Py.truthy path); cbn [negb];
    [|split_and!; [done | done | by intros | done]].
  destruct loaded as [[| | | | | |fields]|e];
    try (split_and!; [done | done | by intros | done]).
  split_and!.
  - apply Forall_forall. intros k Hk. unfold Dict.update.
    rewrite dict_get_assignments. destruct (last _); [done|].
    by apply (proj1 (Forall_forall _ _) Hdefaults).
  - unfold Dict.keys, Dict.update. by apply dict_assignments_nodup.
  - intros fs k _ [= <-]. unfold Dict.update. apply dict_get_assignments.
  - intros [|Hnot]; [done|]. by destruct (Hnot fields).
Qed.

Lemma X13_witness :
  let fields := [ ("level", ConfigFile.JString "DEBUG");
                  ("rotate", ConfigFile.JBool true) ] in
  let cfg := ConfigFile.load_config (Some "config/logging_config.json")
               (Ret (ConfigFile.JObject fields)) in
  Dict.get "level" cfg = Some (ConfigFile.JString "DEBUG")
  ∧ Dict.get "log_dir" cfg = Some (ConfigFile.JString "logs")
  ∧ ConfigFile.load_config None (Ret (ConfigFile.JObject fields))
    = ConfigFile.logging_defaults.
Proof.
  intros fields cfg.
  destruct (X13_logging_config_keeps_its_defaults
              (Some "config/logging_config.json")
              (Ret (ConfigFile.JObject fields))) as (_ & _ & Hget & _).
  destruct (X13_logging_config_keeps_its_defaults None
              (Ret (ConfigFile.JObject fields))) as (_ & _ & _ & Hnone).
  split_and!.
  - unfold cfg. rewrite (Hget fields "level"); reflexivity.
  - unfold cfg. rewrite (Hget fields "log_dir"); reflexivity.
  - apply Hnone. by left.
Defined.

(* ===================================================================== *)
(** ** The overlay helpers *)
(* ===================================================================== *)

Section OverlayFacts.

Context {W E : Type} `{Overlay.Driver W E}.

Import Overlay.

(** A press records its element when a click returned, and nothing when
    both clicks raised. *)
Lemma press_cases e st :
  match press e st with
  | (Ret _, st') => clicked st' = clicked st ++ [e]
  | (Throw _, st') => clicked st' = clicked st
  end.
Proof.
  unfold press, op_bind, op_try, op_call, record_click.
  destruct (element_click e (browser st)) as [[[]|x] w]; simpl; [done|].
  by destruct (script_click e w) as [[[]|y] w'].
Qed.

Lemma click_first_displayed_cases els st :
  match click_first_displayed els st with
  | (Ret true, st') =>
      ∃ e w w', e ∈ els ∧ is_displayed e w = (Ret true, w')
                ∧ clicked st' = clicked st ++ [e]
  | (_, st') => clicked st' = clicked st
  end.
Proof.
  revert st. induction els as [|e els IH]; intros st; simpl; [done|].
  unfold op_bind at 1, op_call.
  destruct (is_displayed e (browser st)) as [[[|]|x] w] eqn:Hshown; simpl;
    [| |done].
  - pose proof (press_cases e (MkPage w (clicked st))) as Hpress.
    unfold op_bind. destruct (press e _) as [[[]|x] st1]; simpl in *; [|done].
    exists e, (browser st), w. split_and!; [by left | done | done].
  - specialize (IH (MkPage w (clicked st))).
    destruct (click_first_displayed els _) as [[[|]|x] st1]; simpl in *;
      [|done..].
    destruct IH as (e' & w1 & w2 & Hin & Hdisplayed & Hclicked).
    exists e', w1, w2. split_and!; [by right | done | done].
Qed.

(** One block never raises; it clicked one element when it says so, and
    none otherwise. *)
Lemma try_xpath_cases xpath st :
  ∃ b st', try_xpath xpath st = (Ret b, st')
           ∧ if b then ∃ e, found_displayed xpath e
                            ∧ clicked st' = clicked st ++ [e]
             else clicked st' = clicked st.
Proof.
  unfold try_xpath, op_try, op_bind, op_call, op_ret.
  destruct (find_elements xpath (browser st)) as [[els|x] w] eqn:Hfind; simpl;
    [|by exists false, (MkPage w (clicked st))].
  pose proof (click_first_displayed_cases els (MkPage w (clicked st))) as Hloop.
  destruct (click_first_displayed els _) as [[[|]|x] st1]; simpl in *.
  - exists true, st1. split; [done|].
    destruct Hloop as (e & w1 & w2 & Hin & Hdisplayed & Hclicked).
    exists e. split; [|done]. by exists (browser st), els, w, w1, w2.
  - by exists false, st1.
  - by exists false, st1.
Qed.

End OverlayFacts.

(** X11: [click_continue_shopping_if_present] never raises, whatever the
    calls on the driver and on the elements do.  It returns [True] exactly
    when a click on one element returned, directly or through the script:
    an element that one of the two XPaths found and that was displayed; and
    it clicks no second element.  When it returns [False] no click
    returned. *)
Theorem X11_continue_shopping_clicks_at_most_once {W E : Type}
    `{Overlay.Driver W E} (st : Overlay.Page) :
  ∃ ok st',
    Overlay.click_continue_shopping_if_present st = (Ret ok, st')
    ∧ if ok
      then ∃ e,
             (Overlay.found_displayed Overlay.exact_xpath e
              ∨ Overlay.found_displayed Overlay.tolerant_xp e)
             ∧ Overlay.clicked st' = Overlay.clicked st ++ [e]
      else Overlay.clicked st' = Overlay.clicked st.
Proof.
  unfold Overlay.click_continue_shopping_if_present, Overlay.op_try,
    Overlay.op_bind, Overlay.op_ret.
  destruct (try_xpath_cases Overlay.exact_xpath st) as (b1 & st1 & -> & H1).
  destruct b1.
  { exists true, st1. split; [done|]. destruct H1 as (e & He & Hclicked).
    exists e. auto. }
  destruct (try_xpath_cases Overlay.tolerant_xp st1) as (b2 & st2 & -> & H2).
  exists b2, st2. split; [done|]. rewrite <- H1. destruct b2; [|done].
  destruct H2 as (e & He & Hclicked). exists e. auto.
Qed.

(** X12: [expand_details] never raises.  It clicks, through the script, the
    one element it found when the class of the element has
    "a-expander-collapsed" in it, and nothing in every other case: no
    element, no class, another class, or a call that raised. *)
Theorem X12_expand_details_clicks_only_when_collapsed {W E : Type}
    `{Overlay.Driver W E} (st : Overlay.Page) :
  ∃ st',
    Overlay.expand_details st = (Ret tt, st')
    ∧ (Overlay.clicked st' = Overlay.clicked st
       ∨ ∃ btn w c w',
           Overlay.find_element Overlay.details_xpath (Overlay.browser st)
           = (Ret btn, w)
           ∧ Overlay.get_class btn w = (Ret (Some c), w')
           ∧ Py.contains "a-expander-collapsed" c = true
           ∧ Overlay.clicked st' = Overlay.clicked st ++ [btn]).
Proof.
  unfold Overlay.expand_details, Overlay.op_try, Overlay.op_bind,
    Overlay.op_call, Overlay.op_ret, Overlay.op_throw, Overlay.record_click.
  destruct (Overlay.find_element _ (Overlay.browser st)) as [[btn|x] w] eqn:Hfind;
    simpl; [|by eexists; split; [|left]].
  destruct (Overlay.get_class btn w) as [[[c|]|x] w'] eqn:Hclass;
    simpl; [|by eexists; split; [|left]..].
  destruct (Py.contains "a-expander-collapsed" c) eqn:Hcollapsed;
    simpl; [|by eexists; split; [|left]].
  destruct (Overlay.script_click btn w') as [[[]|x] w''];
    simpl; [|by eexists; split; [|left]].
  eexists. split; [done|]. right. by exists btn, w, c, w'.
Qed.

(* ===================================================================== *)
(** ** The columns of a record, and the brand *)
(* ===================================================================== *)

Lemma filter_agree {A} (P Q : A → Prop) `{!∀ x, Decision (P x)}
    `{!∀ x, Decision (Q x)} (l : list A) :
  (∀ x, x ∈ l → (P x ↔ Q x)) → filter P l = filter Q l.
Proof.
  induction l as [|x l IH]; intros Hagree; [done|].
  assert (Hl : filter P l = filter Q l)
    by (apply IH; intros y Hy; apply Hagree; by right).
  destruct (decide (P x)) as [HP|HP].
  - rewrite !filter_cons_True; [by rewrite Hl | by apply Hagree; [left|] | done].
  - rewrite !filter_cons_False; [done | | done].
    intros HQ. apply HP. apply Hagree; [by left | done].
Qed.

(** Assignments to distinct keys keep the keys a dict has where they are
    and put the new ones after them, in the order of the assignments. *)
Lemma dict_assignments_new_keys {V} (kvs : list (string * V)) d :
  NoDup kvs.*1 →
  (foldl (fun acc kv => Dict.set kv.1 kv.2 acc) d kvs).*1
  = d.*1 ++ filter (fun k => k ∉ d.*1) kvs.*1.
Proof.
  revert d. induction kvs as [|[k v] kvs IH]; intros d Hnodup.
  - by rewrite app_nil_r.
  - rewrite fmap_cons in Hnodup. apply NoDup_cons in Hnodup as [Hk Hnodup].
    cbn [foldl fst snd]. rewrite IH by done. rewrite dict_keys_set, fmap_cons.
    cbn [fst]. case_bool_decide as Hin.
    + by rewrite filter_cons_False by (by intros ?).
    + rewrite filter_cons_True by done. rewrite <- app_assoc. f_equal.
      cbn [app]. f_equal. apply filter_agree. intros k' Hk'.
      rewrite elem_of_app, list_elem_of_singleton.
      split; [tauto|]. intros Hd [?| ->]; done.
Qed.

(** After [d.update(d2)] a key holds what [d2] has for it, and what [d] had
    when [d2] does not have it. *)
Lemma dict_get_update {V} k (d d2 : list (string * V)) :
  NoDup d2.*1 →
  Dict.get k (Dict.update d d2)
  = match Dict.get k d2 with
    | Some v => Some v
    | None => Dict.get k d
    end.
Proof.
  unfold Dict.update. revert d.
  induction d2 as [|[k2 v2] d2 IH]; intros d Hnodup; [done|].
  rewrite fmap_cons in Hnodup. apply NoDup_cons in Hnodup as [Hk2 Hnodup].
  cbn [foldl fst snd Dict.get]. rewrite IH by done.
  destruct (String.eqb_spec k k2) as [->|Hne].
  - rewrite (dict_get_not_key k2 d2) by done. apply dict_get_set_eq.
  - destruct (Dict.get k d2); [done|]. by apply dict_get_set_ne.
Qed.

Lemma extract_product_details_nodup soup :
  NoDup (Dict.keys (extract_product_details soup)).
Proof.
  rewrite extract_product_details_fold. by apply dict_assignments_nodup, NoDup_nil_2.
Qed.

Lemma dict_get_fmap_value {A B} (f : A → B) k (d : list (string * A)) :
  Dict.get k ((fun kv => (kv.1, f kv.2)) <$> d) = f <$> Dict.get k d.
Proof.
  induction d as [|[k' v'] d IH]; simpl; [done|].
  by destruct (String.eqb k k').
Qed.

(** X16: the columns and the values of a record.  Every record starts with
    the seven columns id, url, title, price, rating, brand, color, in that
    order; the keys of the product facts that are not among them follow, in
    the order of the facts.  The row has one cell per column.  Every product
    fact is in the record under its key with its value: a fact whose key is
    the name of one of the seven columns takes the place of the extracted
    value and adds no column.  A column without a fact of its name holds the
    extracted value. *)
Theorem X16_records_start_with_the_base_columns
    (pid url : string) (soup : Soup) (data : list (string * option string)) :
  build_data pid url soup = Ret data →
  let facts := extract_product_details soup in
  ∃ rating,
    extract_rating soup = Ret rating
    ∧ header_of data
      = base_columns ++ filter (fun k => k ∉ base_columns) (Dict.keys facts)
    ∧ length (row_of data) = length (header_of data)
    ∧ (∀ k v, Dict.get k facts = Some v → Dict.get k data = Some (Some v))
    ∧ (∀ k, Dict.get k facts = None →
         Dict.get k data
         = Dict.get k [ ("id", Some pid); ("url", Some url);
                        ("title", Some (extract_title soup));
                        ("price", extract_price soup);
                        ("rating", Some rating);
                        ("brand", Some (extract_brand soup));
                        ("color", Some (extract_color soup)) ]).
Proof.
  unfold build_data. destruct (extract_rating soup) as [rating|e]; [|done].
  intros [= <-]. set (facts := extract_product_details soup).
  exists rating. split; [done|].
  pose proof (extract_product_details_nodup soup) as Hnodup. fold facts in Hnodup.
  assert (Hkeys : ((fun kv : string * string => (kv.1, Some kv.2)) <$> facts).*1
                  = Dict.keys facts).
  { unfold Dict.keys. rewrite <- list_fmap_compose. done. }
  split_and!.
  - unfold header_of, Dict.keys at 1, Dict.update.
    rewrite dict_assignments_new_keys by (by rewrite Hkeys).
    by rewrite Hkeys.
  - unfold row_of, header_of, Dict.keys, Dict.values. by rewrite !length_fmap.
  - intros k v Hk. rewrite dict_get_update by (by rewrite Hkeys).
    by rewrite dict_get_fmap_value, Hk.
  - intros k Hk. rewrite dict_get_update by (by rewrite Hkeys).
    by rewrite dict_get_fmap_value, Hk.
Qed.

(** On a page with a fact labelled "ID" and a fact labelled "Fit type". *)
Lemma X16_witness :
  let data :=
    [("id", Some "SKU-1"); ("url", Some Demo.url_a); ("title", Some "Jeans A");
     ("price", None); ("rating", Some "4.5"); ("brand", Some "N/A");
     ("color", Some "N/A"); ("fit_type", Some "Slim")] in
  header_of data = base_columns ++ ["fit_type"]
  ∧ length (row_of data) = length (header_of data)
  ∧ Dict.get "id" data = Some (Some "SKU-1")
  ∧ Dict.get "fit_type" data = Some (Some "Slim")
  ∧ Dict.get "url" data = Some (Some Demo.url_a).
Proof.
  intros data.
  destruct (X16_records_start_with_the_base_columns Demo.pid_a Demo.url_a
              Demo.product_two_facts data eq_refl)
    as (rating & Hrating & Hheader & Hlength & Hfact & Hbase).
  split_and!.
  - exact Hheader.
  - exact Hlength.
  - apply Hfact. reflexivity.
  - apply Hfact. reflexivity.
  - rewrite Hbase; reflexivity.
Defined.

Lemma append_nil_l s : "" +:+ s = s.
Proof. done. Qed.

Lemma append_nil_r s : s +:+ "" = s.
Proof. induction s as [|c s IH]; [done|]. by rewrite append_cons, IH. Qed.

Lemma prefix_app_self a b : String.prefix a (a +:+ b) = true.
Proof.
  induction a as [|c a IH]; [by destruct b|].
  rewrite append_cons, prefix_cons. by destruct (ascii_dec c c).
Qed.

(** The bytes of an occurrence that remain to be dropped are dropped. *)
Lemma replace_go_skip old new a b :
  Py.replace_go old new (String.length a) (a +:+ b) = Py.replace_go old new 0 b.
Proof.
  induction a as [|c a IH]; [done|]. rewrite append_cons. exact IH.
Qed.

(** An occurrence at the head is replaced. *)
Lemma replace_head old new b :
  old ≠ "" → Py.replace old new (old +:+ b) = new +:+ Py.replace old new b.
Proof.
  intros Hold. destruct old as [|o old]; [done|]. unfold Py.replace.
  rewrite append_cons. cbn [Py.replace_go].
  rewrite <- append_cons, prefix_app_self. f_equal.
  cbn [String.length]. rewrite Nat.sub_succ, Nat.sub_0_r.
  apply replace_go_skip.
Qed.

(** A string without an occurrence is left as it is. *)
Lemma replace_absent old new s :
  Py.contains old s = false → Py.replace old new s = s.
Proof.
  unfold Py.replace. induction s as [|c s IH]; [done|].
  rewrite contains_unfold. intros [Hhere Hlater]%orb_false_iff.
  cbn [Py.replace_go]. rewrite Hhere. f_equal. by apply IH.
Qed.

(** The first occurrence is replaced where it is, for a word that does not
    overlap itself. *)
Lemma replace_first old new a b :
  old ≠ "" →
  (∀ q r, String.prefix old (q +:+ old +:+ r) = true →
          q = "" ∨ String.prefix old q = true) →
  Py.contains old a = false →
  Py.replace old new (a +:+ old +:+ b) = a +:+ new +:+ Py.replace old new b.
Proof.
  intros Hold Hborder. induction a as [|c a IH]; intros Hfree.
  - rewrite !append_nil_l. by apply replace_head.
  - rewrite contains_unfold in Hfree.
    apply orb_false_iff in Hfree as [Hhere Hlater].
    rewrite !append_cons. unfold Py.replace. cbn [Py.replace_go].
    destruct (String.prefix old (String c (a +:+ old +:+ b))) eqn:Hpre.
    + apply (Hborder (String c a) b) in Hpre as [?|Hpre]; [done|congruence].
    + f_equal. by apply IH.
Qed.

(** A string without an occurrence has none after a suffix is added, when
    no occurrence can begin in the string and end in the suffix. *)
Lemma contains_app_suffix old t s :
  (∀ q, String.prefix old (q +:+ s) = true → String.prefix old q = true) →
  Py.contains old s = false →
  Py.contains old t = false → Py.contains old (t +:+ s) = false.
Proof.
  intros Hstraddle Hs. induction t as [|c t IH]; intros Ht; [done|].
  rewrite contains_unfold in Ht. apply orb_false_iff in Ht as [Hhere Hlater].
  rewrite append_cons, contains_unfold. apply orb_false_iff. split; [|by apply IH].
  destruct (String.prefix old (String c (t +:+ s))) eqn:Hpre; [|done].
  apply (Hstraddle (String c t)) in Hpre. congruence.
Qed.

Lemma prefix_store_app q r :
  String.prefix "Store" (q +:+ "Store" +:+ r) = true →
  q = "" ∨ String.prefix "Store" q = true.
Proof.
  destruct q as [|c1 [|c2 [|c3 [|c4 [|c5 q]]]]]; auto;
    rewrite ?append_cons, ?prefix_cons;
    repeat (destruct (ascii_dec _ _); try done); auto.
  intros _. right. by destruct q.
Qed.

Lemma prefix_visit_store q :
  String.prefix "Visit the" (q +:+ "Store") = true →
  String.prefix "Visit the" q = true.
Proof.
  destruct q as [|c1 [|c2 [|c3 [|c4 [|c5 [|c6 [|c7 [|c8 [|c9 q]]]]]]]]];
    rewrite ?append_cons, ?append_nil_l, ?prefix_cons;
    repeat (destruct (ascii_dec _ _); try done).
  intros _. by destruct q.
Qed.

(** X17: the brand is the name in the byline.  Without a byline it is
    "N/A".  With one, [extract_brand] removes the phrases "Visit the",
    "Store" and "Brand:" and strips the white space around what is left: for
    a text [t] in which none of the phrases occurs, the bylines [t],
    "Visit the" [t] "Store" and "Brand:" [t] all give [t] stripped. *)
Theorem X17_brand_is_the_name_in_the_byline (soup : Soup) (t : string) :
  (sel_byline soup = None → extract_brand soup = "N/A")
  ∧ (phrase_free t →
     (sel_byline soup = Some t → extract_brand soup = Py.strip t)
     ∧ (sel_byline soup = Some ("Visit the" +:+ t +:+ "Store") →
        extract_brand soup = Py.strip t)
     ∧ (sel_byline soup = Some ("Brand:" +:+ t) →
        extract_brand soup = Py.strip t)).
Proof.
  unfold extract_brand. split; [by intros ->|].
  intros (Hvisit & Hstore & Hbrand). split_and!; intros ->.
  - rewrite (replace_absent "Visit the") by done.
    rewrite (replace_absent "Store") by done.
    by rewrite (replace_absent "Brand:").
  - rewrite (replace_head "Visit the") by done. rewrite append_nil_l.
    rewrite (replace_absent "Visit the")
      by (apply contains_app_suffix; [apply prefix_visit_store | done | done]).
    change (t +:+ "Store") with (t +:+ "Store" +:+ "").
    rewrite (replace_first "Store" "" t "")
      by (done || apply prefix_store_app).
    rewrite append_nil_l, (replace_absent "Store" "" "") by done.
    rewrite append_nil_r. by rewrite replace_absent.
  - rewrite (replace_absent "Visit the") by (cbn; exact Hvisit).
    rewrite (replace_absent "Store") by (cbn; exact Hstore).
    rewrite (replace_head "Brand:") by done. rewrite append_nil_l.
    by rewrite replace_absent.
Qed.

(** On the two forms of the byline, the second with a no-break space
    (U+00A0, the bytes 194 and 160) after the colon. *)
Lemma X17_witness :
  extract_brand
    (MkSoup None None None None None (Some "Visit the Levi's Store") None
       [] None None [])
  = "Levi's"
  ∧ extract_brand
      (MkSoup None None None None None
         (Some ("Brand:" +:+ String "194" (String "160" "Acme"))) None
         [] None None [])
    = "Acme".
Proof.
  split.
  - destruct (X17_brand_is_the_name_in_the_byline
                (MkSoup None None None None None (Some "Visit the Levi's Store")
                   None [] None None []) " Levi's ") as [_ Hname].
    destruct Hname as (_ & Hstore & _); [by split_and!|].
    rewrite Hstore; reflexivity.
  - destruct (X17_brand_is_the_name_in_the_byline
                (MkSoup None None None None None
                   (Some ("Brand:" +:+ String "194" (String "160" "Acme"))) None
                   [] None None [])
                (String "194" (String "160" "Acme"))) as [_ Hname].
    destruct Hname as (_ & _ & Hbrand); [by split_and!|].
    rewrite Hbrand; reflexivity.
Defined.

(* ===================================================================== *)
(** ** The loop over the listing pages *)
(* ===================================================================== *)

Section Paging.

Context {W : Type} `{World W} (cfg : Config).

#[export] Instance same_page_preorder : PreOrder (@same_page W).
Proof. split; [done|]. intros x y z Hxy Hyz. unfold same_page in *. congruence. Qed.

#[export] Instance same_page_blind : Blind (@same_page W).
Proof. split; done. Qed.

Lemma respects_same_page_items csv items :
  respects same_page (for_in items (scrape_item cfg csv)).
Proof.
  unfold scrape_item, visit_product, wait_and_extract, extract_and_save,
    append_to_csv, save_image, save_about_text, download_image.
  repeat first [ apply respects_handle_sorry_page | apply respects_random_delay
               | respects_step ].
  all: done.
Qed.

Lemma finishes_items csv items : finishes (for_in items (scrape_item cfg csv)).
Proof. apply finishes_for_in. intros item. apply finishes_scrape_item. Qed.

(** An iteration of the loop that does not end it has turned one page. *)
Lemma scrape_page_cases csv st :
  match scrape_page cfg csv st with
  | (Done (Ret Next), st') => page st' = page st + 1
  | (OutOfFuel, _) => False
  | (_, st') => page st' = page st
  end.
Proof.
  set (Q := fun r : result (ctl unit) * State W =>
    match r with
    | (Done (Ret Next), st') => page st' = page st + 1
    | (OutOfFuel, _) => False
    | (_, st') => page st' = page st
    end).
  change (Q (scrape_page cfg csv st)). unfold scrape_page, scroll_randomly.
  assert (Hthrow : ∀ e st1, same_page st st1 → Q (Done (Throw e), st1)) by done.
  apply (bind_post same_page _ _ Q st);
    [eauto with respects typeclass_instances | eauto with finishes
    | done | done |].
  intros _ st1 H1.
  apply (bind_post same_page _ _ Q st);
    [eauto with respects typeclass_instances | eauto with finishes
    | done | done |].
  intros src st2 H2.
  destruct (sel_items (BeautifulSoup src)) as [|item items]; [exact H2|].
  apply (bind_post same_page _ _ Q st);
    [apply respects_same_page_items | apply finishes_items | done | done |].
  intros _ st3 H3.
  unfold try_except, bind, call, modify, ret.
  destruct (driver_click_next (world st3)) as [[[]|e] w]; simpl.
  - unfold same_page in H3. simpl. lia.
  - exact H3.
Qed.

Lemma crawl_loop_step fuel csv st :
  while_ (S fuel)
    (bind (gets total_scraped)
          (fun total => ret (total <? MAX_PER_CATEGORY cfg)))
    (scrape_page cfg csv) st
  = if total_scraped st <? MAX_PER_CATEGORY cfg
    then bind (scrape_page cfg csv)
           (fun b => match b with
                     | Next =>
                         while_ fuel
                           (bind (gets total_scraped)
                                 (fun total => ret (total <? MAX_PER_CATEGORY cfg)))
                           (scrape_page cfg csv)
                     | _ => ret tt
                     end) st
    else (Done (Ret tt), st).
Proof. cbn [while_]. unfold bind at 1 2, gets, ret. by destruct (_ <? _). Qed.

Lemma crawl_loop_out_of_fuel fuel csv st :
  let r := while_ fuel
             (bind (gets total_scraped)
                   (fun total => ret (total <? MAX_PER_CATEGORY cfg)))
             (scrape_page cfg csv) st in
  r.1 = OutOfFuel → page r.2 = page st + Z.of_nat fuel.
Proof.
  cbv zeta. revert st. induction fuel as [|fuel IH]; intros st.
  - simpl. lia.
  - rewrite crawl_loop_step.
    destruct (total_scraped st <? MAX_PER_CATEGORY cfg); [|done].
    pose proof (scrape_page_cases csv st) as Hpage. unfold bind at 1 3.
    destruct (scrape_page cfg csv st) as [[[[| |[]]|e]|] st1]; try done.
    intros Hfuel. rewrite (IH st1 Hfuel). lia.
Qed.

End Paging.

(** X15: the loop over the listing pages goes on only by turning a page.
    When a run of [scrape_category] reaches the bound of [fuel] iterations,
    the page counter is at [fuel + 1]: each of the iterations ended with a
    click on "Next" that returned. *)
Theorem X15_the_loop_goes_on_by_turning_pages {W : Type} `{World W}
    (cfg : Config) (fuel : nat) (name node : string) (st : State W) :
  (scrape_category cfg fuel name node st).1 = OutOfFuel →
  page (scrape_category cfg fuel name node st).2 = 1 + Z.of_nat fuel.
Proof.
  intros Hfuel.
  destruct (scrape_category_loop cfg fuel name node st)
    as [[[e He] _] | (ids0 & st0 & _ & _ & _ & _ & Hpage & Hrun)];
    [congruence|].
  rewrite Hrun in Hfuel |- *.
  rewrite (crawl_loop_out_of_fuel cfg fuel (csv_path cfg name) st0 Hfuel).
  by rewrite Hpage.
Qed.

Lemma X15_witness :
  page (@scrape_category _ (Sim.world site_endless) (Demo.cfg 10) 3 "jeans" "42"
          (Sim.start Sim.no_files)).2
  = 1 + Z.of_nat 3.
Proof.
  apply (@X15_the_loop_goes_on_by_turning_pages _ (Sim.world site_endless)).
  vm_compute. reflexivity.
Defined.

(* ===================================================================== *)
(** ** The pause after a visit *)
(* ===================================================================== *)

Section Pause.

Context {W : Type} `{World W} (cfg : Config).

(** A pause that returns is the last call recorded. *)
Lemma random_delay_is_last st :
  (random_delay cfg st).1 = Done (Ret tt) →
  ∃ a b u, DELAY_RANGE cfg = [a; b]
           ∧ last (trace (random_delay cfg st).2) = Some (EvSleep (uniform a b u)).
Proof.
  unfold random_delay.
  destruct (DELAY_RANGE cfg) as [|a [|b [|c range]]]; try done.
  unfold bind, random_random_, time_sleep.
  destruct (random_random (world st)) as [u w]. simpl.
  destruct (negb (fits_nanoseconds (uniform a b u))); [done|].
  destruct (Qle_bool 0 (uniform a b u)); [|done].
  intros _. exists a, b, u. split; [done|]. unfold call.
  destruct (system_sleep (uniform a b u) _). simpl. by rewrite last_snoc.
Qed.

End Pause.

(** X18: the visit of a product page ends with a pause.  When
    [visit_product] returns, whether it saved the product, found no title
    or gave the page up, the last call it made is a [time.sleep] of a length
    drawn from [DELAY_RANGE]. *)
Theorem X18_every_visit_ends_with_a_pause {W : Type} `{World W}
    (cfg : Config) (csv pid url : string) (st : State W) :
  (visit_product cfg csv pid url st).1 = Done (Ret tt) →
  ∃ a b u,
    DELAY_RANGE cfg = [a; b]
    ∧ last (trace (visit_product cfg csv pid url st).2)
      = Some (EvSleep (uniform a b u)).
Proof.
  set (Q := fun r : result unit * State W =>
    r.1 = Done (Ret tt) →
    ∃ a b u, DELAY_RANGE cfg = [a; b]
             ∧ last (trace r.2) = Some (EvSleep (uniform a b u))).
  change (Q (visit_product cfg csv pid url st)).
  assert (Hpause : ∀ st1, Q (random_delay cfg st1))
    by (intros st1 Hret; exact (random_delay_is_last cfg st1 Hret)).
  unfold visit_product, wait_and_extract, extract_and_save.
  repeat first
    [ apply Hpause
    | apply (bind_elim _ _ Q); [intros ? ? _ | by intros | by intros]
    | match goal with |- Q ((if ?b then _ else _) _) => destruct b end ].
Qed.

Lemma X18_witness :
  ∃ a b u,
    DELAY_RANGE (Demo.cfg 10) = [a; b]
    ∧ last (trace (@visit_product _ (Sim.world Demo.site_two) (Demo.cfg 10)
                     Demo.csv_jeans Demo.pid_a Demo.url_a
                     (Sim.start Sim.no_files)).2)
      = Some (EvSleep (uniform a b u)).
Proof.
  apply (@X18_every_visit_ends_with_a_pause _ (Sim.world Demo.site_two)).
  vm_compute. reflexivity.
Defined.

(* ===================================================================== *)
(** ** The files of a whole run *)
(* ===================================================================== *)

Section MainFrame.

Context {W : Type} `{World W} (cfg : Config).

#[export] Instance nothing_lost_but_preorder paths :
  PreOrder (nothing_lost_but (W:=W) paths).
Proof.
  split.
  - intros st. by split_and!.
  - intros x y z (Hc1 & Ht1 & Hi1) (Hc2 & Ht2 & Hi2). split_and!.
    + intros p Hp. by rewrite Hc2, Hc1.
    + auto.
    + auto.
Qed.

#[export] Instance nothing_lost_but_blind paths :
  Blind (nothing_lost_but (W:=W) paths).
Proof. split; intros; by split_and!. Qed.

Lemma respects_scrape_categories fuel paths categories :
  Forall (fun c => csv_path cfg c.1 ∈ paths) categories →
  respects (nothing_lost_but paths) (scrape_categories cfg fuel categories).
Proof.
  unfold scrape_categories.
  induction 1 as [|[name node] categories Hin _ IH]; cbn [for_in].
  - respects_step.
  - apply respects_bind; [apply _ | | intros [| |r]; [exact IH | respects_step..]].
    apply respects_bind; [apply _ | | intros _; respects_step].
    eapply respects_weaken;
      [|apply (respects_nothing_lost_scrape_category cfg _ fuel name node eq_refl)].
    intros st st' (Hcsv & Htext & Himage). split_and!; [|done..].
    intros p Hp. apply Hcsv. intros ->. done.
Qed.

End MainFrame.

(** X19: a whole run touches no CSV file but those of the configured
    categories, and removes no text file and no image, whatever the site
    serves and whatever fails on the way. *)
Theorem X19_a_run_touches_the_category_files_only {W : Type} `{World W}
    (cfg : Config) (fuel : nat) (st : State W) :
  let st' := (main cfg fuel st).2 in
  (∀ p, p ∉ category_files cfg →
        csv_files (files st') !! p = csv_files (files st) !! p)
  ∧ (∀ p, is_Some (text_files (files st) !! p) →
          is_Some (text_files (files st') !! p))
  ∧ (∀ p, is_Some (image_files (files st) !! p) →
          is_Some (image_files (files st') !! p)).
Proof.
  assert (Hmain : respects (nothing_lost_but (category_files cfg)) (main cfg fuel)).
  { unfold main.
    repeat first
      [ apply respects_scrape_categories | respects_step ].
    apply Forall_forall. intros c Hc. unfold category_files.
    apply list_elem_of_fmap. by exists c. }
  exact (Hmain st).
Qed.

Lemma X19_witness :
  csv_files
    (files (@main _ (Sim.world Demo.site_two) (Demo.cfg 10) 5
              (Sim.start files_two_categories)).2)
    !! "bronze/shirts_bronze.csv"
  = csv_files (files (Sim.start files_two_categories)) !! "bronze/shirts_bronze.csv".
Proof.
  apply (@X19_a_run_touches_the_category_files_only _ (Sim.world Demo.site_two)
           (Demo.cfg 10) 5 (Sim.start files_two_categories)).
  vm_compute. intros Hin. repeat (apply elem_of_cons in Hin as [Hin|Hin]; [discriminate|]).
  by apply elem_of_nil in Hin.
Defined.

(* ===================================================================== *)
(** ** The pages a crawl loads *)
(* ===================================================================== *)

Section FetchRules.

Context {W : Type} `{World W}.

#[export] Instance both_preorder (R1 R2 : relation (State W))
  `{!PreOrder R1} `{!PreOrder R2} : PreOrder (both R1 R2).
Proof.
  split.
  - intros st. split; reflexivity.
  - intros x y z [H1 H2] [H3 H4]. split; etrans; eauto.
Qed.

Lemma respects_both {A} (R1 R2 : relation (State W)) (m : M W A) :
  respects R1 m → respects R2 m → respects (both R1 R2) m.
Proof. intros H1 H2 st. split; [apply H1 | apply H2]. Qed.

Context (known : gset string) (allowed : string → Prop).

#[export] Instance fetches_preorder : PreOrder (fetches (W:=W) known allowed).
Proof.
  split.
  - intros st Hk. split; [done|]. exists []. by rewrite app_nil_r.
  - intros x y z Hxy Hyz Hk.
    destruct (Hxy Hk) as (Hk' & evs1 & Ht1 & Hok1).
    destruct (Hyz Hk') as (Hk'' & evs2 & Ht2 & Hok2).
    split; [done|]. exists (evs1 ++ evs2).
    split; [by rewrite Ht2, Ht1, app_assoc | by apply Forall_app].
Qed.

(** A step that records nothing and takes no identifier away. *)
Lemma fetches_quiet (st st' : State W) :
  trace st' = trace st → scraped_ids st ⊆ scraped_ids st' →
  fetches known allowed st st'.
Proof.
  intros Ht Hids Hk. split; [set_solver|]. exists []. by rewrite app_nil_r.
Qed.

(** A step that records one call. *)
Lemma fetches_log (st st' : State W) ev :
  fetch_ok allowed ev → trace st' = trace st ++ [ev] →
  scraped_ids st ⊆ scraped_ids st' →
  fetches known allowed st st'.
Proof.
  intros Hev Ht Hids Hk. split; [set_solver|]. exists [ev].
  split; [done | by constructor].
Qed.

Lemma respects_call_fetch {A} ev (op : W → outcome A * W) :
  fetch_ok allowed ev → respects (fetches known allowed) (call ev op).
Proof.
  intros Hev st Hk. unfold call. destruct (op (world st)) as [r w]. simpl.
  split; [done|]. exists [ev]. split; [done | by constructor].
Qed.

Lemma respects_call_total_fetch {A} ev (op : W → A * W) :
  fetch_ok allowed ev → respects (fetches known allowed) (call_total ev op).
Proof.
  intros Hev st Hk. unfold call_total. destruct (op (world st)) as [r w]. simpl.
  split; [done|]. exists [ev]. split; [done | by constructor].
Qed.

Lemma respects_fetches_random_delay cfg :
  respects (fetches known allowed) (random_delay cfg).
Proof.
  unfold random_delay.
  destruct (DELAY_RANGE cfg) as [|a [|b [|c range]]];
    try (apply respects_throw; apply _).
  apply respects_bind; [apply _ | |intros u].
  - intros st. unfold random_random_. destruct (random_random (world st)).
    by apply fetches_quiet.
  - unfold time_sleep.
    destruct (negb (fits_nanoseconds (uniform a b u)));
      [apply respects_throw; apply _|].
    destruct (Qle_bool 0 (uniform a b u));
      [|apply respects_throw; apply _].
    intros st Hk. unfold call.
    destruct (system_sleep (uniform a b u) (world st)). simpl.
    split; [done|]. exists [EvSleep (uniform a b u)].
    split; [done | by constructor].
Qed.

End FetchRules.

(** One step of a proof that a computation loads allowed URLs only. *)
Ltac fetch_step :=
  lazymatch goal with
  | |- respects (fetches _ _) (call _ _) =>
      apply respects_call_fetch; simpl; auto
  | |- respects (fetches _ _) (call_total _ _) =>
      apply respects_call_total_fetch; simpl; auto
  | |- respects (fetches _ _) (random_delay _) =>
      apply respects_fetches_random_delay
  | |- respects (fetches _ _) (modify _) =>
      apply respects_modify; intros ?;
      first [ apply fetches_quiet; simpl; [done | set_solver]
            | eapply fetches_log; simpl; [ | reflexivity | set_solver]; done ]
  | |- _ => respects_step
  end.

Section FetchCrawl.

Context {W : Type} `{World W} (cfg : Config).
Context (known : gset string) (allowed : string → Prop).

Lemma respects_fetches_handle_sorry_page url n :
  allowed home_url →
  (Py.truthy url = true → allowed (default "" url)) →
  respects (fetches known allowed) (handle_sorry_page url n).
Proof.
  intros Hhome Hurl.
  unfold handle_sorry_page, recovery_attempt, refresh_page, clear_session,
    page_source_lower.
  repeat first
    [ match goal with
      | |- respects _ (if Py.truthy url then _ else _) =>
          destruct (Py.truthy url) eqn:Htruthy
      end
    | fetch_step ].
Qed.

(** The visit of a product loads its URL and the home page only. *)
Lemma respects_fetches_visit_product csv pid url :
  allowed home_url → allowed url →
  respects (fetches known allowed) (visit_product cfg csv pid url).
Proof.
  intros Hhome Hurl.
  unfold visit_product, wait_and_extract, extract_and_save, append_to_csv,
    save_image, save_about_text, download_image.
  repeat first
    [ apply respects_fetches_handle_sorry_page; [done | by intros _]
    | fetch_step ].
Qed.

End FetchCrawl.

Section KnownProducts.

Context {W : Type} `{World W} (cfg : Config) (ids0 : gset string).

Lemma respects_fetches_scrape_item csv item :
  respects (fetches ids0 (in_loop ids0)) (scrape_item cfg csv item).
Proof.
  intros st Hk. unfold scrape_item. rewrite bind_gets.
  destruct (MAX_PER_CATEGORY cfg <=? total_scraped st);
    [by apply (reflexivity (R:=fetches ids0 (in_loop ids0)))|].
  destruct (negb (Py.truthy item) || negb (Py.contains "/dp/" (default "" item)));
    [by apply (reflexivity (R:=fetches ids0 (in_loop ids0)))|].
  rewrite bind_gets. case_bool_decide as Hin;
    [by apply (reflexivity (R:=fetches ids0 (in_loop ids0)))|].
  rewrite bind_const_state.
  apply respects_fetches_visit_product; [by left | right; set_solver | done].
Qed.

Lemma respects_fetches_crawl_loop fuel csv :
  respects (fetches ids0 (in_loop ids0))
    (while_ fuel
       (bind (gets total_scraped) (fun total => ret (total <? MAX_PER_CATEGORY cfg)))
       (scrape_page cfg csv)).
Proof.
  apply respects_while; [apply _ | repeat fetch_step |].
  unfold scrape_page, scroll_randomly.
  repeat first [ apply respects_fetches_scrape_item | fetch_step ].
Qed.

Lemma fetches_none_quiet allowed (st st' : State W) :
  trace st' = trace st → fetches ∅ allowed st st'.
Proof. intros Ht _. split; [set_solver|]. exists []. by rewrite app_nil_r. Qed.

Lemma respects_fetches_load_scraped_ids allowed csv :
  respects (fetches ∅ allowed) (load_scraped_ids csv).
Proof.
  intros st. unfold load_scraped_ids. rewrite bind_gets.
  destruct (csv_files (files st) !! csv) as [rows|]; [|reflexivity].
  revert st. change (respects (fetches ∅ allowed)
    (bind (call (EvOpen csv) (open_file csv))
          (fun _ => lift (id_column (DictReader rows))))).
  repeat fetch_step.
Qed.

(** The crawl of a category up to its loop: it writes nothing and loads
    the search page, and the home page when a refresh raises. *)
Lemma scrape_category_prelude fuel name node st :
  let csv := csv_path cfg name in
  let search := BASE_SEARCH_URL cfg +:+ node in
  let P := both same_files (fetches ∅ (before_loop search)) in
  let r := scrape_category cfg fuel name node st in
  ((∃ e, r.1 = Done (Throw e)) ∧ P st r.2)
  ∨ ∃ ids st0,
      seed (csv_files (files st) !! csv) = Ret ids
      ∧ scraped_ids st0 = ids
      ∧ P st st0
      ∧ r = while_ fuel
              (bind (gets total_scraped)
                    (fun total => ret (total <? MAX_PER_CATEGORY cfg)))
              (scrape_page cfg csv) st0.
Proof.
  cbv zeta. set (csv := csv_path cfg name).
  set (search := BASE_SEARCH_URL cfg +:+ node).
  set (P := both same_files (fetches ∅ (before_loop search))).
  set (loop := while_ fuel
            (bind (gets total_scraped)
                  (fun total => ret (total <? MAX_PER_CATEGORY cfg)))
            (scrape_page cfg csv)).
  set (Q := fun r : result unit * State W =>
    ((∃ e, r.1 = Done (Throw e)) ∧ P st r.2)
    ∨ ∃ ids st0, seed (csv_files (files st) !! csv) = Ret ids
                 ∧ scraped_ids st0 = ids ∧ P st st0 ∧ r = loop st0).
  change (Q (scrape_category cfg fuel name node st)). unfold scrape_category.
  fold search. fold csv.
  assert (Hthrow : ∀ e st1, P st st1 → Q (Done (Throw e), st1))
    by (intros e st1 ?; left; split; [by exists e | done]).
  assert (Hhome : before_loop search home_url) by (by right).
  apply (bind_post P _ _ Q st);
    [apply respects_both; [eauto with respects typeclass_instances|];
     apply respects_call_fetch; by left
    | eauto with finishes | reflexivity | done |].
  intros _ st1 H1.
  apply (bind_post P _ _ Q st);
    [apply respects_both; [eauto with respects typeclass_instances|];
     by apply respects_call_total_fetch
    | eauto with finishes | done | done |].
  intros _ st2 H2.
  apply (bind_post P _ _ Q st);
    [apply respects_both;
       [apply respects_handle_sorry_page; apply _
       | by apply respects_fetches_handle_sorry_page]
    | apply finishes_handle_sorry_page | done | done |].
  intros _ st3 H3. rewrite bind_modify.
  set (st4 := set_scraped_ids ∅ st3).
  assert (H4 : P st st4).
  { etrans; [exact H3|]. split; [done | by apply fetches_none_quiet]. }
  destruct (load_scraped_ids_cases csv st4) as (Hload & Hfin & Hseed).
  pose proof (respects_fetches_load_scraped_ids (before_loop search) csv st4)
    as Hfetch.
  apply (bind_elim _ _ Q);
    [intros ids st5 E | intros e st5 E | intros st5 E];
    rewrite E in Hload, Hfin, Hseed, Hfetch; simpl in *; [| |done].
  - rewrite !bind_modify. right.
    exists ids, (set_page 1 (set_total_scraped 0 (set_scraped_ids ids st5))).
    split_and!; try done.
    + rewrite <- (Hseed ids eq_refl). destruct H4 as [Hfiles _].
      unfold same_files, st4 in Hfiles. simpl in Hfiles. by rewrite Hfiles.
    + etrans; [exact H4|]. etrans; [split; [exact Hload | exact Hfetch]|].
      split; [done | by apply fetches_none_quiet].
  - apply Hthrow. etrans; [exact H4|]. by split.
Qed.

End KnownProducts.

(** X20: a product whose identifier is in the file of the category is not
    loaded again.  The pages a run of [scrape_category] loads are the search
    page of the category, the home page (where the recovery routine goes
    when a refresh raises), and pages of products whose identifiers are not
    in the id column of the file as it was when the run began. *)
Theorem X20_known_products_are_not_loaded {W : Type} `{World W}
    (cfg : Config) (fuel : nat) (name node : string) (st : State W) :
  ∃ evs,
    trace (scrape_category cfg fuel name node st).2 = trace st ++ evs
    ∧ ∀ url,
        EvGet url ∈ evs →
        url = BASE_SEARCH_URL cfg +:+ node
        ∨ url = home_url
        ∨ match seed (csv_files (files st) !! csv_path cfg name) with
          | Ret ids => generate_id url ∉ ids
          | Throw _ => False
          end.
Proof.
  assert (Hpre : ∀ evs url,
            Forall (fetch_ok (before_loop (BASE_SEARCH_URL cfg +:+ node))) evs →
            EvGet url ∈ evs →
            url = BASE_SEARCH_URL cfg +:+ node ∨ url = home_url).
  { intros evs url Hall Hin.
    exact (proj1 (Forall_forall _ _) Hall _ Hin). }
  destruct (scrape_category_prelude cfg fuel name node st)
    as [[_ [_ Hfetch]] | (ids & st0 & Hseed & Hids & [_ Hfetch] & Hrun)].
  - destruct Hfetch as (_ & evs & Htrace & Hall); [set_solver|].
    exists evs. split; [done|]. intros url Hin.
    destruct (Hpre evs url Hall Hin); auto.
  - destruct Hfetch as (_ & evs0 & Htrace0 & Hall0); [set_solver|].
    destruct (respects_fetches_crawl_loop cfg ids fuel (csv_path cfg name) st0)
      as (_ & evs1 & Htrace1 & Hall1); [by rewrite Hids|].
    rewrite Hrun. exists (evs0 ++ evs1).
    split; [by rewrite Htrace1, Htrace0, app_assoc|].
    intros url [Hin|Hin]%elem_of_app.
    + destruct (Hpre evs0 url Hall0 Hin); auto.
    + rewrite Hseed.
      destruct (proj1 (Forall_forall _ _) Hall1 _ Hin) as [|Hnew]; auto.
Qed.

Lemma X20_witness :
  ∃ evs,
    trace (@scrape_category _ (Sim.world Demo.site_two) (Demo.cfg 10) 5
             "jeans" "42" (Sim.start files_known_a)).2
    = trace (Sim.start files_known_a) ++ evs
    ∧ EvGet Demo.url_a ∉ evs.
Proof.
  assert (Hseed :
    seed (csv_files (files (Sim.start files_known_a)) !! csv_path (Demo.cfg 10) "jeans")
    = Ret (list_to_set [Demo.pid_a])).
  { assert (Hfile :
      csv_files (files (Sim.start files_known_a)) !! csv_path (Demo.cfg 10) "jeans"
      = Some [["id"; "url"]; [Demo.pid_a; Demo.url_a]])
      by (vm_compute; reflexivity).
    rewrite Hfile. apply seed_id_cells.
    - apply not_elem_of_cons. split; [discriminate | apply not_elem_of_nil].
    - by repeat constructor. }
  assert (Hid : generate_id Demo.url_a = Demo.pid_a)
    by (vm_compute; reflexivity).
  destruct (@X20_known_products_are_not_loaded _ (Sim.world Demo.site_two)
              (Demo.cfg 10) 5 "jeans" "42" (Sim.start files_known_a))
    as (evs & Htrace & Hall).
  exists evs. split; [exact Htrace|]. intros Hin.
  destruct (Hall Demo.url_a Hin) as [Heq|[Heq|Hknown]];
    [discriminate Heq | discriminate Heq |].
  rewrite Hseed, Hid in Hknown. apply Hknown.
  apply elem_of_list_to_set, list_elem_of_here.
Defined.
